(** * LeaveMax: the leave optimizer ([utils/optimizer.ts])

    A shallow embedding of the optimisation engine and the proofs of its
    documented properties.

    Conventions of the embedding.
    - A [Date] is the number of milliseconds since the local epoch
      (1970-01-01T00:00 local time, a Thursday), an integer; the local
      time zone has a fixed offset, so that every local day lasts
      [msPerDay] milliseconds.  Only valid dates are modelled: a [Date]
      always has a time value, and the time values have no bound.  This is
      the arithmetic of the engine for the dates inside the range of [Date]
      ([in_range]); what the engine does at the ends of the range, where a
      step gives an Invalid Date, is in [Module Js].
    - The [date-fns] functions used by the optimizer are given by their
      arithmetic on that number.
    - [format d 'yyyy-MM-dd'] renders the local calendar day of [d]; from
      the year 1 on ([common_era]) two dates get the same text exactly when
      they fall on the same local day, and the text is only ever used as a
      set key, so the key is represented by the day number.
    - The budget is an integer and its arithmetic exact; the code computes
      on doubles, which is the same up to 2^53 and is
      [optimizeLeaves_double] beyond.
    - [efficiency] is a quotient of two integers; it is kept as an exact
      rational (the doubles of two such quotients compare as the quotients
      do, as long as the integers stay below 2^26).
    - A [while] loop is run with a bound on its number of iterations
      ([fuel]); running out of it is the result [None].
    - Of the components around the optimizer ([HolidayInput],
      [ResultsSection], [utils/pdfParser.ts]) the functions that compute on
      dates are embedded; what a handler passes to its callback or stores in
      the state of its component is the value of the function.
    - The calendar of [Date] (its constructor and [getFullYear], [getMonth],
      [getDate]) is the Gregorian calendar in local time. *)

From Stdlib Require Import ZArith QArith Lia Lqa String Ascii.
From stdpp Require Import base decidable option list sorting gmap pretty.

Local Open Scope Z_scope.

(** ** Dates ([date-fns]) *)

Abbreviation Date := Z.

Definition msPerDay : Z := 86400000.

Definition getTime (d : Date) : Z := d.

(** The local calendar day of a date, counted from the epoch. *)
Definition dayNumber (d : Date) : Z := d / msPerDay.

Definition startOfDay (d : Date) : Date := msPerDay * (d / msPerDay).

Definition addDays (d : Date) (amount : Z) : Date := d + amount * msPerDay.

(** Day of the week, 0 for Sunday to 6 for Saturday. *)
Definition getDay (d : Date) : Z := (dayNumber d + 4) mod 7.

Definition isWeekend (d : Date) : bool :=
  (getDay d =? 0) || (getDay d =? 6).

Definition isSameDay (a b : Date) : bool := startOfDay a =? startOfDay b.

Definition isBefore (a b : Date) : bool := a <? b.

(** Number of full days between two dates, rounded towards zero. *)
Definition differenceInDays (later earlier : Date) : Z :=
  (later - earlier) ÷ msPerDay.

(** The key [format d 'yyyy-MM-dd']. *)
Definition format_ymd (d : Date) : Z := dayNumber d.

(** ** JavaScript helpers *)

(** [Array.prototype.sort] with a comparator: a stable sort; [cmp a b] is
    the sign of the number the comparator returns. *)
Fixpoint insert_sorted {A} (cmp : A → A → comparison) (x : A) (l : list A) : list A :=
  match l with
  | [] => [x]
  | y :: l' =>
      match cmp x y with
      | Gt => y :: insert_sorted cmp x l'
      | _ => x :: y :: l'
      end
  end.

Definition js_sort {A} (cmp : A → A → comparison) (l : list A) : list A :=
  foldr (insert_sorted cmp) [] l.

(** [while (cond(s)) s = body(s)], at most [fuel] tests of the condition. *)
Fixpoint while {S} (fuel : nat) (cond : S → bool) (body : S → S) (s : S) : option S :=
  match fuel with
  | O => None
  | Datatypes.S fuel' =>
      if cond s then while fuel' cond body (body s) else Some s
  end.

(** [l.slice(-n)] and [l.slice(0, n)]. *)
Definition slice_last {A} (n : nat) (l : list A) : list A := drop (length l - n) l.
Definition slice_first {A} (n : nat) (l : list A) : list A := take n l.

Global Arguments slice_last : simpl never.
Global Arguments slice_first : simpl never.

(** ** Types *)

Record LeaveRecommendation := {
  leaveDates : list Date;
  startDate : Date;
  endDate : Date;
  totalDays : Z;
  leavesUsed : Z;
  description : string;
}.

Record OptimizationResult := {
  recommendations : list LeaveRecommendation;
  optimizedLeaves : list Date;
  totalVacations : Z;
  longestBreak : Z;
  leavesRemaining : Z;
}.

(** The object built by [buildOpportunity]. *)
Record Opportunity := {
  opp_leaveDates : list Date;
  opp_startDate : Date;
  opp_endDate : Date;
  opp_totalDays : Z;
  opp_bonusDays : Z;
  opp_efficiency : Q;
}.

(** ** utils *)

Definition normalize (d : Date) : Date := startOfDay d.

Definition isHoliday (date : Date) (holidays : list Date) : bool :=
  existsb (λ h, isSameDay h date) holidays.

Definition isWorkingDay (date : Date) (holidays : list Date) : bool :=
  negb (isWeekend date) && negb (isHoliday date holidays).

Definition getDateRange (fuel : nat) (start end_ : Date) : option (list Date) :=
  let cur := normalize start in
  let last := normalize end_ in
  '(res, _) ← while fuel
      (λ '(res, cur), isBefore cur (addDays last 1))
      (λ '(res, cur), (res ++ [cur], addDays cur 1))
      ([], cur);
  Some res.

(** ** rules *)

Fixpoint exceeds_loop (max : Z) (holidays : list Date)
    (prev : Date) (rest : list Date) (streak : Z) : bool :=
  match rest with
  | [] => false
  | cur :: rest' =>
      if (differenceInDays cur prev =? 1) && isWorkingDay cur holidays
      then
        let streak := streak + 1 in
        if max <? streak then true
        else exceeds_loop max holidays cur rest' streak
      else exceeds_loop max holidays cur rest' 1
  end.

Definition by_time (a b : Date) : comparison := (getTime a - getTime b) ?= 0.

(** max 3 consecutive WORKING-DAY leaves *)
Definition exceedsMaxConsecutiveLeaves
    (leaveDates : list Date) (holidays : list Date) (max : Z) : bool :=
  let sorted := js_sort by_time (map normalize leaveDates) in
  match sorted with
  | [] => false
  | first :: rest => exceeds_loop max holidays first rest 1
  end.

(** holiday must exist within ±3 days (excluding weekend holidays) *)
Definition hasHolidayAnchor (leaveDates : list Date) (holidays : list Date) : bool :=
  let validHolidays := List.filter (λ h, negb (isWeekend h)) holidays in
  existsb (λ ld,
    existsb (λ h, Z.abs (differenceInDays ld h) <=? 3) validHolidays)
    leaveDates.

(** ** vacation expansion *)

Definition isOffDay (holidays : list Date) (leaveSet : gset Z) (d : Date) : bool :=
  isWeekend d || isHoliday d holidays || bool_decide (format_ymd d ∈ leaveSet).

Definition extendToFullVacation (fuel : nat)
    (leaveDates : list Date) (holidays : list Date) (anchor : Date)
    : option (Date * Date) :=
  let leaveSet : gset Z := list_to_set (map format_ymd leaveDates) in
  let start := normalize (foldl (λ a b, if a <? b then a else b) anchor leaveDates) in
  let end_ := normalize (foldl (λ a b, if b <? a then a else b) anchor leaveDates) in
  start ← while fuel (λ start, isOffDay holidays leaveSet (addDays start (-1)))
                     (λ start, addDays start (-1)) start;
  end_ ← while fuel (λ end_, isOffDay holidays leaveSet (addDays end_ 1))
                    (λ end_, addDays end_ 1) end_;
  Some (start, end_).

(** ** opportunity builders *)

(** The outer [option] is the fuel; the inner one is [null]. *)
Definition buildOpportunity (fuel : nat)
    (leaveDates : list Date) (holidays : list Date) (anchorHoliday : Date)
    : option (option Opportunity) :=
  if (length leaveDates =? 0)%nat
     || exceedsMaxConsecutiveLeaves leaveDates holidays 3
     || negb (hasHolidayAnchor leaveDates holidays)
  then Some None
  else
    '(startDate, endDate) ← extendToFullVacation fuel leaveDates holidays anchorHoliday;
    range ← getDateRange fuel startDate endDate;
    let totalDays := Z.of_nat (length range) in
    Some (Some {|
      opp_leaveDates := leaveDates;
      opp_startDate := startDate;
      opp_endDate := endDate;
      opp_totalDays := totalDays;
      opp_bonusDays := totalDays - Z.of_nat (length leaveDates);
      opp_efficiency := (inject_Z totalDays / inject_Z (Z.of_nat (length leaveDates)))%Q;
    |}).

Definition push_opt {A} (results : list A) (o : option A) : list A :=
  match o with
  | Some x => results ++ [x]
  | None => results
  end.

Definition findOpportunitiesAroundHoliday (fuel : nat)
    (holiday : Date) (holidays : list Date) : option (list Opportunity) :=
  if isWeekend holiday then Some []
  else
    let results := [] in
    '(before, _) ← while fuel
        (λ '(before, d), isWorkingDay d holidays)
        (λ '(before, d), (normalize d :: before, addDays d (-1)))
        ([], addDays holiday (-1));
    '(after, _) ← while fuel
        (λ '(after, d), isWorkingDay d holidays)
        (λ '(after, d), (after ++ [normalize d], addDays d 1))
        ([], addDays holiday 1);
    (* BEFORE only *)
    beforeOpp ← buildOpportunity fuel (slice_last 3 before) holidays holiday;
    let results := push_opt results beforeOpp in
    (* AFTER only *)
    afterOpp ← buildOpportunity fuel (slice_first 3 after) holidays holiday;
    let results := push_opt results afterOpp in
    (* COMBINED *)
    let combined := slice_last 3 before ++ slice_first 3 after in
    combinedOpp ← buildOpportunity fuel combined holidays holiday;
    let results := push_opt results combinedOpp in
    Some results.

(** ** main optimizer *)

Definition emptyResult (totalLeaves : Z) : OptimizationResult := {|
  recommendations := [];
  optimizedLeaves := [];
  totalVacations := 0;
  longestBreak := 0;
  leavesRemaining := totalLeaves;
|}.

Definition by_objective (preferLonger : bool) (a b : Opportunity) : comparison :=
  if preferLonger
  then (opp_totalDays b - opp_totalDays a) ?= 0
  else ((opp_efficiency b - opp_efficiency a) ?= 0)%Q.

(** The state of the greedy scan: [used], [selected], [usedLeaves]. *)
Record Selection := {
  used : gset Z;
  selected : list Opportunity;
  usedLeaves : Z;
}.

Definition select_step (totalLeaves : Z) (st : Selection) (opp : Opportunity) : Selection :=
  let keys := map format_ymd (opp_leaveDates opp) in
  if existsb (λ k, bool_decide (k ∈ used st)) keys
     || (totalLeaves <? usedLeaves st + Z.of_nat (length keys))
  then st
  else {|
    used := foldl (λ u k, {[k]} ∪ u) (used st) keys;
    usedLeaves := usedLeaves st + Z.of_nat (length keys);
    selected := selected st ++ [opp];
  |}.

Definition describe (leaves : Z) (days : Z) : string :=
  ("Take " +:+ pretty leaves +:+ " leave day(s) to get "
     +:+ pretty days +:+ " continuous days off")%string.

Definition toRecommendation (o : Opportunity) : LeaveRecommendation := {|
  leaveDates := opp_leaveDates o;
  startDate := opp_startDate o;
  endDate := opp_endDate o;
  totalDays := opp_totalDays o;
  leavesUsed := Z.of_nat (length (opp_leaveDates o));
  description := describe (Z.of_nat (length (opp_leaveDates o))) (opp_totalDays o);
|}.

Definition optimizeLeaves (fuel : nat)
    (holidays : list Date) (totalLeaves : Z)
    (_sandwichRule : bool) (preferLonger : bool) : option OptimizationResult :=
  if (length holidays =? 0)%nat || (totalLeaves <=? 0)
  then Some (emptyResult totalLeaves)
  else
    let normalizedHolidays := js_sort by_time (map normalize holidays) in
    found ← mapM (λ h, findOpportunitiesAroundHoliday fuel h normalizedHolidays)
                 normalizedHolidays;
    let opportunities := js_sort (by_objective preferLonger) (concat found) in
    let st := foldl (select_step totalLeaves)
                {| used := ∅; selected := []; usedLeaves := 0 |} opportunities in
    let recommendations := map toRecommendation (selected st) in
    Some {|
      recommendations := recommendations;
      optimizedLeaves := concat (map opp_leaveDates (selected st));
      totalVacations := Z.of_nat (length recommendations);
      longestBreak := foldl Z.max 0 (map totalDays recommendations);
      leavesRemaining := totalLeaves - usedLeaves st;
    |}.

(** *** The budget as a double *)

(** A number of the code is a double.  The counts of days are small and
    their sums exact, and so are the comparisons; the one operation on the
    budget that can round is the subtraction [totalLeaves - usedLeaves].
    [double x] is the double nearest to the integer [x], the one with the even
    significand of two that are as near (below the overflow threshold): the
    integers up to [2 ^ 53] in magnitude are doubles. *)
Definition double (x : Z) : Z :=
  let a := Z.abs x in
  if a <=? 2 ^ 53 then x
  else
    let e := Z.log2 a - 52 in
    let q := a / 2 ^ e in
    let r := a mod 2 ^ e in
    let q := if (2 ^ (e - 1) <? r) || ((r =? 2 ^ (e - 1)) && Z.odd q)
             then q + 1 else q in
    Z.sgn x * (q * 2 ^ e).

(** [optimizeLeaves] with that subtraction as the code computes it, for a
    budget that is a double. *)
Definition optimizeLeaves_double (fuel : nat)
    (holidays : list Date) (totalLeaves : Z)
    (_sandwichRule : bool) (preferLonger : bool) : option OptimizationResult :=
  if (length holidays =? 0)%nat || (totalLeaves <=? 0)
  then Some (emptyResult totalLeaves)
  else
    let normalizedHolidays := js_sort by_time (map normalize holidays) in
    found ← mapM (λ h, findOpportunitiesAroundHoliday fuel h normalizedHolidays)
                 normalizedHolidays;
    let opportunities := js_sort (by_objective preferLonger) (concat found) in
    let st := foldl (select_step totalLeaves)
                {| used := ∅; selected := []; usedLeaves := 0 |} opportunities in
    let recommendations := map toRecommendation (selected st) in
    Some {|
      recommendations := recommendations;
      optimizedLeaves := concat (map opp_leaveDates (selected st));
      totalVacations := Z.of_nat (length recommendations);
      longestBreak := foldl Z.max 0 (map totalDays recommendations);
      leavesRemaining := double (totalLeaves - usedLeaves st);
    |}.

(** *** Dates at the ends of the range *)

(** A [Date] holds at most [maxTime] milliseconds on either side of the
    epoch, 100 000 000 days. *)
Definition maxTime : Z := 8640000000000000.

Module Js.

(** The time value of a [Date] as the engine holds it: a number of
    milliseconds of at most [maxTime] in magnitude, or NaN ([None]), which
    makes an Invalid Date.  Here the local time is UTC. *)
Definition Date := option Z.

Definition TimeClip (t : Z) : Date :=
  if Z.abs t <=? maxTime then Some t else None.

Definition startOfDay (d : Date) : Date :=
  t ← d; TimeClip (msPerDay * (t / msPerDay)).

Definition addDays (d : Date) (amount : Z) : Date :=
  t ← d; TimeClip (t + amount * msPerDay).

Definition getDay (d : Date) : option Z :=
  t ← d; Some ((t / msPerDay + 4) mod 7).

(** NaN is no day of the week. *)
Definition isWeekend (d : Date) : bool :=
  match getDay d with
  | Some g => (g =? 0) || (g =? 6)
  | None => false
  end.

(** NaN is not equal to NaN. *)
Definition isSameDay (a b : Date) : bool :=
  match startOfDay a, startOfDay b with
  | Some x, Some y => x =? y
  | _, _ => false
  end.

Definition normalize (d : Date) : Date := startOfDay d.

Definition isHoliday (date : Date) (holidays : list Date) : bool :=
  existsb (λ h, isSameDay h date) holidays.

Definition isWorkingDay (date : Date) (holidays : list Date) : bool :=
  negb (isWeekend date) && negb (isHoliday date holidays).

(** The two walks of [findOpportunitiesAroundHoliday], from its first line
    to [before] and [after]. *)
Definition walks (fuel : nat) (holiday : Date) (holidays : list Date)
    : option (list Date * list Date) :=
  if isWeekend holiday then Some ([], [])
  else
    '(before, _) ← while fuel
        (λ '(before, d), isWorkingDay d holidays)
        (λ '(before, d), (normalize d :: before, addDays d (-1)))
        ([], addDays holiday (-1));
    '(after, _) ← while fuel
        (λ '(after, d), isWorkingDay d holidays)
        (λ '(after, d), (after ++ [normalize d], addDays d 1))
        ([], addDays holiday 1);
    Some (before, after).

End Js.

(** * The components around the optimizer *)

(** ** [HolidayInput] *)

(** [toggleHoliday]: the list it hands to [onHolidaysChange]. *)
Definition toggleHoliday (selectedHolidays : list Date) (date : Date) : list Date :=
  let exists_ := existsb (λ h, isSameDay h date) selectedHolidays in
  if exists_
  then List.filter (λ h, negb (isSameDay h date)) selectedHolidays
  else selectedHolidays ++ [date].

(** An entry of the parsed file. *)
Record ParsedHoliday := {
  date : Date;
  name : option string;
}.

(** What [handleFileSelect] does with the state of the component: the list
    it hands to [onHolidaysChange], if it does, and the messages it sets. *)
Record UploadOutcome := {
  holidaysChange : option (list Date);
  parseError : option string;
  parseSuccess : option Z;
}.

(** [handleFileSelect], from the point where [parseHolidayPDF] has returned
    [parsedHolidays] for a file that passed the checks. *)
Definition handleFileSelect (selectedHolidays : list Date)
    (parsedHolidays : list ParsedHoliday) : UploadOutcome :=
  if (length parsedHolidays =? 0)%nat
  then {| holidaysChange := None;
          parseError := Some "No dates found in PDF. Please try manual selection or ensure the PDF contains readable dates.";
          parseSuccess := None |}
  else
    (* Extract dates from parsed holidays *)
    let dates := map date parsedHolidays in
    (* Merge with existing holidays (avoid duplicates) *)
    let existingDateKeys : gset Z := list_to_set (map format_ymd selectedHolidays) in
    let newDates :=
      List.filter (λ d, negb (bool_decide (format_ymd d ∈ existingDateKeys))) dates in
    if (0 <? length newDates)%nat
    then {| holidaysChange := Some (selectedHolidays ++ newDates);
            parseError := None;
            parseSuccess := Some (Z.of_nat (length newDates)) |}
    else {| holidaysChange := None;
            parseError := Some "All dates from PDF are already selected";
            parseSuccess := None |}.

(** ** [ResultsSection] *)

Definition isAfter (a b : Date) : bool := b <? a.

Definition selectedRecommendation (result : OptimizationResult)
    (selectedRecommendationId : option Z) : option LeaveRecommendation :=
  match selectedRecommendationId with
  | Some id => if 0 <=? id then recommendations result !! Z.to_nat id else None
  | None => None
  end.

(** Check if a day belongs to the selected recommendation *)
Definition isDayInSelectedRecommendation (result : OptimizationResult)
    (selectedRecommendationId : option Z) (day : Date) : bool :=
  match selectedRecommendation result selectedRecommendationId with
  | None => false
  | Some rec =>
      let normalizedDay := startOfDay day in
      let start := startOfDay (startDate rec) in
      let end_ := startOfDay (endDate rec) in
      (isSameDay normalizedDay start || isAfter normalizedDay start) &&
      (isSameDay normalizedDay end_ || isBefore normalizedDay end_)
  end.

Definition getDayType (result : OptimizationResult) (holidays : list Date)
    (day : Date) : string :=
  if existsb (λ d, isSameDay d day) (optimizedLeaves result) then "leave"
  else if existsb (λ h, isSameDay h day) holidays then "holiday"
  else if isWeekend day then "weekend"
  else "workday".

Definition getDayHighlightState (result : OptimizationResult) (holidays : list Date)
    (selectedRecommendationId : option Z) (day : Date) : option string :=
  match selectedRecommendation result selectedRecommendationId with
  | None => None
  | Some _ =>
      if isDayInSelectedRecommendation result selectedRecommendationId day
      then Some "active"
      else
        (* Dim days that are not part of the selected recommendation *)
        let dayType := getDayType result holidays day in
        if String.eqb dayType "leave" || String.eqb dayType "holiday"
        then Some "inactive"
        else None
  end.

Definition getDayLabel (dayType : string) : string :=
  if String.eqb dayType "holiday" then "Company Holiday"
  else if String.eqb dayType "leave" then "Suggested Leave"
  else if String.eqb dayType "weekend" then "Weekend"
  else "Working Day".

(** ** [pdfParser] *)

(** [parseDateString] is called on the matches of [DATE_PATTERNS] only,
    whose groups are ASCII text (digits, or the first letters of the name of
    a month): a string is a string of bytes, and [toLowerCase] is given on
    the ASCII letters. *)

(** A number that [parseInt] gives: an integer, or NaN ([None]).  Every
    comparison with NaN is false, [===] included. *)
Abbreviation number := (option Z).

Definition num_lt (a b : number) : bool :=
  match a, b with Some x, Some y => x <? y | _, _ => false end.

Definition num_gt (a b : number) : bool := num_lt b a.

Definition num_eq (a b : number) : bool :=
  match a, b with Some x, Some y => x =? y | _, _ => false end.

Definition num_sub (a b : number) : number :=
  x ← a; y ← b; Some (x - y).

Definition isWhiteSpace (c : ascii) : bool :=
  let n := Z.of_nat (nat_of_ascii c) in ((9 <=? n) && (n <=? 13)) || (n =? 32).

Definition digitOf (c : ascii) : option Z :=
  let n := Z.of_nat (nat_of_ascii c) in
  if (48 <=? n) && (n <=? 57) then Some (n - 48) else None.

Fixpoint trimStart (s : string) : string :=
  match s with
  | String c r => if isWhiteSpace c then trimStart r else s
  | EmptyString => s
  end.

(** The value of the longest prefix of digits, NaN when it is empty. *)
Fixpoint leadingDigits (s : string) (acc : number) : number :=
  match s with
  | String c r =>
      match digitOf c with
      | Some v => leadingDigits r (Some (10 * default 0 acc + v))
      | None => acc
      end
  | EmptyString => acc
  end.

(** [parseInt(s, 10)]; [None] as argument is [undefined]. *)
Definition parseInt (s : option string) : number :=
  match s with
  | None => None
  | Some s =>
      match trimStart s with
      | String "-" r => Z.opp <$> leadingDigits r None
      | String "+" r => leadingDigits r None
      | r => leadingDigits r None
      end
  end.

Definition lowerChar (c : ascii) : ascii :=
  let n := nat_of_ascii c in
  if ((65 <=? n) && (n <=? 90))%nat then ascii_of_nat (n + 32) else c.

Fixpoint toLowerCase (s : string) : string :=
  match s with
  | String c r => String (lowerChar c) (toLowerCase r)
  | EmptyString => EmptyString
  end.

Definition MONTH_NAMES : gmap string Z :=
  list_to_map
    [("jan", 0); ("january", 0); ("feb", 1); ("february", 1); ("mar", 2); ("march", 2);
     ("apr", 3); ("april", 3); ("may", 4); ("jun", 5); ("june", 5); ("jul", 6);
     ("july", 6); ("aug", 7); ("august", 7); ("sep", 8); ("september", 8);
     ("oct", 9); ("october", 9); ("nov", 10); ("november", 10); ("dec", 11);
     ("december", 11)]%string.

(** *** The calendar of [Date] *)

Definition isLeapYear (y : Z) : bool :=
  (y mod 4 =? 0) && (negb (y mod 100 =? 0) || (y mod 400 =? 0)).

(** Days of month [m] (0 for January) of year [y]. *)
Definition daysInMonth (y m : Z) : Z :=
  if m =? 1 then (if isLeapYear y then 29 else 28)
  else if (m =? 3) || (m =? 5) || (m =? 8) || (m =? 10) then 30
  else 31.

(** Day number of the first of January of year [y]. *)
Definition dayFromYear (y : Z) : Z :=
  365 * (y - 1970) + (y - 1969) / 4 - (y - 1901) / 100 + (y - 1601) / 400.

(** Day number of the day [dt] of month [m] of year [y]; months and days
    out of range carry over. *)
Definition makeDay (y m dt : Z) : Z :=
  let ym := y + m / 12 in
  let mn := m mod 12 in
  dayFromYear ym
  + foldr Z.add 0 (map (daysInMonth ym) (seqZ 0 mn))
  + dt - 1.

(** Year, month (0 for January) and day of the month of a day number. *)
Definition civil (n : Z) : Z * Z * Z :=
  let z := n + 719468 in
  let era := z / 146097 in
  let doe := z - era * 146097 in
  let yoe := (doe - doe / 1460 + doe / 36524 - doe / 146096) / 365 in
  let doy := doe - (365 * yoe + yoe / 4 - yoe / 100) in
  let mp := (5 * doy + 2) / 153 in
  let d := doy - (153 * mp + 2) / 5 + 1 in
  let m := if mp <? 10 then mp + 2 else mp - 10 in
  (yoe + era * 400 + (if m <=? 1 then 1 else 0), m, d).

Definition getFullYear (d : Date) : Z := (civil (dayNumber d)).1.1.
Definition getMonth (d : Date) : Z := (civil (dayNumber d)).1.2.
Definition getDate (d : Date) : Z := (civil (dayNumber d)).2.

(** [new Date(year, month, day)]: local midnight of that day, [None] for an
    Invalid Date. *)
Definition newDate (year month day : number) : option Date :=
  y ← year; m ← month; dt ← day;
  let yr := if (0 <=? y) && (y <=? 99) then 1900 + y else y in
  let t := makeDay yr m dt * msPerDay in
  if Z.abs t <=? 8640000000000000 then Some t else None.

(** [match] is the array of a match of [DATE_PATTERNS[patternIndex]]: the
    matched text, then the groups. *)
Definition parseDateString (match_ : list string) (patternIndex : Z) : option Date :=
  '(year, month, day) ←
    (if patternIndex =? 0 then
       let day := parseInt (match_ !! 1%nat) in
       monthName1 ← toLowerCase <$> match_ !! 2%nat;
       let month := MONTH_NAMES !! monthName1 in
       let year := parseInt (match_ !! 3%nat) in
       if month is None then None else Some (year, month, day)
     else if patternIndex =? 1 then
       monthName2 ← toLowerCase <$> match_ !! 1%nat;
       let month := MONTH_NAMES !! monthName2 in
       let day := parseInt (match_ !! 2%nat) in
       let year := parseInt (match_ !! 3%nat) in
       if month is None then None else Some (year, month, day)
     else if patternIndex =? 2 then
       let year := parseInt (match_ !! 1%nat) in
       let month := num_sub (parseInt (match_ !! 2%nat)) (Some 1) in
       let day := parseInt (match_ !! 3%nat) in
       Some (year, month, day)
     else if (patternIndex =? 3) || (patternIndex =? 4) then
       let part1 := parseInt (match_ !! 1%nat) in
       let part2 := parseInt (match_ !! 2%nat) in
       let year := parseInt (match_ !! 3%nat) in
       if num_gt part1 (Some 12) then Some (year, num_sub part2 (Some 1), part1)
       else Some (year, num_sub part1 (Some 1), part2)
     else None);
  if num_lt year (Some 2000) || num_gt year (Some 2100) then None
  else if num_lt month (Some 0) || num_gt month (Some 11) then None
  else if num_lt day (Some 1) || num_gt day (Some 31) then None
  else
    let date := newDate year month day in
    if num_eq (getFullYear <$> date) year && num_eq (getMonth <$> date) month
       && num_eq (getDate <$> date) day
    then date
    else None.

Global Arguments makeDay : simpl never.
Global Arguments civil : simpl never.

(** * Vocabulary of the properties *)

(** A list without the later copies of its elements. *)
Fixpoint firsts {A} `{EqDecision A} (l : list A) : list A :=
  match l with
  | [] => []
  | x :: l => x :: filter (λ y, y ≠ x) (firsts l)
  end.

(** [x] may stay before [y] in a list sorted with [cmp]. *)
Definition stays_before {A} (cmp : A → A → comparison) (x y : A) : Prop :=
  cmp x y ≠ Gt.

(** The holiday test only sees which days the list holds. *)
Definition same_days (hs hs' : list Date) : Prop :=
  ∀ n, (∃ h, h ∈ hs ∧ dayNumber h = n) ↔ (∃ h, h ∈ hs' ∧ dayNumber h = n).

(** The facts every built opportunity satisfies, for the holiday list it was
    built with. *)
Record opp_wf (hs : list Date) (o : Opportunity) : Prop := {
  wf_nonempty : opp_leaveDates o ≠ [];
  wf_order : dayNumber (opp_startDate o) <= dayNumber (opp_endDate o);
  wf_span : ∀ d, d ∈ opp_leaveDates o →
    dayNumber (opp_startDate o) <= dayNumber d <= dayNumber (opp_endDate o);
  wf_before :
    isOffDay hs (list_to_set (map format_ymd (opp_leaveDates o)))
      (addDays (opp_startDate o) (-1)) = false;
  wf_after :
    isOffDay hs (list_to_set (map format_ymd (opp_leaveDates o)))
      (addDays (opp_endDate o) 1) = false;
  wf_total :
    opp_totalDays o = dayNumber (opp_endDate o) - dayNumber (opp_startDate o) + 1;
  wf_bonus :
    opp_bonusDays o = opp_totalDays o - Z.of_nat (length (opp_leaveDates o));
  wf_efficiency :
    opp_efficiency o =
      (inject_Z (opp_totalDays o) / inject_Z (Z.of_nat (length (opp_leaveDates o))))%Q;
}.

(** A leave date of an opportunity around [h]: one of the three days before
    or of the three days after [h]. *)
Definition near (h d : Date) : Prop :=
  dayNumber h - 3 <= dayNumber d < dayNumber h ∨
  dayNumber h < dayNumber d <= dayNumber h + 3.

Definition leave_ok (hs : list Date) (h d : Date) : Prop :=
  startOfDay d = d ∧ isWorkingDay d hs = true ∧ near h d.

(** The holidays the optimizer works with. *)
Definition normalizedHolidays (holidays : list Date) : list Date :=
  js_sort by_time (map normalize holidays).

Definition keys_of (o : Opportunity) : list Z := map format_ymd (opp_leaveDates o).

Definition sum_list (l : list Z) : Z := foldr Z.add 0 l.

(** Two opportunities share no leave day. *)
Definition keys_disjoint (a b : Opportunity) : Prop :=
  ∀ k, k ∈ keys_of a → k ∈ keys_of b → False.

(** The invariant of the greedy scan. *)
Record selection_inv (cands : list Opportunity) (st : Selection) : Prop := {
  inv_budget :
    usedLeaves st = sum_list (map (λ o, Z.of_nat (length (opp_leaveDates o))) (selected st));
  inv_used : ∀ k, k ∈ used st ↔ ∃ o, o ∈ selected st ∧ k ∈ keys_of o;
  inv_disjoint : ∀ (i j : nat) a b,
    selected st !! i = Some a → selected st !! j = Some b → i ≠ j → keys_disjoint a b;
  inv_from : ∀ o, o ∈ selected st → o ∈ cands;
}.

(** The candidates of a run: what [findOpportunitiesAroundHoliday] yields for
    the normalized holidays, in the order of the objective. *)
Definition candidates (fuel : nat) (holidays : list Date) (preferLonger : bool)
    : option (list Opportunity) :=
  found ← mapM (λ h, findOpportunitiesAroundHoliday fuel h (normalizedHolidays holidays))
               (normalizedHolidays holidays);
  Some (js_sort (by_objective preferLonger) (concat found)).

Definition result_of (totalLeaves : Z) (st : Selection) : OptimizationResult := {|
  recommendations := map toRecommendation (selected st);
  optimizedLeaves := concat (map opp_leaveDates (selected st));
  totalVacations := Z.of_nat (length (map toRecommendation (selected st)));
  longestBreak := foldl Z.max 0 (map totalDays (map toRecommendation (selected st)));
  leavesRemaining := totalLeaves - usedLeaves st;
|}.

(** Midnight of the [n]-th day after the epoch. *)
Definition day (n : Z) : Date := n * msPerDay.

(** Wednesday 1970-01-07, alone in its week. *)
Definition midweek : list Date := [day 6].

(** New Year (Thursday 2026-01-01, given at 09:00, and once more at
    midnight) and Republic Day (Monday 2026-01-26). *)
Definition holidays2026 : list Date :=
  [day 20454 + 9 * 3600000; day 20479; day 20454].

Definition run_midweek : OptimizationResult :=
  Eval vm_compute in default (emptyResult 0) (optimizeLeaves 20 midweek 4 false false).

Definition run_2026 : OptimizationResult :=
  Eval vm_compute in default (emptyResult 0) (optimizeLeaves 20 holidays2026 8 false true).

(** The leave of Friday 2026-01-02, after New Year. *)
Definition bridge_2026 : Opportunity :=
  Eval vm_compute in
    default {| opp_leaveDates := []; opp_startDate := 0; opp_endDate := 0;
               opp_totalDays := 0; opp_bonusDays := 0; opp_efficiency := 0 |}
      (default None
         (buildOpportunity 20 [day 20455] (normalizedHolidays holidays2026) (day 20454))).

(** The off-days of the documented property: weekends, holidays of the
    input, and the leave dates of every recommendation of the result. *)
Definition off_in_result (hs : list Date) (r : OptimizationResult) (d : Date) : bool :=
  isWeekend d || isHoliday d hs ||
  existsb (λ rec, existsb (λ l, isSameDay l d) (leaveDates rec)) (recommendations r).

(** The off-days the span expander knows: weekends, holidays, and the leave
    dates of the one recommendation. *)
Definition off_for (hs : list Date) (rec : LeaveRecommendation) (d : Date) : bool :=
  isWeekend d || isHoliday d hs || existsb (λ l, isSameDay l d) (leaveDates rec).

(** A run of calendar days, each the day after the one before. *)
Definition consecutive_days (run : list Date) : Prop :=
  ∀ (i : nat) a b,
    run !! i = Some a → run !! Datatypes.S i = Some b → dayNumber b = dayNumber a + 1.

(** [f] returns [r] once it is given [N] units of fuel or more. *)
Definition returns {A} (f : nat → option A) (N : nat) (r : A) : Prop :=
  ∀ fuel, (N ≤ fuel)%nat → f fuel = Some r.

#[global] Instance Q_eq_dec : EqDecision Q.
Proof. solve_decision. Defined.

#[global] Instance Opportunity_eq_dec : EqDecision Opportunity.
Proof. solve_decision. Defined.

(** The test of the scan: the candidate is passed over. *)
Definition rejected (totalLeaves : Z) (st : Selection) (opp : Opportunity) : bool :=
  existsb (λ k, bool_decide (k ∈ used st)) (keys_of opp)
  || (totalLeaves <? usedLeaves st + Z.of_nat (length (keys_of opp))).

(** A holiday list without its duplicate calendar days: of the dates that
    fall on one day, the first is kept. *)
Fixpoint dedupDays (holidays : list Date) : list Date :=
  match holidays with
  | [] => []
  | h :: rest => h :: filter (λ x, dayNumber x ≠ dayNumber h) (dedupDays rest)
  end.

(** The leave dates of a candidate around [h]: the [kb] days before [h] and
    the [ka] days after it, in order, at midnight. *)
Definition block (h : Date) (kb ka : nat) (lds : list Date) : Prop :=
  (kb ≤ 3)%nat ∧ (ka ≤ 3)%nat ∧ length lds = (kb + ka)%nat ∧
  ∀ (j : nat) x, lds !! j = Some x →
    startOfDay x = x ∧
    dayNumber x =
      if (j <? kb)%nat then dayNumber h - Z.of_nat kb + Z.of_nat j
      else dayNumber h + 1 + Z.of_nat (j - kb).

(** The candidates of the 2026 calendar, longest first. *)
Definition cands_2026 : list Opportunity :=
  Eval vm_compute in default [] (candidates 20 holidays2026 true).

(** The objective as the recommendation shows it: its [totalDays], or the
    quotient of its [totalDays] and [leavesUsed]. *)
Definition objective_le (preferLonger : bool) (b a : LeaveRecommendation) : Prop :=
  if preferLonger then totalDays b <= totalDays a
  else (inject_Z (totalDays b) / inject_Z (leavesUsed b)
        <= inject_Z (totalDays a) / inject_Z (leavesUsed a))%Q.

(** The two recommendations of the 2026 calendar. *)
Definition newyear_2026 : LeaveRecommendation :=
  Eval vm_compute in
    default (toRecommendation bridge_2026) (recommendations run_2026 !! 0%nat).

Definition republic_2026 : LeaveRecommendation :=
  Eval vm_compute in
    default (toRecommendation bridge_2026) (recommendations run_2026 !! 1%nat).

(** A date of the list falls on day [t]. *)
Definition on_day (l : list Date) (t : Z) : Prop := ∃ x, x ∈ l ∧ dayNumber x = t.

(** The days after [a] up to [e] are all days of the list and working
    days. *)
Definition working_run (hs l : list Date) (a e : Z) : Prop :=
  ∀ t, a < t <= e → on_day l t ∧ isWorkingDay (day t) hs = true.

(** The dates of a parsed file that [handleFileSelect] adds. *)
Definition newDates (selectedHolidays : list Date) (parsedHolidays : list ParsedHoliday)
    : list Date :=
  List.filter
    (λ d, negb (bool_decide
       (format_ymd d ∈ (list_to_set (map format_ymd selectedHolidays) : gset Z))))
    (map date parsedHolidays).

(** A file with Republic Day and Holi. *)
Definition file_2026 : list ParsedHoliday :=
  [ {| date := day 20479; name := None |};
    {| date := day 20520 + 3600000; name := Some "Holi" |} ].

(** A day of the calendar that the parser accepts: year 2000 to 2100, month
    [m] (0 for January), day [d] of that month. *)
Definition calendar_date (y m d : Z) : Prop :=
  2000 <= y <= 2100 ∧ 0 <= m <= 11 ∧ 1 <= d <= daysInMonth y m.

(** The three numbers that the [switch] of [parseDateString] reads. *)
Definition components (match_ : list string) (patternIndex : Z)
    : option (number * number * number) :=
  if patternIndex =? 0 then
    let day := parseInt (match_ !! 1%nat) in
    monthName1 ← toLowerCase <$> match_ !! 2%nat;
    let month := MONTH_NAMES !! monthName1 in
    let year := parseInt (match_ !! 3%nat) in
    if month is None then None else Some (year, month, day)
  else if patternIndex =? 1 then
    monthName2 ← toLowerCase <$> match_ !! 1%nat;
    let month := MONTH_NAMES !! monthName2 in
    let day := parseInt (match_ !! 2%nat) in
    let year := parseInt (match_ !! 3%nat) in
    if month is None then None else Some (year, month, day)
  else if patternIndex =? 2 then
    let year := parseInt (match_ !! 1%nat) in
    let month := num_sub (parseInt (match_ !! 2%nat)) (Some 1) in
    let day := parseInt (match_ !! 3%nat) in
    Some (year, month, day)
  else if (patternIndex =? 3) || (patternIndex =? 4) then
    let part1 := parseInt (match_ !! 1%nat) in
    let part2 := parseInt (match_ !! 2%nat) in
    let year := parseInt (match_ !! 3%nat) in
    if num_gt part1 (Some 12) then Some (year, num_sub part2 (Some 1), part1)
    else Some (year, num_sub part1 (Some 1), part2)
  else None.

(** The checks that follow the [switch]. *)
Definition validated (c : number * number * number) : option Date :=
  let '(year, month, day) := c in
  if num_lt year (Some 2000) || num_gt year (Some 2100) then None
  else if num_lt month (Some 0) || num_gt month (Some 11) then None
  else if num_lt day (Some 1) || num_gt day (Some 31) then None
  else
    let date := newDate year month day in
    if num_eq (getFullYear <$> date) year && num_eq (getMonth <$> date) month
       && num_eq (getDate <$> date) day
    then date
    else None.

(** The check of one day of the calendar: [c] is what [civil] gives for the
    day number [n] of the day [d] of month [m] of year [y]. *)
Definition calendar_ok (y m d n : Z) (c : Z * Z * Z) : bool :=
  eqb ((c.1.1 =? y) && (c.1.2 =? m) && (c.2 =? d)) (d <=? daysInMonth y m)
  && (0 <=? n) && (n <=? 50000).

(** A date two weeks or more inside the range of [Date]: the days that the
    loops visit around it are dates that the engine holds, in a zone of any
    offset. *)
Definition in_range (d : Date) : Prop :=
  - maxTime + 14 * msPerDay <= d <= maxTime - 14 * msPerDay.

(** A date [in_range] that is two weeks or more after 0001-01-01: [format]
    writes the year of an earlier date without its sign and counted from 1
    (the year 0 as 0001); from the year 1 on, the keys of different days
    differ. *)
Definition common_era (d : Date) : Prop :=
  dayFromYear 1 + 14 <= dayNumber d ∧ in_range d.

(** A date that the engine holds together with its midnight. *)
Definition held (d : Date) : Prop := - maxTime + msPerDay <= d <= maxTime.

(** The states of a walk from [h], [c] being the step, -1 or 1: the date is
    a few days from [h], and the days in between are weekdays. *)
Definition walking (h : Date) (c : Z) (d : Date) : Prop :=
  ∃ k, 1 <= k ∧ d = addDays h (c * k) ∧
       ∀ j, 1 <= j < k → isWeekend (addDays h (c * j)) = false.

(** * Properties *)

(** ** Calendar arithmetic *)

Lemma msPerDay_pos : 0 < msPerDay.
Proof. reflexivity. Qed.

Lemma startOfDay_day d : startOfDay d = msPerDay * dayNumber d.
Proof. reflexivity. Qed.

Lemma dayNumber_mul k : dayNumber (msPerDay * k) = k.
Proof.
  unfold dayNumber. rewrite Z.mul_comm. apply Z.div_mul.
  pose proof msPerDay_pos. lia.
Qed.

Lemma dayNumber_startOfDay d : dayNumber (startOfDay d) = dayNumber d.
Proof. rewrite startOfDay_day. apply dayNumber_mul. Qed.

Lemma startOfDay_idem d : startOfDay (startOfDay d) = startOfDay d.
Proof. by rewrite !startOfDay_day, dayNumber_mul. Qed.

Lemma dayNumber_addDays d n : dayNumber (addDays d n) = dayNumber d + n.
Proof.
  unfold dayNumber, addDays. apply Z.div_add.
  pose proof msPerDay_pos. lia.
Qed.

Lemma startOfDay_addDays d n : startOfDay (addDays d n) = addDays (startOfDay d) n.
Proof. rewrite !startOfDay_day, dayNumber_addDays. unfold addDays. lia. Qed.

Lemma startOfDay_le d : startOfDay d <= d.
Proof.
  unfold startOfDay. apply Z.mul_div_le. apply msPerDay_pos.
Qed.

Lemma dayNumber_mono a b : a <= b → dayNumber a <= dayNumber b.
Proof. intros H. apply Z.div_le_mono; [apply msPerDay_pos | done]. Qed.

Lemma isSameDay_spec a b : isSameDay a b = true ↔ dayNumber a = dayNumber b.
Proof.
  unfold isSameDay. rewrite Z.eqb_eq, !startOfDay_day.
  pose proof msPerDay_pos. split; [nia | congruence].
Qed.

Lemma isWeekend_day a b : dayNumber a = dayNumber b → isWeekend a = isWeekend b.
Proof. unfold isWeekend, getDay. by intros ->. Qed.

Lemma existsb_elem_of {A} (f : A → bool) (l : list A) :
  existsb f l = true ↔ ∃ x, x ∈ l ∧ f x = true.
Proof. rewrite existsb_exists. by setoid_rewrite list_elem_of_In. Qed.

Lemma existsb_none {A} (f : A → bool) (l : list A) :
  existsb f l = false ↔ ∀ x, x ∈ l → f x = false.
Proof.
  rewrite <- not_true_iff_false, existsb_elem_of. split.
  - intros H x Hx. apply not_true_iff_false. intros Hf. apply H. eauto.
  - intros H (x & Hx & Hf). rewrite (H x Hx) in Hf. done.
Qed.

Lemma isHoliday_spec d hs :
  isHoliday d hs = true ↔ ∃ h, h ∈ hs ∧ dayNumber h = dayNumber d.
Proof.
  unfold isHoliday. rewrite existsb_elem_of.
  by setoid_rewrite isSameDay_spec.
Qed.

Lemma isHoliday_day a b hs : dayNumber a = dayNumber b → isHoliday a hs = isHoliday b hs.
Proof.
  intros E. apply eq_true_iff_eq. rewrite !isHoliday_spec. by rewrite E.
Qed.

Lemma isHoliday_same_days d hs hs' :
  same_days hs hs' → isHoliday d hs = isHoliday d hs'.
Proof.
  intros E. apply eq_true_iff_eq. rewrite !isHoliday_spec. apply E.
Qed.

Lemma isWorkingDay_day a b hs :
  dayNumber a = dayNumber b → isWorkingDay a hs = isWorkingDay b hs.
Proof.
  intros E. unfold isWorkingDay.
  by rewrite (isWeekend_day a b E), (isHoliday_day a b hs E).
Qed.

Lemma isWorkingDay_same_days d hs hs' :
  same_days hs hs' → isWorkingDay d hs = isWorkingDay d hs'.
Proof. intros E. unfold isWorkingDay. by rewrite (isHoliday_same_days d hs hs' E). Qed.

(** ** Loops *)

Section Loops.
Context {S : Type} (cond : S → bool) (body : S → S).

Lemma while_more fuel k s r :
  while fuel cond body s = Some r → while (fuel + k) cond body s = Some r.
Proof.
  revert s. induction fuel as [|fuel IH]; intros s; simpl; [done|].
  destruct (cond s); [apply IH | done].
Qed.

(** A loop stops as soon as some iterate of its body fails the test. *)
Lemma while_stops k s :
  cond (Nat.iter k body s) = false →
  ∃ r, ∀ extra, while (Datatypes.S k + extra) cond body s = Some r.
Proof.
  revert s. induction k as [|k IH]; intros s Hk; simpl in Hk |- *.
  - exists s. intros extra. by rewrite Hk.
  - destruct (cond s) eqn:Hc.
    + assert (Hk' : cond (Nat.iter k body (body s)) = false).
      { by rewrite <- Nat.iter_succ_r. }
      destruct (IH _ Hk') as [r Hr]. exists r. intros extra. apply Hr.
    + exists s. done.
Qed.

(** Invariants: what holds at the start and is kept by the body holds at
    the exit, where the test fails. *)
Lemma while_inv (P : S → Prop) fuel s r :
  while fuel cond body s = Some r →
  P s →
  (∀ s, P s → cond s = true → P (body s)) →
  P r ∧ cond r = false.
Proof.
  intros Hw Hs Hstep. revert s Hw Hs.
  induction fuel as [|fuel IH]; intros s Hw Hs; simpl in Hw; [done|].
  destruct (cond s) eqn:Hc.
  - eapply IH; [exact Hw | by apply Hstep].
  - by simplify_eq.
Qed.
End Loops.

(** ** The span expander *)

Lemma fold_earliest anchor (l : list Date) :
  let m := foldl (λ a b, if a <? b then a else b) anchor l in
  m <= anchor ∧ ∀ d, d ∈ l → m <= d.
Proof.
  revert anchor. induction l as [|x l IH]; intros anchor; simpl.
  - split; [lia | intros d Hd; inversion Hd].
  - destruct (IH (if anchor <? x then anchor else x)) as [H1 H2].
    destruct (Z.ltb_spec anchor x); (split; [lia|]);
      intros d Hd; apply elem_of_cons in Hd as [->|Hd]; auto; lia.
Qed.

Lemma fold_latest anchor (l : list Date) :
  let m := foldl (λ a b, if b <? a then a else b) anchor l in
  anchor <= m ∧ ∀ d, d ∈ l → d <= m.
Proof.
  revert anchor. induction l as [|x l IH]; intros anchor; simpl.
  - split; [lia | intros d Hd; inversion Hd].
  - destruct (IH (if x <? anchor then anchor else x)) as [H1 H2].
    destruct (Z.ltb_spec x anchor); (split; [lia|]);
      intros d Hd; apply elem_of_cons in Hd as [->|Hd]; auto; lia.
Qed.

(** What [extendToFullVacation] returns: a span of whole days around the
    anchor and the leave dates, with no off-day on either side. *)
Lemma extendToFullVacation_spec fuel lds hs anchor s e :
  extendToFullVacation fuel lds hs anchor = Some (s, e) →
  (dayNumber s <= dayNumber anchor <= dayNumber e) ∧
  (∀ d, d ∈ lds → dayNumber s <= dayNumber d <= dayNumber e) ∧
  isOffDay hs (list_to_set (map format_ymd lds)) (addDays s (-1)) = false ∧
  isOffDay hs (list_to_set (map format_ymd lds)) (addDays e 1) = false.
Proof.
  unfold extendToFullVacation. intros H.
  destruct (while fuel _ _ (normalize (foldl (λ a b, if a <? b then a else b) anchor lds)))
    as [s'|] eqn:Hs; simpl in H; [|done].
  destruct (while fuel _ _ (normalize (foldl (λ a b, if b <? a then a else b) anchor lds)))
    as [e'|] eqn:He; simpl in H; [|done].
  simplify_eq.
  destruct (fold_earliest anchor lds) as [Hm1 Hm2].
  destruct (fold_latest anchor lds) as [HM1 HM2].
  apply (while_inv _ _
    (λ x, dayNumber x <= dayNumber (foldl (λ a b, if a <? b then a else b) anchor lds)))
    in Hs as [Hs1 Hs2].
  - apply (while_inv _ _
      (λ x, dayNumber (foldl (λ a b, if b <? a then a else b) anchor lds) <= dayNumber x))
      in He as [He1 He2].
    + repeat split; try done.
      * etrans; [exact Hs1 | by apply dayNumber_mono].
      * etrans; [|exact He1]. by apply dayNumber_mono.
      * etrans; [exact Hs1 | apply dayNumber_mono; auto].
      * etrans; [|exact He1]. apply dayNumber_mono; auto.
    + unfold normalize. by rewrite dayNumber_startOfDay.
    + intros x Hx _. rewrite dayNumber_addDays. lia.
  - unfold normalize. by rewrite dayNumber_startOfDay.
  - intros x Hx _. rewrite dayNumber_addDays. lia.
Qed.

(** ** Date ranges *)

Lemma getDateRange_length fuel s e r :
  getDateRange fuel s e = Some r →
  dayNumber s <= dayNumber e + 1 →
  Z.of_nat (length r) = dayNumber e - dayNumber s + 1.
Proof.
  unfold getDateRange. intros H Hse.
  destruct (while fuel _ _ _) as [[res cur]|] eqn:Hw; simpl in H; [|done].
  simplify_eq.
  apply (while_inv _ _
    (λ st, st.2 = msPerDay * (dayNumber s + Z.of_nat (length st.1)) ∧
           dayNumber s + Z.of_nat (length st.1) <= dayNumber e + 1)) in Hw.
  - destruct Hw as [[Hc Hle] Hex]. simpl in *.
    unfold isBefore, addDays, normalize in Hex. rewrite startOfDay_day in Hex.
    apply Z.ltb_ge in Hex. pose proof msPerDay_pos. nia.
  - simpl. unfold normalize. rewrite startOfDay_day. split; [f_equal; lia | lia].
  - intros [res' cur'] [Hc Hle] Hb. simpl in *.
    unfold isBefore, addDays, normalize in Hb. rewrite startOfDay_day in Hb.
    apply Z.ltb_lt in Hb. rewrite length_app. simpl.
    unfold addDays. pose proof msPerDay_pos. split; nia.
Qed.

(** ** Opportunities *)

Lemma buildOpportunity_wf fuel lds hs anchor o :
  buildOpportunity fuel lds hs anchor = Some (Some o) →
  opp_leaveDates o = lds ∧ opp_wf hs o.
Proof.
  unfold buildOpportunity. intros H.
  destruct (_ || _ || _) eqn:Hchk; [done|].
  apply orb_false_iff in Hchk as [Hchk _].
  apply orb_false_iff in Hchk as [Hlen _].
  destruct (extendToFullVacation fuel lds hs anchor) as [[s e]|] eqn:Hext;
    simpl in H; [|done].
  destruct (getDateRange fuel s e) as [r|] eqn:Hr; simpl in H; [|done].
  simplify_eq. split; [done|].
  apply extendToFullVacation_spec in Hext as (Ha & Hspan & Hb & Haf).
  apply getDateRange_length in Hr; [|lia].
  constructor; simpl; try done; [|lia].
  intros ->. done.
Qed.

Lemma elem_of_push_opt {A} (l : list A) (o : option A) x :
  x ∈ push_opt l o ↔ x ∈ l ∨ o = Some x.
Proof.
  destruct o as [y|]; simpl.
  - rewrite elem_of_app, list_elem_of_singleton.
    split; (intros [?|?]; [by left | right; congruence]).
  - split; [by left | by intros [?|?]].
Qed.

Lemma walk_before_spec fuel h hs before d :
  while fuel (λ '(before, d), isWorkingDay d hs)
    (λ '(before, d), (normalize d :: before, addDays d (-1)))
    ([], addDays h (-1)) = Some (before, d) →
  ∀ x, x ∈ slice_last 3 before →
    startOfDay x = x ∧ isWorkingDay x hs = true ∧
    dayNumber h - 3 <= dayNumber x < dayNumber h.
Proof.
  intros Hw.
  apply (while_inv _ _ (λ st,
    (∀ (j : nat) x, st.1 !! j = Some x →
       startOfDay x = x ∧ isWorkingDay x hs = true ∧
       dayNumber x = dayNumber st.2 + 1 + Z.of_nat j) ∧
    dayNumber st.2 + 1 + Z.of_nat (length st.1) = dayNumber h)) in Hw.
  - destruct Hw as [[Hel Hlen] _]. simpl in Hel, Hlen.
    intros x Hx. unfold slice_last in Hx.
    apply list_elem_of_lookup in Hx as [j Hj].
    rewrite lookup_drop in Hj.
    pose proof (lookup_lt_Some _ _ _ Hj) as Hlt.
    destruct (Hel _ _ Hj) as (Hn & Hwk & Hd).
    repeat split; try done; lia.
  - simpl. split; [intros j x Hx; inversion Hx|].
    rewrite dayNumber_addDays. lia.
  - intros [b c] [Hel Hlen] Hc. simpl in *. split.
    + intros [|j] x Hx; simpl in Hx.
      * simplify_eq. unfold normalize.
        rewrite startOfDay_idem, dayNumber_startOfDay, dayNumber_addDays.
        rewrite (isWorkingDay_day (startOfDay c) c) by apply dayNumber_startOfDay.
        repeat split; try done; lia.
      * destruct (Hel _ _ Hx) as (Hn & Hwk & Hd).
        rewrite dayNumber_addDays. repeat split; try done; lia.
    + rewrite dayNumber_addDays. lia.
Qed.

Lemma walk_after_spec fuel h hs after d :
  while fuel (λ '(after, d), isWorkingDay d hs)
    (λ '(after, d), (after ++ [normalize d], addDays d 1))
    ([], addDays h 1) = Some (after, d) →
  ∀ x, x ∈ slice_first 3 after →
    startOfDay x = x ∧ isWorkingDay x hs = true ∧
    dayNumber h < dayNumber x <= dayNumber h + 3.
Proof.
  intros Hw.
  apply (while_inv _ _ (λ st,
    (∀ (j : nat) x, st.1 !! j = Some x →
       startOfDay x = x ∧ isWorkingDay x hs = true ∧
       dayNumber x = dayNumber h + 1 + Z.of_nat j) ∧
    dayNumber st.2 = dayNumber h + 1 + Z.of_nat (length st.1))) in Hw.
  - destruct Hw as [[Hel Hlen] _]. simpl in Hel, Hlen.
    intros x Hx. unfold slice_first in Hx.
    apply list_elem_of_lookup in Hx as [j Hj].
    apply lookup_take_Some in Hj as [Hj Hlt].
    destruct (Hel _ _ Hj) as (Hn & Hwk & Hd).
    repeat split; try done; lia.
  - simpl. split; [intros j x Hx; inversion Hx|].
    rewrite dayNumber_addDays. lia.
  - intros [a c] [Hel Hlen] Hc. simpl in *. split.
    + intros j x Hx.
      apply lookup_app_Some in Hx as [Hx|[Hge Hx]]; [by apply Hel|].
      apply list_lookup_singleton_Some in Hx as [Hj <-].
      unfold normalize.
      rewrite startOfDay_idem, dayNumber_startOfDay.
      rewrite (isWorkingDay_day (startOfDay c) c) by apply dayNumber_startOfDay.
      repeat split; try done; lia.
    + rewrite dayNumber_addDays, length_app. simpl. lia.
Qed.

Lemma findOpportunitiesAroundHoliday_spec fuel h hs os :
  findOpportunitiesAroundHoliday fuel h hs = Some os →
  ∀ o, o ∈ os →
    opp_wf hs o ∧ ∀ d, d ∈ opp_leaveDates o → leave_ok hs h d.
Proof.
  unfold findOpportunitiesAroundHoliday. intros H.
  destruct (isWeekend h); [simplify_eq; intros o Ho; inversion Ho|].
  destruct (while fuel _ _ ([], addDays h (-1))) as [[before d1]|] eqn:Hb;
    simpl in H; [|done].
  destruct (while fuel _ _ ([], addDays h 1)) as [[after d2]|] eqn:Ha;
    simpl in H; [|done].
  pose proof (walk_before_spec _ _ _ _ _ Hb) as Hbs.
  pose proof (walk_after_spec _ _ _ _ _ Ha) as Has.
  destruct (buildOpportunity fuel (slice_last 3 before) hs h) as [bo|] eqn:Hbo;
    simpl in H; [|done].
  destruct (buildOpportunity fuel (slice_first 3 after) hs h) as [ao|] eqn:Hao;
    simpl in H; [|done].
  destruct (buildOpportunity fuel (slice_last 3 before ++ slice_first 3 after) hs h)
    as [co|] eqn:Hco; simpl in H; [|done].
  simplify_eq. intros o Ho.
  rewrite !elem_of_push_opt in Ho.
  destruct Ho as [[[Ho| ->]| ->]| ->]; [inversion Ho|..].
  - apply buildOpportunity_wf in Hbo as [El Hwf]. split; [done|].
    rewrite El. intros d Hd. destruct (Hbs d Hd) as (?&?&?).
    repeat split; try done. by left.
  - apply buildOpportunity_wf in Hao as [El Hwf]. split; [done|].
    rewrite El. intros d Hd. destruct (Has d Hd) as (?&?&?).
    repeat split; try done. by right.
  - apply buildOpportunity_wf in Hco as [El Hwf]. split; [done|].
    rewrite El. intros d Hd. apply elem_of_app in Hd as [Hd|Hd].
    + destruct (Hbs d Hd) as (?&?&?). repeat split; try done. by left.
    + destruct (Has d Hd) as (?&?&?). repeat split; try done. by right.
Qed.

(** ** Sorting *)

Lemma elem_of_map {A B} (f : A → B) (l : list A) y :
  y ∈ map f l ↔ ∃ x, y = f x ∧ x ∈ l.
Proof.
  rewrite list_elem_of_In, in_map_iff.
  split; intros (x & H1 & H2); exists x; (split; [done | by apply list_elem_of_In]).
Qed.

Lemma lookup_map {A B} (f : A → B) (l : list A) (i : nat) :
  map f l !! i = f <$> l !! i.
Proof.
  revert i. induction l as [|x l IH]; intros [|i]; simpl; done.
Qed.

Lemma elem_of_concat {A} (ls : list (list A)) x :
  x ∈ concat ls ↔ ∃ l, x ∈ l ∧ l ∈ ls.
Proof.
  rewrite list_elem_of_In, in_concat.
  split; intros (l & H1 & H2); exists l; split; by apply list_elem_of_In.
Qed.

Lemma elem_of_insert_sorted {A} (cmp : A → A → comparison) x l y :
  y ∈ insert_sorted cmp x l ↔ y = x ∨ y ∈ l.
Proof.
  induction l as [|z l IH]; simpl.
  - rewrite list_elem_of_singleton. split; [by left | intros [?|H]; [done | inversion H]].
  - destruct (cmp x z); rewrite ?elem_of_cons, ?IH, ?elem_of_cons; tauto.
Qed.

Lemma elem_of_js_sort {A} (cmp : A → A → comparison) l y :
  y ∈ js_sort cmp l ↔ y ∈ l.
Proof.
  induction l as [|x l IH]; simpl; [done|].
  by rewrite elem_of_insert_sorted, elem_of_cons, IH.
Qed.

Lemma length_insert_sorted {A} (cmp : A → A → comparison) x l :
  length (insert_sorted cmp x l) = Datatypes.S (length l).
Proof.
  induction l as [|z l IH]; simpl; [done|].
  destruct (cmp x z); simpl; by rewrite ?IH.
Qed.

Lemma length_js_sort {A} (cmp : A → A → comparison) l :
  length (js_sort cmp l) = length l.
Proof.
  induction l as [|x l IH]; simpl; [done|].
  by rewrite length_insert_sorted, IH.
Qed.

Lemma elem_of_normalizedHolidays hs h :
  h ∈ normalizedHolidays hs ↔ ∃ h0, h = startOfDay h0 ∧ h0 ∈ hs.
Proof. unfold normalizedHolidays. by rewrite elem_of_js_sort, elem_of_map. Qed.

Lemma normalizedHolidays_same_days hs : same_days (normalizedHolidays hs) hs.
Proof.
  intros n. setoid_rewrite elem_of_normalizedHolidays. split.
  - intros (h & (h0 & -> & Hh0) & <-). exists h0.
    by rewrite dayNumber_startOfDay.
  - intros (h & Hh & <-). exists (startOfDay h).
    rewrite dayNumber_startOfDay. eauto.
Qed.

(** ** The selector *)

Lemma elem_of_add_keys (u : gset Z) (keys : list Z) k :
  k ∈ foldl (λ u k, {[k]} ∪ u) u keys ↔ k ∈ u ∨ k ∈ keys.
Proof.
  revert u. induction keys as [|x keys IH]; intros u; simpl.
  - split; [by left | intros [?|H]; [done | inversion H]].
  - rewrite IH, elem_of_cons, elem_of_union, elem_of_singleton. tauto.
Qed.

Lemma foldl_invariant {A B} (P : A → Prop) (f : A → B → A) (l : list B) a :
  P a → (∀ a x, P a → x ∈ l → P (f a x)) → P (foldl f a l).
Proof.
  revert a. induction l as [|x l IH]; intros a Ha Hf; simpl; [done|].
  apply IH.
  - apply Hf; [done | by left].
  - intros a' y Ha' Hy. apply Hf; [done | by right].
Qed.

Lemma sum_list_app l k : sum_list (l ++ k) = sum_list l + sum_list k.
Proof. induction l as [|x l IH]; simpl; [done|]. rewrite IH. lia. Qed.

Lemma selection_inv_init cands :
  selection_inv cands {| used := ∅; selected := []; usedLeaves := 0 |}.
Proof.
  constructor; simpl; try done.
  - intros k. split; [by intros ?%not_elem_of_empty|].
    intros (o & Ho & _). inversion Ho.
  - intros o Ho. inversion Ho.
Qed.

Lemma select_step_inv cands totalLeaves st opp :
  selection_inv cands st → opp ∈ cands →
  selection_inv cands (select_step totalLeaves st opp).
Proof.
  intros [Hb Hu Hd Hf] Hopp. unfold select_step.
  fold (keys_of opp).
  destruct (existsb _ _ || _) eqn:Hrej; [by constructor|].
  apply orb_false_iff in Hrej as [Hfree _].
  rewrite existsb_none in Hfree.
  assert (Hnew : ∀ o, o ∈ selected st → keys_disjoint o opp).
  { intros o Ho k Hk1 Hk2. specialize (Hfree k Hk2).
    apply bool_decide_eq_false in Hfree. apply Hfree, Hu. eauto. }
  constructor; simpl.
  - rewrite map_app, sum_list_app, <- Hb. unfold keys_of.
    rewrite length_map. simpl. lia.
  - intros k. rewrite elem_of_add_keys, Hu. split.
    + intros [(o & Ho & Hk)|Hk]; [exists o | exists opp];
        (split; [|done]); apply elem_of_app; [by left | right; by left].
    + intros (o & Ho & Hk). apply elem_of_app in Ho as [Ho|Ho]; [left; eauto|].
      apply list_elem_of_singleton in Ho as ->. by right.
  - intros i j a b Hi Hj Hij.
    apply lookup_app_Some in Hi as [Hi|[Hil Hi]];
      apply lookup_app_Some in Hj as [Hj|[Hjl Hj]].
    + by eapply Hd.
    + apply list_lookup_singleton_Some in Hj as [_ <-].
      apply Hnew. by eapply list_elem_of_lookup_2.
    + apply list_lookup_singleton_Some in Hi as [_ <-].
      intros k Hk1 Hk2. eapply Hnew; [|exact Hk2|exact Hk1].
      by eapply list_elem_of_lookup_2.
    + apply list_lookup_singleton_Some in Hi as [Hi _].
      apply list_lookup_singleton_Some in Hj as [Hj _]. lia.
  - intros o Ho. apply elem_of_app in Ho as [Ho|Ho]; [by apply Hf|].
    by apply list_elem_of_singleton in Ho as ->.
Qed.

Lemma select_all_inv cands totalLeaves :
  selection_inv cands
    (foldl (select_step totalLeaves)
       {| used := ∅; selected := []; usedLeaves := 0 |} cands).
Proof.
  apply foldl_invariant; [apply selection_inv_init|].
  intros st o Hst Ho. by apply select_step_inv.
Qed.

(** ** The optimizer, unfolded *)

Lemma optimizeLeaves_unfold fuel hs n s p :
  optimizeLeaves fuel hs n s p =
    if (length hs =? 0)%nat || (n <=? 0) then Some (emptyResult n)
    else
      cands ← candidates fuel hs p;
      Some (result_of n
        (foldl (select_step n) {| used := ∅; selected := []; usedLeaves := 0 |} cands)).
Proof.
  unfold optimizeLeaves, candidates, normalizedHolidays.
  destruct (_ || _); [done|].
  by destruct (mapM _ _).
Qed.

Lemma candidates_spec fuel hs p cands :
  candidates fuel hs p = Some cands →
  ∀ o, o ∈ cands →
    ∃ h, h ∈ normalizedHolidays hs ∧ opp_wf (normalizedHolidays hs) o ∧
         ∀ d, d ∈ opp_leaveDates o → leave_ok (normalizedHolidays hs) h d.
Proof.
  unfold candidates. intros H.
  destruct (mapM _ _) as [found|] eqn:Hm; simpl in H; [|done].
  simplify_eq. intros o Ho.
  apply elem_of_js_sort, elem_of_concat in Ho as (os & Ho & Hos).
  apply mapM_Some_1 in Hm.
  apply list_elem_of_lookup in Hos as [i Hi].
  destruct (Forall2_lookup_r _ _ _ _ _ Hm Hi) as (h & Hh & Hf).
  exists h. split; [by eapply list_elem_of_lookup_2|].
  by eapply findOpportunitiesAroundHoliday_spec.
Qed.

(** Every run ends in one of two ways: the short cut, or a greedy scan of the
    candidates. *)
Lemma optimizeLeaves_cases fuel hs n s p r :
  optimizeLeaves fuel hs n s p = Some r →
  r = emptyResult n ∨
  ∃ cands st,
    candidates fuel hs p = Some cands ∧
    selection_inv cands st ∧
    r = result_of n st.
Proof.
  rewrite optimizeLeaves_unfold. intros H.
  destruct (_ || _); [left; congruence|].
  destruct (candidates fuel hs p) as [cands|] eqn:Hc; [|done].
  injection H as <-. right.
  exists cands,
    (foldl (select_step n) {| used := ∅; selected := []; usedLeaves := 0 |} cands).
  split; [done|]. split; [apply select_all_inv | done].
Qed.

Lemma recommendation_opportunity fuel hs n s p r rec :
  optimizeLeaves fuel hs n s p = Some r →
  rec ∈ recommendations r →
  ∃ o h, rec = toRecommendation o ∧
    h ∈ normalizedHolidays hs ∧
    opp_wf (normalizedHolidays hs) o ∧
    ∀ d, d ∈ opp_leaveDates o → leave_ok (normalizedHolidays hs) h d.
Proof.
  intros H Hrec.
  apply optimizeLeaves_cases in H as [->|(cands & st & Hc & Hinv & ->)].
  { inversion Hrec. }
  simpl in Hrec. apply elem_of_map in Hrec as (o & -> & Ho).
  apply (inv_from _ _ Hinv) in Ho.
  destruct (candidates_spec _ _ _ _ Hc o Ho) as (h & Hh & Hwf & Hl).
  by exists o, h.
Qed.

(** ** The loops stop *)

Lemma while_returns {S} (cond : S → bool) (body : S → S) k s :
  cond (Nat.iter k body s) = false →
  ∃ r, returns (λ fuel, while fuel cond body s) (Datatypes.S k) r.
Proof.
  intros Hk. destruct (while_stops cond body k s Hk) as [r Hr].
  exists r. intros fuel Hf.
  replace fuel with (Datatypes.S k + (fuel - Datatypes.S k))%nat by lia. apply Hr.
Qed.

Lemma iter_addDays k d c :
  Nat.iter k (λ d, addDays d c) d = addDays d (Z.of_nat k * c).
Proof.
  induction k as [|k IH]; simpl.
  - unfold addDays. lia.
  - rewrite IH. unfold addDays. lia.
Qed.

Lemma iter_snd {A} (g : A → Date → A) (step : Date → Date) k a d :
  (Nat.iter k (λ '(acc, d), (g acc d, step d)) (a, d)).2 = Nat.iter k step d.
Proof.
  induction k as [|k IH]; simpl; [done|].
  destruct (Nat.iter k _ (a, d)) as [acc d']. simpl in *. by rewrite IH.
Qed.

Lemma getDay_range d : 0 <= getDay d < 7.
Proof. unfold getDay. apply Z.mod_pos_bound. lia. Qed.

(** Going back from any day, a Sunday comes within the week. *)
Lemma sunday_before d :
  isWeekend (addDays d (- getDay d)) = true.
Proof.
  unfold isWeekend. apply orb_true_iff. left. apply Z.eqb_eq.
  unfold getDay at 1. rewrite dayNumber_addDays. unfold getDay.
  pose proof (Z.div_mod (dayNumber d + 4) 7 ltac:(lia)) as E.
  replace (dayNumber d + - ((dayNumber d + 4) mod 7) + 4)
    with (((dayNumber d + 4) / 7) * 7) by lia.
  apply Z.mod_mul. lia.
Qed.

(** Going on from any day, a Saturday comes within the week. *)
Lemma saturday_after d :
  isWeekend (addDays d (6 - getDay d)) = true.
Proof.
  unfold isWeekend. apply orb_true_iff. right. apply Z.eqb_eq.
  unfold getDay at 1. rewrite dayNumber_addDays. unfold getDay.
  pose proof (Z.div_mod (dayNumber d + 4) 7 ltac:(lia)) as E.
  replace (dayNumber d + (6 - (dayNumber d + 4) mod 7) + 4)
    with (6 + ((dayNumber d + 4) / 7) * 7) by lia.
  rewrite Z.mod_add by lia. reflexivity.
Qed.

Lemma walk_before_returns d hs :
  ∃ N r, returns (λ fuel, while fuel (λ '(before, d), isWorkingDay d hs)
    (λ '(before, d), (normalize d :: before, addDays d (-1))) ([], d)) N r.
Proof.
  pose proof (getDay_range d) as Hr.
  eexists. apply (while_returns _ _ (Z.to_nat (getDay d))).
  pose proof (iter_snd (λ before d, normalize d :: before) (λ d, addDays d (-1))
                (Z.to_nat (getDay d)) [] d) as E.
  destruct (Nat.iter _ _ _) as [b d']. simpl in E. subst d'.
  rewrite iter_addDays. unfold isWorkingDay.
  replace (Z.of_nat (Z.to_nat (getDay d)) * -1) with (- getDay d) by lia.
  by rewrite sunday_before.
Qed.

Lemma walk_after_returns d hs :
  ∃ N r, returns (λ fuel, while fuel (λ '(after, d), isWorkingDay d hs)
    (λ '(after, d), (after ++ [normalize d], addDays d 1)) ([], d)) N r.
Proof.
  pose proof (getDay_range d) as Hr.
  eexists. apply (while_returns _ _ (Z.to_nat (6 - getDay d))).
  pose proof (iter_snd (λ after d, after ++ [normalize d]) (λ d, addDays d 1)
                (Z.to_nat (6 - getDay d)) [] d) as E.
  destruct (Nat.iter _ _ _) as [b d']. simpl in E. subst d'.
  rewrite iter_addDays. unfold isWorkingDay.
  replace (Z.of_nat (Z.to_nat (6 - getDay d)) * 1) with (6 - getDay d) by lia.
  by rewrite saturday_after.
Qed.

Lemma days_bounded (l : list Date) :
  ∃ lo hi, ∀ x, x ∈ l → lo <= dayNumber x <= hi.
Proof.
  induction l as [|y l (lo & hi & IH)].
  - exists 0, 0. intros x Hx. inversion Hx.
  - exists (Z.min lo (dayNumber y)), (Z.max hi (dayNumber y)).
    intros x [->|Hx]%elem_of_cons; [lia|].
    specialize (IH x Hx). lia.
Qed.

(** Of three days in a row, one is neither a Saturday nor a Sunday. *)
Lemma weekday_below n :
  ∃ t, n - 2 <= t <= n ∧ (t + 4) mod 7 ≠ 0 ∧ (t + 4) mod 7 ≠ 6.
Proof.
  destruct (Z.eq_dec ((n + 4) mod 7) 0) as [E0|N0];
    [exists (n - 2) | destruct (Z.eq_dec ((n + 4) mod 7) 6) as [E6|N6];
                        [exists (n - 1) | exists n]];
    (split; [lia|]); Z.div_mod_to_equations; lia.
Qed.

Lemma weekday_above n :
  ∃ t, n <= t <= n + 2 ∧ (t + 4) mod 7 ≠ 0 ∧ (t + 4) mod 7 ≠ 6.
Proof.
  destruct (Z.eq_dec ((n + 4) mod 7) 6) as [E6|N6];
    [exists (n + 2) | destruct (Z.eq_dec ((n + 4) mod 7) 0) as [E0|N0];
                        [exists (n + 1) | exists n]];
    (split; [lia|]); Z.div_mod_to_equations; lia.
Qed.

Lemma isOffDay_false hs lds d :
  (dayNumber d + 4) mod 7 ≠ 0 → (dayNumber d + 4) mod 7 ≠ 6 →
  (∀ x, x ∈ hs ++ lds → dayNumber x ≠ dayNumber d) →
  isOffDay hs (list_to_set (map format_ymd lds)) d = false.
Proof.
  intros H0 H6 Hx. unfold isOffDay, isWeekend, getDay.
  rewrite (proj2 (Z.eqb_neq _ _) H0), (proj2 (Z.eqb_neq _ _) H6). simpl.
  apply orb_false_iff. split.
  - apply not_true_iff_false. intros (h & Hh & E)%isHoliday_spec.
    apply (Hx h); [apply elem_of_app; by left | done].
  - apply bool_decide_eq_false.
    intros (l & E & Hl)%elem_of_list_to_set%elem_of_map.
    apply (Hx l); [apply elem_of_app; by right | done].
Qed.

Lemma expand_start_returns hs lds start :
  ∃ N r, returns (λ fuel,
    while fuel (λ start, isOffDay hs (list_to_set (map format_ymd lds)) (addDays start (-1)))
      (λ start, addDays start (-1)) start) N r.
Proof.
  destruct (days_bounded (hs ++ lds)) as (lo & hi & Hb).
  destruct (weekday_below (Z.min (lo - 1) (dayNumber start - 1))) as (t & Ht & H0 & H6).
  eexists. apply (while_returns _ _ (Z.to_nat (dayNumber start - 1 - t))).
  rewrite iter_addDays.
  assert (E : dayNumber (addDays (addDays start
                (Z.of_nat (Z.to_nat (dayNumber start - 1 - t)) * -1)) (-1)) = t).
  { rewrite !dayNumber_addDays. lia. }
  apply isOffDay_false; rewrite E; try done.
  intros x Hx. specialize (Hb x Hx). lia.
Qed.

Lemma expand_end_returns hs lds end_ :
  ∃ N r, returns (λ fuel,
    while fuel (λ end_, isOffDay hs (list_to_set (map format_ymd lds)) (addDays end_ 1))
      (λ end_, addDays end_ 1) end_) N r.
Proof.
  destruct (days_bounded (hs ++ lds)) as (lo & hi & Hb).
  destruct (weekday_above (Z.max (hi + 1) (dayNumber end_ + 1))) as (t & Ht & H0 & H6).
  eexists. apply (while_returns _ _ (Z.to_nat (t - dayNumber end_ - 1))).
  rewrite iter_addDays.
  assert (E : dayNumber (addDays (addDays end_
                (Z.of_nat (Z.to_nat (t - dayNumber end_ - 1)) * 1)) 1) = t).
  { rewrite !dayNumber_addDays. lia. }
  apply isOffDay_false; rewrite E; try done.
  intros x Hx. specialize (Hb x Hx). lia.
Qed.

Lemma extendToFullVacation_returns lds hs anchor :
  ∃ N r, returns (λ fuel, extendToFullVacation fuel lds hs anchor) N r.
Proof.
  destruct (expand_start_returns hs lds
    (normalize (foldl (λ a b, if a <? b then a else b) anchor lds))) as (N1 & s & Hs).
  destruct (expand_end_returns hs lds
    (normalize (foldl (λ a b, if b <? a then a else b) anchor lds))) as (N2 & e & He).
  exists (N1 + N2)%nat, (s, e). intros fuel Hf. unfold extendToFullVacation.
  rewrite (Hs fuel) by lia. simpl. rewrite (He fuel) by lia. done.
Qed.

Lemma getDateRange_returns s e :
  ∃ N r, returns (λ fuel, getDateRange fuel s e) N r.
Proof.
  set (k := Z.to_nat (Z.max 0 (normalize e + msPerDay - normalize s))).
  destruct (while_returns
    (λ '(res, cur), isBefore cur (addDays (normalize e) 1))
    (λ '(res, cur), (res ++ [cur], addDays cur 1)) k ([], normalize s))
    as [[res cur] Hr].
  - pose proof (iter_snd (λ (res : list Date) cur, res ++ [cur]) (λ d, addDays d 1)
                  k [] (normalize s)) as E.
    destruct (Nat.iter _ _ _) as [b d']. simpl in E. subst d'.
    rewrite iter_addDays. unfold isBefore, addDays. apply Z.ltb_ge.
    pose proof msPerDay_pos. subst k. nia.
  - exists (Datatypes.S k), res. intros fuel Hf. unfold getDateRange.
    by rewrite (Hr fuel Hf).
Qed.

Lemma buildOpportunity_returns lds hs anchor :
  ∃ N r, returns (λ fuel, buildOpportunity fuel lds hs anchor) N r.
Proof.
  unfold buildOpportunity.
  destruct (_ || _ || _); [by exists 0%nat, None|].
  destruct (extendToFullVacation_returns lds hs anchor) as (N1 & [s e] & H1).
  destruct (getDateRange_returns s e) as (N2 & r & H2).
  eexists (N1 + N2)%nat, _. intros fuel Hf.
  rewrite (H1 fuel) by lia. simpl. rewrite (H2 fuel) by lia. done.
Qed.

Lemma findOpportunitiesAroundHoliday_returns h hs :
  ∃ N r, returns (λ fuel, findOpportunitiesAroundHoliday fuel h hs) N r.
Proof.
  unfold findOpportunitiesAroundHoliday.
  destruct (isWeekend h); [by exists 0%nat, []|].
  destruct (walk_before_returns (addDays h (-1)) hs) as (N1 & [before d1] & H1).
  destruct (walk_after_returns (addDays h 1) hs) as (N2 & [after d2] & H2).
  destruct (buildOpportunity_returns (slice_last 3 before) hs h) as (N3 & bo & H3).
  destruct (buildOpportunity_returns (slice_first 3 after) hs h) as (N4 & ao & H4).
  destruct (buildOpportunity_returns (slice_last 3 before ++ slice_first 3 after) hs h)
    as (N5 & co & H5).
  eexists (N1 + N2 + N3 + N4 + N5)%nat, _. intros fuel Hf.
  rewrite (H1 fuel) by lia. simpl. rewrite (H2 fuel) by lia. simpl.
  rewrite (H3 fuel) by lia. simpl. rewrite (H4 fuel) by lia. simpl.
  rewrite (H5 fuel) by lia. done.
Qed.

Lemma mapM_returns {A B} (f : nat → A → option B) (l : list A) :
  (∀ x, ∃ N r, returns (λ fuel, f fuel x) N r) →
  ∃ N r, returns (λ fuel, mapM (f fuel) l) N r.
Proof.
  intros Hf. induction l as [|x l (N2 & rs & IH)].
  - by exists 0%nat, [].
  - destruct (Hf x) as (N1 & r & H1).
    exists (N1 + N2)%nat, (r :: rs). intros fuel Hfuel. simpl.
    rewrite (H1 fuel) by lia. simpl. rewrite (IH fuel) by lia. done.
Qed.

(** ** Duplicates *)

Section Firsts.
Context {A : Type} `{EqDecision A}.

Lemma elem_of_firsts (l : list A) x : x ∈ firsts l ↔ x ∈ l.
Proof.
  induction l as [|y l IH]; simpl; [done|].
  rewrite !elem_of_cons, list_elem_of_filter, IH.
  destruct (decide (x = y)); tauto.
Qed.

Lemma filter_all (P : A → Prop) `{∀ x, Decision (P x)} (l : list A) :
  (∀ x, x ∈ l → P x) → filter P l = l.
Proof.
  induction l as [|y l IH]; intros Hl; [done|].
  rewrite filter_cons_True by (apply Hl; by left).
  f_equal. apply IH. intros x Hx. apply Hl. by right.
Qed.

Lemma filter_none (P : A → Prop) `{∀ x, Decision (P x)} (l : list A) :
  (∀ x, x ∈ l → ¬ P x) → filter P l = [].
Proof.
  induction l as [|y l IH]; intros Hl; [done|].
  rewrite filter_cons_False by (apply Hl; by left).
  apply IH. intros x Hx. apply Hl. by right.
Qed.

Lemma filter_comm (P Q : A → Prop) `{∀ x, Decision (P x)} `{∀ x, Decision (Q x)}
    (l : list A) :
  filter P (filter Q l) = filter Q (filter P l).
Proof.
  rewrite !list_filter_filter. apply list_filter_iff. tauto.
Qed.

Lemma filter_firsts (P : A → Prop) `{∀ x, Decision (P x)} (l : list A) :
  filter P (firsts l) = firsts (filter P l).
Proof.
  induction l as [|y l IH]; simpl; [done|].
  destruct (decide (P y)) as [Hy|Hy].
  - rewrite !filter_cons_True by done. simpl.
    by rewrite filter_comm, IH.
  - rewrite !filter_cons_False by done.
    rewrite filter_comm, IH.
    apply filter_all. intros x Hx Exy. subst x.
    apply elem_of_firsts, list_elem_of_filter in Hx. tauto.
Qed.

Lemma firsts_app (l k : list A) :
  firsts (l ++ k) = firsts l ++ filter (λ y, y ∉ l) (firsts k).
Proof.
  induction l as [|x l IH]; simpl.
  - symmetry. apply filter_all. intros y _ Hy. inversion Hy.
  - rewrite IH, filter_app, list_filter_filter. do 2 f_equal.
    apply list_filter_iff. intros y. rewrite not_elem_of_cons. tauto.
Qed.

(** Dropping the later copies of the arguments of a [flatMap] does not
    change which results come first. *)
Lemma filter_concat_map_remove {B} (P : A → Prop) `{∀ x, Decision (P x)}
    `{EqDecision B} (g : B → list A) (b : B) (m : list B) :
  (∀ y, y ∈ g b → ¬ P y) →
  filter P (concat (map g m)) = filter P (concat (map g (filter (λ c, c ≠ b) m))).
Proof.
  intros Hb. induction m as [|c m IH]; simpl; [done|].
  rewrite filter_app, IH.
  destruct (decide (c = b)) as [->|Hc].
  - rewrite filter_cons_False by (intros E; by apply E).
    by rewrite (filter_none P (g b)).
  - rewrite filter_cons_True by done. simpl. by rewrite filter_app.
Qed.
End Firsts.

Lemma firsts_concat_map {A B} `{EqDecision A} `{EqDecision B}
    (g : B → list A) (l : list B) :
  firsts (concat (map g l)) = firsts (concat (map g (firsts l))).
Proof.
  induction l as [|b l IH]; simpl; [done|].
  rewrite !firsts_app. f_equal.
  rewrite IH, !(filter_firsts (λ y, y ∉ g b)). f_equal.
  apply filter_concat_map_remove.
  intros y Hy Hn. by apply Hn.
Qed.

Lemma map_filter_comm {A B} (f : A → B) (Q : B → Prop) `{∀ y, Decision (Q y)}
    (l : list A) :
  map f (filter (λ x, Q (f x)) l) = filter Q (map f l).
Proof.
  induction l as [|x l IH]; simpl; [done|].
  destruct (decide (Q (f x))) as [Hx|Hx].
  - rewrite !filter_cons_True by done. simpl. by rewrite IH.
  - by rewrite !filter_cons_False by done.
Qed.

(** ** Stable sorting and duplicates *)

Section StableSort.
Context {A : Type} `{EqDecision A} (cmp : A → A → comparison).

Hypothesis before_refl : ∀ x, stays_before cmp x x.
Hypothesis before_trans :
  ∀ x y z, stays_before cmp x y → stays_before cmp y z → stays_before cmp x z.
Hypothesis before_total : ∀ x y, stays_before cmp x y ∨ stays_before cmp y x.

Lemma insert_sorted_head x l :
  Forall (stays_before cmp x) l → insert_sorted cmp x l = x :: l.
Proof.
  destruct l as [|y l]; [done|]. intros Hl. simpl.
  apply Forall_cons in Hl as [Hy _]. unfold stays_before in Hy.
  by destruct (cmp x y).
Qed.

Lemma insert_sorted_sorted x l :
  StronglySorted (stays_before cmp) l →
  StronglySorted (stays_before cmp) (insert_sorted cmp x l).
Proof.
  induction l as [|y l IH]; intros Hl; simpl.
  - repeat constructor.
  - apply StronglySorted_cons in Hl as [Hy Hl].
    assert (Hle : stays_before cmp x y → StronglySorted (stays_before cmp) (x :: y :: l)).
    { intros Hxy. apply StronglySorted_cons. split.
      - constructor; [done|]. eapply Forall_impl; [exact Hy|].
        intros z Hz. by eapply before_trans.
      - by apply StronglySorted_cons. }
    destruct (cmp x y) eqn:E; try (apply Hle; unfold stays_before; congruence).
    apply StronglySorted_cons. split; [|by apply IH].
    apply Forall_forall. intros z Hz.
    apply elem_of_insert_sorted in Hz as [->|Hz].
    + destruct (before_total x y) as [Hxy|Hyx]; [|done].
      unfold stays_before in Hxy. congruence.
    + rewrite Forall_forall in Hy. by apply Hy.
Qed.

Lemma js_sort_sorted l : StronglySorted (stays_before cmp) (js_sort cmp l).
Proof.
  induction l as [|x l IH]; simpl; [constructor|].
  by apply insert_sorted_sorted.
Qed.

Lemma filter_sorted (P : A → Prop) `{∀ x, Decision (P x)} (l : list A) :
  StronglySorted (stays_before cmp) l → StronglySorted (stays_before cmp) (filter P l).
Proof.
  induction l as [|y l IH]; intros Hl; [constructor|].
  apply StronglySorted_cons in Hl as [Hy Hl].
  destruct (decide (P y)).
  - rewrite filter_cons_True by done. apply StronglySorted_cons. split; [|by apply IH].
    apply Forall_forall. intros z Hz%list_elem_of_filter.
    rewrite Forall_forall in Hy. apply Hy. tauto.
  - rewrite filter_cons_False by done. by apply IH.
Qed.

Lemma firsts_sorted (l : list A) :
  StronglySorted (stays_before cmp) l → StronglySorted (stays_before cmp) (firsts l).
Proof.
  induction l as [|y l IH]; intros Hl; simpl; [constructor|].
  apply StronglySorted_cons in Hl as [Hy Hl].
  apply StronglySorted_cons. split; [|by apply filter_sorted, IH].
  apply Forall_forall. intros z Hz%list_elem_of_filter.
  rewrite Forall_forall in Hy. apply Hy, elem_of_firsts. tauto.
Qed.

Lemma filter_insert_sorted (P : A → Prop) `{∀ x, Decision (P x)} x (l : list A) :
  StronglySorted (stays_before cmp) l → P x →
  filter P (insert_sorted cmp x l) = insert_sorted cmp x (filter P l).
Proof.
  intros Hl Hx. induction l as [|y l IH]; simpl.
  - by rewrite filter_cons_True.
  - apply StronglySorted_cons in Hl as [Hy Hl].
    destruct (cmp x y) eqn:E.
    1,2: rewrite filter_cons_True by done;
         rewrite insert_sorted_head; [done|];
         apply Forall_forall; intros z Hz%list_elem_of_filter;
         destruct Hz as [_ [->|Hz]%elem_of_cons];
         [unfold stays_before; congruence|];
         apply (before_trans x y z); [unfold stays_before; congruence|];
         rewrite Forall_forall in Hy; by apply Hy.
    destruct (decide (P y)).
    + rewrite !filter_cons_True by done. simpl. rewrite E. f_equal. by apply IH.
    + rewrite !filter_cons_False by done. by apply IH.
Qed.

Lemma filter_insert_sorted_out (P : A → Prop) `{∀ x, Decision (P x)} x (l : list A) :
  ¬ P x → filter P (insert_sorted cmp x l) = filter P l.
Proof.
  intros Hx. induction l as [|y l IH]; simpl.
  - by rewrite filter_cons_False.
  - destruct (cmp x y) eqn:E.
    1,2: by rewrite filter_cons_False.
    destruct (decide (P y)).
    + rewrite !filter_cons_True by done. by rewrite IH.
    + by rewrite !filter_cons_False by done.
Qed.

Lemma filter_js_sort (P : A → Prop) `{∀ x, Decision (P x)} (l : list A) :
  filter P (js_sort cmp l) = js_sort cmp (filter P l).
Proof.
  induction l as [|x l IH]; simpl; [done|].
  destruct (decide (P x)).
  - rewrite filter_cons_True by done. simpl.
    rewrite filter_insert_sorted by (done || apply js_sort_sorted).
    by rewrite IH.
  - rewrite filter_cons_False by done.
    by rewrite filter_insert_sorted_out.
Qed.

Lemma firsts_insert_sorted x (l : list A) :
  StronglySorted (stays_before cmp) l →
  firsts (insert_sorted cmp x l) =
    insert_sorted cmp x (filter (λ y, y ≠ x) (firsts l)).
Proof.
  induction l as [|y l IH]; intros Hl; [done|].
  pose proof Hl as Hyl.
  apply StronglySorted_cons in Hl as [Hy Hl]. simpl.
  assert (Hle : stays_before cmp x y →
    x :: filter (λ z, z ≠ x) (y :: filter (λ z, z ≠ y) (firsts l)) =
    insert_sorted cmp x (filter (λ z, z ≠ x) (y :: filter (λ z, z ≠ y) (firsts l)))).
  { intros Hxy. symmetry. apply insert_sorted_head.
    apply Forall_forall. intros z [_ Hz]%list_elem_of_filter.
    apply (proj1 (elem_of_firsts (y :: l) z)) in Hz.
    apply elem_of_cons in Hz as [->|Hz]; [done|].
    apply (before_trans x y z); [done|].
    rewrite Forall_forall in Hy. by apply Hy. }
  destruct (cmp x y) eqn:E; try (simpl; apply Hle; unfold stays_before; congruence).
  assert (x ≠ y) as Hne.
  { intros ->. by apply (before_refl y). }
  simpl. rewrite IH by done.
  rewrite filter_insert_sorted; [|by apply filter_sorted, firsts_sorted|done].
  rewrite filter_cons_True by done. simpl. rewrite E.
  f_equal. f_equal. apply filter_comm.
Qed.

(** Sorting and dropping the later copies commute. *)
Lemma firsts_js_sort (l : list A) :
  firsts (js_sort cmp l) = js_sort cmp (firsts l).
Proof.
  induction l as [|x l IH]; simpl; [done|].
  rewrite firsts_insert_sorted by apply js_sort_sorted.
  by rewrite IH, filter_js_sort.
Qed.
End StableSort.

(** ** The comparators are orders *)

Lemma by_time_before a b : stays_before by_time a b ↔ a <= b.
Proof.
  unfold stays_before, by_time, getTime.
  destruct (Z.compare_spec (a - b) 0); split; intros; try done; lia.
Qed.

Lemma by_objective_before p a b :
  stays_before (by_objective p) a b ↔
    if p then opp_totalDays b <= opp_totalDays a
    else (opp_efficiency b <= opp_efficiency a)%Q.
Proof.
  unfold stays_before, by_objective. destruct p.
  - destruct (Z.compare_spec (opp_totalDays b - opp_totalDays a) 0);
      split; intros; try done; lia.
  - rewrite <- Qle_alt. split; intros; lra.
Qed.

Lemma by_objective_refl p a : stays_before (by_objective p) a a.
Proof. apply by_objective_before. destruct p; [lia | lra]. Qed.

Lemma by_objective_trans p a b c :
  stays_before (by_objective p) a b → stays_before (by_objective p) b c →
  stays_before (by_objective p) a c.
Proof. rewrite !by_objective_before. destruct p; [lia | lra]. Qed.

Lemma by_objective_total p a b :
  stays_before (by_objective p) a b ∨ stays_before (by_objective p) b a.
Proof. rewrite !by_objective_before. destruct p; [lia | lra]. Qed.

Lemma by_time_refl a : stays_before by_time a a.
Proof. apply by_time_before. lia. Qed.

Lemma by_time_trans a b c :
  stays_before by_time a b → stays_before by_time b c → stays_before by_time a c.
Proof. rewrite !by_time_before. lia. Qed.

Lemma by_time_total a b : stays_before by_time a b ∨ stays_before by_time b a.
Proof. rewrite !by_time_before. lia. Qed.

(** ** The greedy scan skips duplicates *)

Lemma select_step_rejected n st o :
  rejected n st o = true → select_step n st o = st.
Proof. unfold rejected, select_step, keys_of. by intros ->. Qed.

Lemma rejected_mono n st x o :
  rejected n st o = true → rejected n (select_step n st x) o = true.
Proof.
  intros Ho. unfold select_step. fold (keys_of x).
  destruct (_ || _); [done|].
  unfold rejected in *. simpl.
  apply orb_true_iff in Ho as [Ho|Ho]; apply orb_true_iff.
  - left. apply existsb_elem_of in Ho as (k & Hk & Hu).
    apply existsb_elem_of. exists k. split; [done|].
    apply bool_decide_eq_true. apply bool_decide_eq_true in Hu.
    apply elem_of_add_keys. by left.
  - right. apply Z.ltb_lt. apply Z.ltb_lt in Ho. lia.
Qed.

Lemma rejected_after n st o :
  opp_leaveDates o ≠ [] → rejected n (select_step n st o) o = true.
Proof.
  intros Hne. destruct (rejected n st o) eqn:Hr.
  - by rewrite select_step_rejected.
  - unfold select_step. fold (keys_of o). unfold rejected in Hr. rewrite Hr.
    unfold rejected. simpl. apply orb_true_iff. left.
    destruct (opp_leaveDates o) as [|d ds] eqn:El; [done|].
    apply existsb_elem_of. exists (format_ymd d).
    assert (Hk : format_ymd d ∈ keys_of o).
    { unfold keys_of. rewrite El. by left. }
    split; [done|]. apply bool_decide_eq_true, elem_of_add_keys. by right.
Qed.

Lemma select_firsts_filter n (P : Opportunity → Prop) `{∀ o, Decision (P o)}
    (l : list Opportunity) st :
  (∀ o, o ∈ l → opp_leaveDates o ≠ []) →
  (∀ o, ¬ P o → rejected n st o = true) →
  foldl (select_step n) st (filter P (firsts l)) = foldl (select_step n) st l.
Proof.
  revert P H st. induction l as [|x l IH]; intros P HP st Hne Hrej; [done|].
  simpl. destruct (decide (P x)) as [Hx|Hx].
  - rewrite filter_cons_True by done. simpl.
    rewrite list_filter_filter. apply IH.
    + intros o Ho. apply Hne. by right.
    + intros o Ho. destruct (decide (o = x)) as [->|Hox].
      * apply rejected_after, Hne. by left.
      * apply rejected_mono, Hrej. tauto.
  - rewrite filter_cons_False by done.
    rewrite (select_step_rejected n st x) by (by apply Hrej).
    rewrite list_filter_filter. apply IH.
    + intros o Ho. apply Hne. by right.
    + intros o Ho. destruct (decide (o = x)) as [->|Hox].
      * by apply Hrej.
      * apply Hrej. tauto.
Qed.

Lemma select_firsts n (l : list Opportunity) st :
  (∀ o, o ∈ l → opp_leaveDates o ≠ []) →
  foldl (select_step n) st (firsts l) = foldl (select_step n) st l.
Proof.
  intros Hne.
  rewrite <- (select_firsts_filter n (λ _, True) l st Hne) by tauto.
  f_equal. symmetry. by apply filter_all.
Qed.

(** ** Only the set of holidays matters *)

Lemma while_ext {S} (cond cond' : S → bool) (body : S → S) fuel s :
  (∀ s, cond s = cond' s) → while fuel cond body s = while fuel cond' body s.
Proof.
  intros E. revert s. induction fuel as [|fuel IH]; intros s; simpl; [done|].
  rewrite <- E. destruct (cond s); [apply IH | done].
Qed.

Lemma existsb_same_elems {A} (f : A → bool) (l l' : list A) :
  (∀ x, x ∈ l ↔ x ∈ l') → existsb f l = existsb f l'.
Proof.
  intros same. apply eq_true_iff_eq. rewrite !existsb_elem_of.
  split; intros (x & Hx & Hf); exists x; (split; [by apply same | done]).
Qed.

Lemma existsb_pointwise {A} (f g : A → bool) (l : list A) :
  (∀ x, f x = g x) → existsb f l = existsb g l.
Proof.
  intros E. induction l as [|x l IH]; simpl; [done|]. by rewrite E, IH.
Qed.

Section SameHolidays.
Variables hs hs' : list Date.
Hypothesis same : ∀ h, h ∈ hs ↔ h ∈ hs'.

Lemma isHoliday_same d : isHoliday d hs = isHoliday d hs'.
Proof. by apply existsb_same_elems. Qed.

Lemma isWorkingDay_same d : isWorkingDay d hs = isWorkingDay d hs'.
Proof. unfold isWorkingDay. by rewrite isHoliday_same. Qed.

Lemma isOffDay_same ls d : isOffDay hs ls d = isOffDay hs' ls d.
Proof. unfold isOffDay. by rewrite isHoliday_same. Qed.

Lemma exceeds_loop_same max prev rest streak :
  exceeds_loop max hs prev rest streak = exceeds_loop max hs' prev rest streak.
Proof.
  revert prev streak. induction rest as [|cur rest IH]; intros prev streak; simpl; [done|].
  by rewrite isWorkingDay_same, !IH.
Qed.

Lemma exceedsMaxConsecutiveLeaves_same lds max :
  exceedsMaxConsecutiveLeaves lds hs max = exceedsMaxConsecutiveLeaves lds hs' max.
Proof.
  unfold exceedsMaxConsecutiveLeaves.
  destruct (js_sort _ _); [done | apply exceeds_loop_same].
Qed.

Lemma hasHolidayAnchor_same lds : hasHolidayAnchor lds hs = hasHolidayAnchor lds hs'.
Proof.
  unfold hasHolidayAnchor. apply existsb_pointwise. intros ld.
  apply existsb_same_elems. intros h.
  rewrite !list_elem_of_In, !filter_In, <- !list_elem_of_In.
  by rewrite same.
Qed.

Lemma extendToFullVacation_same fuel lds anchor :
  extendToFullVacation fuel lds hs anchor = extendToFullVacation fuel lds hs' anchor.
Proof.
  unfold extendToFullVacation.
  rewrite (while_ext
    (λ start, isOffDay hs (list_to_set (map format_ymd lds)) (addDays start (-1)))
    (λ start, isOffDay hs' (list_to_set (map format_ymd lds)) (addDays start (-1))))
    by (intros; apply isOffDay_same).
  by rewrite (while_ext
    (λ end_, isOffDay hs (list_to_set (map format_ymd lds)) (addDays end_ 1))
    (λ end_, isOffDay hs' (list_to_set (map format_ymd lds)) (addDays end_ 1)))
    by (intros; apply isOffDay_same).
Qed.

Lemma buildOpportunity_same fuel lds anchor :
  buildOpportunity fuel lds hs anchor = buildOpportunity fuel lds hs' anchor.
Proof.
  unfold buildOpportunity.
  by rewrite exceedsMaxConsecutiveLeaves_same, hasHolidayAnchor_same,
    extendToFullVacation_same.
Qed.

Lemma findOpportunitiesAroundHoliday_same fuel h :
  findOpportunitiesAroundHoliday fuel h hs = findOpportunitiesAroundHoliday fuel h hs'.
Proof.
  unfold findOpportunitiesAroundHoliday.
  destruct (isWeekend h); [done|].
  rewrite !(while_ext (λ '(before, d), isWorkingDay d hs)
              (λ '(before, d), isWorkingDay d hs'))
    by (intros [? ?]; apply isWorkingDay_same).
  destruct (while fuel _ _ ([], addDays h (-1))) as [[before d1]|]; simpl; [|done].
  destruct (while fuel _ _ ([], addDays h 1)) as [[after d2]|]; simpl; [|done].
  by rewrite !buildOpportunity_same.
Qed.
End SameHolidays.

(** ** Holidays without their duplicates *)

Lemma startOfDay_inj a b : startOfDay a = startOfDay b ↔ dayNumber a = dayNumber b.
Proof. rewrite <- isSameDay_spec. unfold isSameDay. by rewrite Z.eqb_eq. Qed.

Lemma normalize_dedupDays hs :
  map normalize (dedupDays hs) = firsts (map normalize hs).
Proof.
  induction hs as [|h hs IH]; simpl; [done|].
  f_equal. rewrite <- IH.
  rewrite <- (map_filter_comm normalize (λ y, y ≠ normalize h)).
  f_equal. apply list_filter_iff. intros x. unfold normalize.
  by rewrite startOfDay_inj.
Qed.

Lemma normalizedHolidays_dedupDays hs :
  normalizedHolidays (dedupDays hs) = firsts (normalizedHolidays hs).
Proof.
  unfold normalizedHolidays. rewrite normalize_dedupDays.
  symmetry. apply firsts_js_sort.
  - apply by_time_refl.
  - apply by_time_trans.
  - apply by_time_total.
Qed.

Lemma mapM_Some_map {A B} (g : A → option (list B)) (l : list A) found :
  mapM g l = Some found → found = map (λ x, default [] (g x)) l.
Proof.
  intros H%mapM_Some_1.
  induction H as [|x y l found Hx _ IH]; simpl; [done|].
  rewrite Hx. simpl. by f_equal.
Qed.

Lemma mapM_firsts_is_Some {A B} `{EqDecision A} (g : A → option B) (l : list A) :
  is_Some (mapM g (firsts l)) ↔ is_Some (mapM g l).
Proof.
  rewrite !mapM_is_Some, !Forall_forall.
  by setoid_rewrite elem_of_firsts.
Qed.

(** The candidates of a list of holidays and of the list without its
    duplicates are the same once their own later copies are dropped. *)
Lemma candidates_dedupDays fuel hs p :
  match candidates fuel hs p, candidates fuel (dedupDays hs) p with
  | Some cands, Some cands' => firsts cands = firsts cands'
  | None, None => True
  | _, _ => False
  end.
Proof.
  unfold candidates. rewrite normalizedHolidays_dedupDays.
  set (nhs := normalizedHolidays hs).
  set (g := λ h, findOpportunitiesAroundHoliday fuel h nhs).
  rewrite (mapM_ext (λ h, findOpportunitiesAroundHoliday fuel h (firsts nhs)) g).
  2:{ intros h. unfold g. apply findOpportunitiesAroundHoliday_same.
      intros x. apply elem_of_firsts. }
  pose proof (mapM_firsts_is_Some g nhs) as Hiff.
  destruct (mapM g nhs) as [found|] eqn:E1;
    destruct (mapM g (firsts nhs)) as [found'|] eqn:E2; simpl.
  - apply mapM_Some_map in E1, E2. subst found found'.
    rewrite !firsts_js_sort
      by (apply by_objective_refl || apply by_objective_trans || apply by_objective_total).
    f_equal. apply firsts_concat_map.
  - destruct (proj2 Hiff) as [? ?]; [by eexists | done].
  - destruct (proj1 Hiff) as [? ?]; [by eexists | done].
  - done.
Qed.

Lemma candidates_nonempty fuel hs p cands o :
  candidates fuel hs p = Some cands → o ∈ cands → opp_leaveDates o ≠ [].
Proof.
  intros H Ho. destruct (candidates_spec _ _ _ _ H o Ho) as (h & _ & Hwf & _).
  apply (wf_nonempty _ _ Hwf).
Qed.

(** * The documented properties *)

(** ** Budget conservation *)

(** In exact arithmetic the leaves used by the recommendations and the
    leaves remaining add up to [totalLeaves]. *)
Lemma budget_exact fuel hs n s p r :
  optimizeLeaves fuel hs n s p = Some r →
  sum_list (map leavesUsed (recommendations r)) + leavesRemaining r = n.
Proof.
  intros H.
  apply optimizeLeaves_cases in H as [->|(cands & st & _ & Hinv & ->)].
  - simpl. lia.
  - simpl. rewrite (inv_budget _ _ Hinv), map_map. simpl. lia.
Qed.

Lemma double_exact x : Z.abs x <= 2 ^ 53 → double x = x.
Proof. unfold double. intros H. by destruct (Z.leb_spec (Z.abs x) (2 ^ 53)); [|lia]. Qed.

Lemma scan_bounds n (l : list Opportunity) st :
  0 <= usedLeaves st <= n →
  0 <= usedLeaves (foldl (select_step n) st l) <= n.
Proof.
  intros H0. apply (foldl_invariant (λ st, 0 <= usedLeaves st <= n)); [done|].
  intros st' x Hst _. unfold select_step.
  destruct (_ || _) eqn:E; [done|]. simpl.
  apply orb_false_iff in E as [_ E]. apply Z.ltb_ge in E. lia.
Qed.

(** Up to [2 ^ 53] the subtraction does not round, and the code computes
    what the exact arithmetic gives. *)
Lemma optimizeLeaves_double_exact fuel hs n s p :
  n <= 2 ^ 53 → optimizeLeaves_double fuel hs n s p = optimizeLeaves fuel hs n s p.
Proof.
  intros Hn. unfold optimizeLeaves_double, optimizeLeaves.
  destruct (_ || _) eqn:Hg; [done|].
  apply orb_false_iff in Hg as [_ Hpos]. apply Z.leb_gt in Hpos.
  destruct (mapM _ _) as [found|]; [|done]. cbn [mbind option_bind].
  pose proof (scan_bounds n (js_sort (by_objective p) (concat found))
                {| used := ∅; selected := []; usedLeaves := 0 |}) as Hb.
  cbn [usedLeaves] in Hb. specialize (Hb ltac:(lia)).
  rewrite double_exact; [done|lia].
Qed.

(** C3 fails where the subtraction rounds: with a budget of [2 ^ 54] and a
    holiday on Monday 1970-01-05 the three days after it are recommended, and
    [2 ^ 54 - 3] is no double, [2 ^ 54 - 4] is returned. *)
Lemma budget_conservation_counterexample :
  ∃ r, optimizeLeaves_double 20 [day 4] (2 ^ 54) false false = Some r ∧
       map leavesUsed (recommendations r) = [3] ∧
       leavesRemaining r = 2 ^ 54 - 4 ∧
       sum_list (map leavesUsed (recommendations r)) + leavesRemaining r ≠ 2 ^ 54.
Proof.
  eexists. split; [vm_compute; reflexivity|].
  split; [vm_compute; reflexivity|].
  split; [vm_compute; reflexivity|].
  vm_compute. discriminate.
Qed.

(** C3 (amended). For every input with a budget of at most [2 ^ 53],
    degenerate ones included, the leaves used by the recommendations and the
    leaves remaining add up to [totalLeaves]. *)
Theorem budget_conservation fuel hs n s p r :
  n <= 2 ^ 53 →
  optimizeLeaves_double fuel hs n s p = Some r →
  sum_list (map leavesUsed (recommendations r)) + leavesRemaining r = n.
Proof.
  intros Hn H. rewrite (optimizeLeaves_double_exact _ _ _ _ _ Hn) in H.
  apply optimizeLeaves_cases in H as [->|(cands & st & _ & Hinv & ->)].
  - simpl. lia.
  - simpl. rewrite (inv_budget _ _ Hinv), map_map. simpl. lia.
Qed.

Lemma budget_conservation_witness :
  8 <= 2 ^ 53 ∧
  optimizeLeaves_double 20 holidays2026 8 false true = Some run_2026 ∧
  sum_list (map leavesUsed (recommendations run_2026)) + leavesRemaining run_2026 = 8.
Proof.
  assert (Hn : 8 <= 2 ^ 53) by (vm_compute; discriminate).
  assert (H : optimizeLeaves_double 20 holidays2026 8 false true = Some run_2026)
    by (vm_compute; reflexivity).
  split; [exact Hn|]. split; [exact H|].
  exact (budget_conservation _ _ _ _ _ _ Hn H).
Defined.

(** ** No double-booking *)

(** C4. No calendar day, by its key, is a leave date of two recommendations
    of a result. *)
Theorem no_double_booking fuel hs n s p r (i j : nat) a b d1 d2 :
  optimizeLeaves fuel hs n s p = Some r →
  recommendations r !! i = Some a →
  recommendations r !! j = Some b →
  i ≠ j →
  d1 ∈ leaveDates a → d2 ∈ leaveDates b →
  format_ymd d1 ≠ format_ymd d2.
Proof.
  intros H Hi Hj Hij H1 H2 E.
  apply optimizeLeaves_cases in H as [->|(cands & st & _ & Hinv & ->)].
  { inversion Hi. }
  simpl in Hi, Hj.
  rewrite lookup_map in Hi, Hj.
  destruct (selected st !! i) as [oa|] eqn:Ha; [|done].
  destruct (selected st !! j) as [ob|] eqn:Hb; [|done].
  simpl in Hi, Hj. simplify_eq. simpl in H1, H2.
  apply (inv_disjoint _ _ Hinv i j oa ob Ha Hb Hij (format_ymd d1)).
  - apply elem_of_map. eauto.
  - rewrite E. apply elem_of_map. eauto.
Qed.

Lemma no_double_booking_witness :
  format_ymd (day 20451) ≠ format_ymd (day 20480).
Proof.
  eapply (no_double_booking 20 holidays2026 8 false true run_2026 0 1).
  - vm_compute; reflexivity.
  - reflexivity.
  - reflexivity.
  - lia.
  - vm_compute. apply list_elem_of_here.
  - vm_compute. apply list_elem_of_here.
Defined.

(** ** Span containment *)

(** C9. Every leave date of a recommendation lies, as a calendar day,
    between its [startDate] and its [endDate], both included. *)
Theorem span_containment fuel hs n s p r rec d :
  optimizeLeaves fuel hs n s p = Some r →
  rec ∈ recommendations r →
  d ∈ leaveDates rec →
  dayNumber (startDate rec) <= dayNumber d <= dayNumber (endDate rec).
Proof.
  intros H Hrec Hd.
  destruct (recommendation_opportunity _ _ _ _ _ _ _ H Hrec)
    as (o & h & -> & _ & Hwf & _).
  simpl in *. by apply (wf_span _ _ Hwf).
Qed.

Lemma span_containment_witness :
  dayNumber 1766793600000 <= dayNumber (day 20451) <= dayNumber 1767484800000.
Proof.
  eapply (span_containment 20 holidays2026 8 false true run_2026
            {| leaveDates := _; startDate := 1766793600000; endDate := 1767484800000;
               totalDays := _; leavesUsed := _; description := _ |}).
  - vm_compute; reflexivity.
  - vm_compute. apply list_elem_of_here.
  - vm_compute. apply list_elem_of_here.
Defined.

(** ** Leave is only spent on working days *)

(** C10. Every leave date of a recommendation is a working day of the input
    calendar: not a Saturday, not a Sunday, and not the day of a holiday of
    the input (nor of its normalized list). *)
Theorem leave_on_working_days fuel hs n s p r rec d :
  optimizeLeaves fuel hs n s p = Some r →
  rec ∈ recommendations r →
  d ∈ leaveDates rec →
  getDay d ≠ 6 ∧ getDay d ≠ 0 ∧
  isHoliday d hs = false ∧
  isHoliday d (normalizedHolidays hs) = false ∧
  isWorkingDay d hs = true.
Proof.
  intros H Hrec Hd.
  destruct (recommendation_opportunity _ _ _ _ _ _ _ H Hrec)
    as (o & h & -> & _ & _ & Hl).
  simpl in Hd. destruct (Hl d Hd) as (_ & Hwk & _).
  rewrite <- (isWorkingDay_same_days d _ _ (normalizedHolidays_same_days hs)).
  rewrite <- (isHoliday_same_days d _ _ (normalizedHolidays_same_days hs)).
  unfold isWorkingDay, isWeekend in *.
  apply andb_true_iff in Hwk as [Hw Hh].
  apply negb_true_iff in Hw, Hh.
  apply orb_false_iff in Hw as [H0 H6].
  apply Z.eqb_neq in H0, H6.
  rewrite Hh. repeat split; try done.
  by rewrite (proj2 (Z.eqb_neq _ _) H0), (proj2 (Z.eqb_neq _ _) H6).
Qed.

Lemma leave_on_working_days_witness :
  getDay (day 20451) ≠ 6 ∧ getDay (day 20451) ≠ 0 ∧
  isHoliday (day 20451) holidays2026 = false ∧
  isHoliday (day 20451) (normalizedHolidays holidays2026) = false ∧
  isWorkingDay (day 20451) holidays2026 = true.
Proof.
  eapply (leave_on_working_days 20 holidays2026 8 false true run_2026
            {| leaveDates := _; startDate := 1766793600000; endDate := 1767484800000;
               totalDays := _; leavesUsed := _; description := _ |}).
  - vm_compute; reflexivity.
  - vm_compute. apply list_elem_of_here.
  - vm_compute. apply list_elem_of_here.
Defined.

(** ** The short cut *)

(** C8. With no holiday, or with a budget that is not positive, the result
    is the empty one and [leavesRemaining] is the budget as given; so it is
    for [optimizeLeaves([], 10, true, false)]. *)
Theorem degenerate_input :
  (∀ fuel hs n s p,
     hs = [] ∨ n <= 0 →
     optimizeLeaves fuel hs n s p = Some {|
       recommendations := [];
       optimizedLeaves := [];
       totalVacations := 0;
       longestBreak := 0;
       leavesRemaining := n;
     |}) ∧
  (∀ fuel,
     optimizeLeaves fuel [] 10 true false = Some {|
       recommendations := [];
       optimizedLeaves := [];
       totalVacations := 0;
       longestBreak := 0;
       leavesRemaining := 10;
     |}).
Proof.
  split; [|done].
  intros fuel hs n s p [->|Hn]; [done|].
  unfold optimizeLeaves.
  destruct (Z.leb_spec n 0); [|lia].
  by rewrite orb_true_r.
Qed.

Lemma degenerate_input_witness :
  optimizeLeaves 0 holidays2026 (-2) false true = Some {|
    recommendations := [];
    optimizedLeaves := [];
    totalVacations := 0;
    longestBreak := 0;
    leavesRemaining := -2;
  |}.
Proof.
  apply (proj1 degenerate_input 0%nat holidays2026 (-2) false true).
  right. lia.
Defined.

(** ** Totals of an opportunity *)

(** C7. Every opportunity that [buildOpportunity] returns has at least one
    leave date, spans [totalDays] calendar days from [startDate] to [endDate]
    inclusive, and has [bonusDays] and [efficiency] as the difference and the
    quotient of [totalDays] and the number of leave dates; the recommendations
    of a result inherit the span and the leave dates. *)
Theorem opportunity_totals :
  (∀ fuel lds hs anchor o,
     buildOpportunity fuel lds hs anchor = Some (Some o) →
     dayNumber (opp_startDate o) <= dayNumber (opp_endDate o) ∧
     opp_totalDays o = dayNumber (opp_endDate o) - dayNumber (opp_startDate o) + 1 ∧
     opp_bonusDays o = opp_totalDays o - Z.of_nat (length (opp_leaveDates o)) ∧
     opp_efficiency o =
       (inject_Z (opp_totalDays o) / inject_Z (Z.of_nat (length (opp_leaveDates o))))%Q ∧
     (0 < length (opp_leaveDates o))%nat) ∧
  (∀ fuel hs n s p r rec,
     optimizeLeaves fuel hs n s p = Some r →
     rec ∈ recommendations r →
     dayNumber (startDate rec) <= dayNumber (endDate rec) ∧
     totalDays rec = dayNumber (endDate rec) - dayNumber (startDate rec) + 1 ∧
     (0 < length (leaveDates rec))%nat).
Proof.
  split.
  - intros fuel lds hs anchor o H.
    apply buildOpportunity_wf in H as [_ Hwf].
    destruct Hwf as [Hne Hord _ _ _ Ht Hb He].
    repeat split; try done.
    destruct (opp_leaveDates o); [done | simpl; lia].
  - intros fuel hs n s p r rec H Hrec.
    destruct (recommendation_opportunity _ _ _ _ _ _ _ H Hrec)
      as (o & h & -> & _ & Hwf & _).
    destruct Hwf as [Hne Hord _ _ _ Ht Hb He]. simpl.
    repeat split; try done.
    destruct (opp_leaveDates o); [done | simpl; lia].
Qed.

Lemma opportunity_totals_witness :
  dayNumber (opp_startDate bridge_2026) <= dayNumber (opp_endDate bridge_2026) ∧
  opp_totalDays bridge_2026 =
    dayNumber (opp_endDate bridge_2026) - dayNumber (opp_startDate bridge_2026) + 1 ∧
  opp_bonusDays bridge_2026 =
    opp_totalDays bridge_2026 - Z.of_nat (length (opp_leaveDates bridge_2026)) ∧
  opp_efficiency bridge_2026 =
    (inject_Z (opp_totalDays bridge_2026)
       / inject_Z (Z.of_nat (length (opp_leaveDates bridge_2026))))%Q ∧
  (0 < length (opp_leaveDates bridge_2026))%nat.
Proof.
  apply (proj1 opportunity_totals 20%nat [day 20455]
           (normalizedHolidays holidays2026) (day 20454) bridge_2026).
  vm_compute. reflexivity.
Defined.

(** ** Maximality *)

Lemma isOffDay_off_for hs hs' lds rec d :
  same_days hs' hs →
  leaveDates rec = lds →
  isOffDay hs' (list_to_set (map format_ymd lds)) d = off_for hs rec d.
Proof.
  intros Hs <-. unfold isOffDay, off_for.
  rewrite (isHoliday_same_days d _ _ Hs). f_equal.
  apply eq_true_iff_eq.
  rewrite bool_decide_eq_true, elem_of_list_to_set, elem_of_map, existsb_elem_of.
  unfold format_ymd. split.
  - intros (l & E & Hl). exists l. split; [done|]. by apply isSameDay_spec.
  - intros (l & Hl & E). exists l. split; [|done]. by apply isSameDay_spec in E.
Qed.

(** The documented property fails when two recommendations touch: around
    the holiday of Wednesday 1970-01-07 and with 4 leaves, Monday and Tuesday
    make one recommendation, which ends on the Wednesday, and Thursday and
    Friday make the other. *)
Lemma maximality_counterexample :
  ∃ r rec,
    optimizeLeaves 20 midweek 4 false false = Some r ∧
    rec ∈ recommendations r ∧
    off_in_result midweek r (addDays (endDate rec) 1) = true.
Proof.
  exists run_midweek.
  eexists {| leaveDates := _; startDate := _; endDate := day 6;
             totalDays := _; leavesUsed := _; description := _ |}.
  split; [vm_compute; reflexivity|].
  split; [vm_compute; apply list_elem_of_here|].
  vm_compute. reflexivity.
Qed.

(** C1 (amended). For every recommendation, the day before [startDate] and
    the day after [endDate] are neither a weekend day, nor a holiday of the
    input, nor a leave date of that recommendation. *)
Theorem maximality fuel hs n s p r rec :
  optimizeLeaves fuel hs n s p = Some r →
  rec ∈ recommendations r →
  off_for hs rec (addDays (startDate rec) (-1)) = false ∧
  off_for hs rec (addDays (endDate rec) 1) = false.
Proof.
  intros H Hrec.
  destruct (recommendation_opportunity _ _ _ _ _ _ _ H Hrec)
    as (o & h & -> & _ & Hwf & _).
  pose proof (normalizedHolidays_same_days hs) as Hs.
  split.
  - rewrite <- (isOffDay_off_for hs _ (opp_leaveDates o) (toRecommendation o) _ Hs eq_refl).
    apply (wf_before _ _ Hwf).
  - rewrite <- (isOffDay_off_for hs _ (opp_leaveDates o) (toRecommendation o) _ Hs eq_refl).
    apply (wf_after _ _ Hwf).
Qed.

Lemma maximality_witness :
  off_for midweek
    {| leaveDates := [day 4; day 5]; startDate := day 2; endDate := day 6;
       totalDays := 5; leavesUsed := 2;
       description := "Take 2 leave day(s) to get 5 continuous days off" |}
    (addDays (day 2) (-1)) = false ∧
  off_for midweek
    {| leaveDates := [day 4; day 5]; startDate := day 2; endDate := day 6;
       totalDays := 5; leavesUsed := 2;
       description := "Take 2 leave day(s) to get 5 continuous days off" |}
    (addDays (day 6) 1) = false.
Proof.
  apply (maximality 20 midweek 4 false false run_midweek).
  - vm_compute; reflexivity.
  - vm_compute. apply list_elem_of_here.
Defined.

(** ** The cap on consecutive leave *)

(** C5. In the sorted leave dates of a recommendation, a run of consecutive
    calendar days that are all working days of the input calendar has at most
    3 days. *)
Theorem consecutive_leave_cap fuel hs n s p r rec pre run post :
  optimizeLeaves fuel hs n s p = Some r →
  rec ∈ recommendations r →
  js_sort by_time (leaveDates rec) = pre ++ run ++ post →
  consecutive_days run →
  Forall (λ d, isWorkingDay d hs = true) run →
  (length run ≤ 3)%nat.
Proof.
  intros H Hrec Hsort Hrun _.
  destruct (recommendation_opportunity _ _ _ _ _ _ _ H Hrec)
    as (o & h & -> & _ & _ & Hl).
  simpl in Hsort.
  assert (Hin : ∀ d, d ∈ run → near h d).
  { intros d Hd. apply Hl, (elem_of_js_sort by_time). rewrite Hsort.
    apply elem_of_app. right. apply elem_of_app. by left. }
  destruct run as [|a0 [|a1 [|a2 [|a3 rest]]]]; simpl; try lia.
  pose proof (Hrun 0%nat a0 a1 eq_refl eq_refl) as E1.
  pose proof (Hrun 1%nat a1 a2 eq_refl eq_refl) as E2.
  pose proof (Hrun 2%nat a2 a3 eq_refl eq_refl) as E3.
  assert (N0 : near h a0) by (apply Hin; repeat constructor).
  assert (N1 : near h a1) by (apply Hin; repeat constructor).
  assert (N2 : near h a2) by (apply Hin; repeat constructor).
  assert (N3 : near h a3) by (apply Hin; repeat constructor).
  unfold near in *. lia.
Qed.

Lemma consecutive_leave_cap_witness :
  (length [day 20451; day 20452; day 20453] ≤ 3)%nat.
Proof.
  eapply (consecutive_leave_cap 20 holidays2026 8 false true run_2026
            {| leaveDates := _; startDate := 1766793600000; endDate := 1767484800000;
               totalDays := _; leavesUsed := _; description := _ |}
            [] [day 20451; day 20452; day 20453] [day 20455]).
  - vm_compute; reflexivity.
  - vm_compute. apply list_elem_of_here.
  - vm_compute. reflexivity.
  - intros [|[|[|i]]] a b Ha Hb; simpl in Ha, Hb; simplify_eq; vm_compute; reflexivity.
  - repeat constructor.
Defined.

(** ** Termination *)

Lemma walk_before_days fuel h hs before d :
  while fuel (λ '(before, d), isWorkingDay d hs)
    (λ '(before, d), (normalize d :: before, addDays d (-1)))
    ([], addDays h (-1)) = Some (before, d) →
  (∀ (j : nat) x, before !! j = Some x →
     startOfDay x = x ∧ isWorkingDay x hs = true ∧
     dayNumber x = dayNumber h - Z.of_nat (length before) + Z.of_nat j) ∧
  dayNumber d = dayNumber h - Z.of_nat (length before) - 1 ∧
  isWorkingDay d hs = false.
Proof.
  intros Hw.
  apply (while_inv _ _ (λ st,
    (∀ (j : nat) x, st.1 !! j = Some x →
       startOfDay x = x ∧ isWorkingDay x hs = true ∧
       dayNumber x = dayNumber st.2 + 1 + Z.of_nat j) ∧
    dayNumber st.2 + 1 + Z.of_nat (length st.1) = dayNumber h)) in Hw.
  - destruct Hw as [[Hel Hlen] Hex]. simpl in Hel, Hlen, Hex.
    split; [|split; [lia | done]].
    intros j x Hj. destruct (Hel _ _ Hj) as (Hn & Hwk & Hd).
    repeat split; try done; lia.
  - simpl. split; [intros j x Hx; inversion Hx|].
    rewrite dayNumber_addDays. lia.
  - intros [b c] [Hel Hlen] Hc. simpl in *. split.
    + intros [|j] x Hx; simpl in Hx.
      * simplify_eq. unfold normalize.
        rewrite startOfDay_idem, dayNumber_startOfDay, dayNumber_addDays.
        rewrite (isWorkingDay_day (startOfDay c) c) by apply dayNumber_startOfDay.
        repeat split; try done; lia.
      * destruct (Hel _ _ Hx) as (Hn & Hwk & Hd).
        rewrite dayNumber_addDays. repeat split; try done; lia.
    + rewrite dayNumber_addDays. lia.
Qed.

Lemma walk_after_days fuel h hs after d :
  while fuel (λ '(after, d), isWorkingDay d hs)
    (λ '(after, d), (after ++ [normalize d], addDays d 1))
    ([], addDays h 1) = Some (after, d) →
  (∀ (j : nat) x, after !! j = Some x →
     startOfDay x = x ∧ isWorkingDay x hs = true ∧
     dayNumber x = dayNumber h + 1 + Z.of_nat j) ∧
  dayNumber d = dayNumber h + 1 + Z.of_nat (length after) ∧
  isWorkingDay d hs = false.
Proof.
  intros Hw.
  apply (while_inv _ _ (λ st,
    (∀ (j : nat) x, st.1 !! j = Some x →
       startOfDay x = x ∧ isWorkingDay x hs = true ∧
       dayNumber x = dayNumber h + 1 + Z.of_nat j) ∧
    dayNumber st.2 = dayNumber h + 1 + Z.of_nat (length st.1))) in Hw.
  - destruct Hw as [[Hel Hlen] Hex]. simpl in Hel, Hlen, Hex. done.
  - simpl. split; [intros j x Hx; inversion Hx|].
    rewrite dayNumber_addDays. lia.
  - intros [a c] [Hel Hlen] Hc. simpl in *. split.
    + intros j x Hx.
      apply lookup_app_Some in Hx as [Hx|[Hge Hx]]; [by apply Hel|].
      apply list_lookup_singleton_Some in Hx as [Hj <-].
      unfold normalize.
      rewrite startOfDay_idem, dayNumber_startOfDay.
      rewrite (isWorkingDay_day (startOfDay c) c) by apply dayNumber_startOfDay.
      repeat split; try done; lia.
    + rewrite dayNumber_addDays, length_app. simpl. lia.
Qed.

Lemma fold_earliest_in anchor (l : list Date) :
  foldl (λ a b, if a <? b then a else b) anchor l ∈ anchor :: l.
Proof.
  revert anchor. induction l as [|x l IH]; intros anchor; simpl; [by left|].
  specialize (IH (if anchor <? x then anchor else x)).
  apply elem_of_cons in IH as [E|IH].
  - rewrite E. destruct (anchor <? x); [by left | right; by left].
  - right. by right.
Qed.

Lemma fold_latest_in anchor (l : list Date) :
  foldl (λ a b, if b <? a then a else b) anchor l ∈ anchor :: l.
Proof.
  revert anchor. induction l as [|x l IH]; intros anchor; simpl; [by left|].
  specialize (IH (if x <? anchor then anchor else x)).
  apply elem_of_cons in IH as [E|IH].
  - rewrite E. destruct (x <? anchor); [by left | right; by left].
  - right. by right.
Qed.

Lemma isOffDay_day hs ls a b :
  dayNumber a = dayNumber b → isOffDay hs ls a = isOffDay hs ls b.
Proof.
  intros E. unfold isOffDay, format_ymd.
  by rewrite (isWeekend_day a b E), (isHoliday_day a b hs E), E.
Qed.

(** The days that the expansion adds to the span are off-days. *)
Lemma extendToFullVacation_filled fuel lds hs anchor s e d :
  extendToFullVacation fuel lds hs anchor = Some (s, e) →
  dayNumber s <= dayNumber d <= dayNumber e →
  dayNumber (foldl (λ a b, if a <? b then a else b) anchor lds) <= dayNumber d
    <= dayNumber (foldl (λ a b, if b <? a then a else b) anchor lds) ∨
  isOffDay hs (list_to_set (map format_ymd lds)) d = true.
Proof.
  unfold extendToFullVacation. intros H Hd.
  set (m0 := foldl (λ a b, if a <? b then a else b) anchor lds) in *.
  set (M0 := foldl (λ a b, if b <? a then a else b) anchor lds) in *.
  set (ls := list_to_set (map format_ymd lds) : gset Z) in *.
  destruct (while fuel _ _ (normalize m0)) as [s'|] eqn:Hs; simpl in H; [|done].
  destruct (while fuel _ _ (normalize M0)) as [e'|] eqn:He; simpl in H; [|done].
  simplify_eq.
  apply (while_inv _ _
    (λ x, ∀ t, dayNumber x <= dayNumber t < dayNumber m0 → isOffDay hs ls t = true))
    in Hs as [Hs _].
  - apply (while_inv _ _
      (λ x, ∀ t, dayNumber M0 < dayNumber t <= dayNumber x → isOffDay hs ls t = true))
      in He as [He _].
    + destruct (Z.lt_ge_cases (dayNumber d) (dayNumber m0)); [right; apply Hs; lia|].
      destruct (Z.lt_ge_cases (dayNumber M0) (dayNumber d)); [right; apply He; lia|].
      left. lia.
    + intros t. unfold normalize. rewrite dayNumber_startOfDay. lia.
    + intros x Hx Hc t Ht. rewrite dayNumber_addDays in Ht.
      destruct (Z.eq_dec (dayNumber t) (dayNumber x + 1)) as [E|N].
      * rewrite <- Hc. apply isOffDay_day. by rewrite dayNumber_addDays.
      * apply Hx. lia.
  - intros t. unfold normalize. rewrite dayNumber_startOfDay. lia.
  - intros x Hx Hc t Ht. rewrite dayNumber_addDays in Ht.
    destruct (Z.eq_dec (dayNumber t) (dayNumber x + -1)) as [E|N].
    + rewrite <- Hc. apply isOffDay_day. by rewrite dayNumber_addDays.
    + apply Hx. lia.
Qed.

Lemma dayNumber_day t : dayNumber (day t) = t.
Proof. unfold day. rewrite Z.mul_comm. apply dayNumber_mul. Qed.

Lemma differenceInDays_midnight a b :
  startOfDay a = a → startOfDay b = b →
  differenceInDays a b = dayNumber a - dayNumber b.
Proof.
  intros Ha Hb. unfold differenceInDays. rewrite <- Ha, <- Hb, !startOfDay_day.
  rewrite !dayNumber_mul.
  replace (msPerDay * dayNumber a - msPerDay * dayNumber b)
    with ((dayNumber a - dayNumber b) * msPerDay) by lia.
  apply Z.quot_mul. pose proof msPerDay_pos. lia.
Qed.

(** ** The walks in the arithmetic of the engine *)

(** A run of a loop is the run of another loop on the images of its states,
    when the two loops agree on the states of the run. *)
Lemma while_sim {S T} (f : S → T) (condS : S → bool) (bodyS : S → S)
    (condT : T → bool) (bodyT : T → T) (P : S → Prop) fuel s r :
  while fuel condS bodyS s = Some r →
  P s →
  (∀ s, P s → condS s = true → P (bodyS s)) →
  (∀ s, P s → condT (f s) = condS s) →
  (∀ s, P s → condS s = true → bodyT (f s) = f (bodyS s)) →
  while fuel condT bodyT (f s) = Some (f r).
Proof.
  intros H Hs Hstep Hcond Hbody. revert s H Hs.
  induction fuel as [|fuel IH]; intros s H Hs; [done|].
  cbn [while] in *. rewrite (Hcond s Hs).
  destruct (condS s) eqn:Hc; [|by simplify_eq].
  rewrite (Hbody s Hs Hc). apply IH; [done|by apply Hstep].
Qed.

(** No more than five days in a row are weekdays. *)
Lemma weekdays_run a b :
  (∀ t, a < t < b → (t + 4) mod 7 ≠ 0 ∧ (t + 4) mod 7 ≠ 6) → b - a <= 6.
Proof.
  intros H. destruct (Z.le_gt_cases (b - a) 6) as [|Hgt]; [done|exfalso].
  destruct (Z.eq_dec ((b + 3) mod 7) 6) as [E|N].
  - destruct (H (b - 1) ltac:(lia)) as [_ H6]. apply H6.
    replace (b - 1 + 4) with (b + 3) by lia. done.
  - pose proof (Z.mod_pos_bound (b + 3) 7 ltac:(lia)) as Hm.
    destruct (H (b - 1 - (b + 3) mod 7) ltac:(lia)) as [H0 _]. apply H0.
    Z.div_mod_to_equations. lia.
Qed.

Lemma in_range_held d : in_range d → held d.
Proof. unfold in_range, held, maxTime, msPerDay. lia. Qed.

Lemma js_startOfDay_Some d : held d → Js.startOfDay (Some d) = Some (startOfDay d).
Proof.
  intros [H1 H2]. unfold Js.startOfDay, Js.TimeClip. cbn [mbind option_bind].
  fold (startOfDay d). pose proof (startOfDay_le d) as Hle.
  assert (d - msPerDay < startOfDay d).
  { rewrite startOfDay_day. unfold dayNumber.
    pose proof (Z.mul_div_le d msPerDay msPerDay_pos).
    pose proof (Z.mod_pos_bound d msPerDay msPerDay_pos).
    pose proof (Z.div_mod d msPerDay ltac:(unfold msPerDay; lia)). lia. }
  destruct (Z.leb_spec (Z.abs (startOfDay d)) maxTime) as [|Hgt]; [done|].
  unfold maxTime, msPerDay in *. lia.
Qed.

Lemma js_addDays_Some d c :
  Z.abs (addDays d c) <= maxTime → Js.addDays (Some d) c = Some (addDays d c).
Proof.
  intros H. unfold Js.addDays, Js.TimeClip. cbn [mbind option_bind].
  fold (addDays d c). by destruct (Z.leb_spec (Z.abs (addDays d c)) maxTime); [|lia].
Qed.

Lemma js_isWeekend_Some d : Js.isWeekend (Some d) = isWeekend d.
Proof. reflexivity. Qed.

Lemma js_isSameDay_Some a b :
  held a → held b → Js.isSameDay (Some a) (Some b) = isSameDay a b.
Proof.
  intros Ha Hb. unfold Js.isSameDay.
  by rewrite (js_startOfDay_Some a Ha), (js_startOfDay_Some b Hb).
Qed.

Lemma js_isHoliday_Some d hs :
  held d → Forall held hs → Js.isHoliday (Some d) (map Some hs) = isHoliday d hs.
Proof.
  intros Hd Hhs. unfold Js.isHoliday, isHoliday.
  induction Hhs as [|h hs Hh Hhs IH]; [done|].
  cbn [map existsb]. by rewrite IH, (js_isSameDay_Some h d Hh Hd).
Qed.

Lemma js_isWorkingDay_Some d hs :
  held d → Forall held hs →
  Js.isWorkingDay (Some d) (map Some hs) = isWorkingDay d hs.
Proof.
  intros Hd Hhs. unfold Js.isWorkingDay, isWorkingDay.
  by rewrite js_isWeekend_Some, (js_isHoliday_Some d hs Hd Hhs).
Qed.

Lemma walking_near h c d :
  c = 1 ∨ c = -1 → walking h c d → ∃ k, 1 <= k <= 6 ∧ d = addDays h (c * k).
Proof.
  intros Hc (k & Hk & -> & Hw). exists k. split; [|done]. split; [done|].
  assert (Hd : ∀ t, (dayNumber h + (if decide (c = 1) then 0 else - k)) < t
                    < (dayNumber h + (if decide (c = 1) then k else 0)) →
               (t + 4) mod 7 ≠ 0 ∧ (t + 4) mod 7 ≠ 6).
  { intros t Ht.
    assert (Hj : ∃ j, 1 <= j < k ∧ t = dayNumber h + c * j).
    { destruct (decide (c = 1)) as [->|]; [exists (t - dayNumber h) |
        exists (dayNumber h - t)]; lia. }
    destruct Hj as (j & Hj & ->). specialize (Hw j Hj).
    unfold isWeekend, getDay in Hw. rewrite dayNumber_addDays in Hw.
    apply orb_false_iff in Hw as [H0 H6].
    apply Z.eqb_neq in H0, H6. done. }
  apply weekdays_run in Hd. destruct (decide (c = 1)); lia.
Qed.

Lemma walking_held h c d :
  c = 1 ∨ c = -1 → in_range h → walking h c d →
  held d ∧ Z.abs (addDays d c) <= maxTime.
Proof.
  intros Hc Hh Hw. destruct (walking_near h c d Hc Hw) as (k & Hk & ->).
  unfold held, in_range, addDays, maxTime, msPerDay in *. nia.
Qed.

Lemma walking_step h c d hs :
  walking h c d → isWorkingDay d hs = true → walking h c (addDays d c).
Proof.
  intros (k & Hk & -> & Hw) Hwk. exists (k + 1). split; [lia|]. split.
  - unfold addDays. lia.
  - intros j Hj. destruct (Z.eq_dec j k) as [->|]; [|apply Hw; lia].
    unfold isWorkingDay in Hwk. apply andb_true_iff in Hwk as [Hwk _].
    by apply negb_true_iff in Hwk.
Qed.

Lemma walking_start h c : walking h c (addDays h c).
Proof.
  exists 1. split; [lia|]. split; [f_equal; lia | intros j Hj; lia].
Qed.

(** In range, the backward walk of the engine is the one of the embedding. *)
Lemma js_walk_before fuel h hs before d :
  in_range h → Forall in_range hs →
  while fuel (λ '(before, d), isWorkingDay d hs)
    (λ '(before, d), (normalize d :: before, addDays d (-1)))
    ([], addDays h (-1)) = Some (before, d) →
  while fuel (λ '(before, d), Js.isWorkingDay d (map Some hs))
    (λ '(before, d), (Js.normalize d :: before, Js.addDays d (-1)))
    ([], Js.addDays (Some h) (-1)) = Some (map Some before, Some d).
Proof.
  intros Hh Hhs H.
  assert (Hheld : Forall held hs) by (eapply Forall_impl; [done | apply in_range_held]).
  destruct (walking_held h (-1) _ ltac:(by right) Hh (walking_start h (-1))) as [_ H0].
  rewrite js_addDays_Some.
  2:{ unfold in_range, addDays, maxTime, msPerDay in *. lia. }
  apply (while_sim (λ st : list Date * Date, (map Some st.1, Some st.2)) _ _ _ _
           (λ st, walking h (-1) st.2) fuel ([], addDays h (-1)) (before, d) H).
  - apply walking_start.
  - intros [b x] Hw Hc. by eapply walking_step.
  - intros [b x] Hw. cbn [fst snd] in *.
    destruct (walking_held h (-1) x ltac:(by right) Hh Hw) as [Hx _].
    by apply js_isWorkingDay_Some.
  - intros [b x] Hw Hc. cbn [fst snd] in *.
    destruct (walking_held h (-1) x ltac:(by right) Hh Hw) as [Hx Hx'].
    unfold Js.normalize, normalize.
    by rewrite (js_startOfDay_Some x Hx), (js_addDays_Some x (-1) Hx').
Qed.

Lemma js_walk_after fuel h hs after d :
  in_range h → Forall in_range hs →
  while fuel (λ '(after, d), isWorkingDay d hs)
    (λ '(after, d), (after ++ [normalize d], addDays d 1))
    ([], addDays h 1) = Some (after, d) →
  while fuel (λ '(after, d), Js.isWorkingDay d (map Some hs))
    (λ '(after, d), (after ++ [Js.normalize d], Js.addDays d 1))
    ([], Js.addDays (Some h) 1) = Some (map Some after, Some d).
Proof.
  intros Hh Hhs H.
  assert (Hheld : Forall held hs) by (eapply Forall_impl; [done | apply in_range_held]).
  rewrite js_addDays_Some.
  2:{ unfold in_range, addDays, maxTime, msPerDay in *. lia. }
  apply (while_sim (λ st : list Date * Date, (map Some st.1, Some st.2)) _ _ _ _
           (λ st, walking h 1 st.2) fuel ([], addDays h 1) (after, d) H).
  - apply walking_start.
  - intros [b x] Hw Hc. by eapply walking_step.
  - intros [b x] Hw. cbn [fst snd] in *.
    destruct (walking_held h 1 x ltac:(by left) Hh Hw) as [Hx _].
    by apply js_isWorkingDay_Some.
  - intros [b x] Hw Hc. cbn [fst snd] in *.
    destruct (walking_held h 1 x ltac:(by left) Hh Hw) as [Hx Hx'].
    unfold Js.normalize, normalize.
    by rewrite map_app, (js_startOfDay_Some x Hx), (js_addDays_Some x 1 Hx').
Qed.

(** In range, the two walks return in the engine, with dates it holds. *)
Lemma js_walks_return h hs :
  in_range h → Forall in_range hs →
  ∃ N before after,
    returns (λ fuel, Js.walks fuel (Some h) (map Some hs)) N
      (map Some before, map Some after).
Proof.
  intros Hh Hhs. unfold Js.walks. rewrite js_isWeekend_Some.
  destruct (isWeekend h); [by exists 0%nat, [], []|].
  destruct (walk_before_returns (addDays h (-1)) hs) as (N1 & [before d1] & H1).
  destruct (walk_after_returns (addDays h 1) hs) as (N2 & [after d2] & H2).
  exists (N1 + N2)%nat, before, after. intros fuel Hf.
  rewrite (js_walk_before fuel h hs before d1 Hh Hhs (H1 fuel ltac:(lia))).
  cbn [mbind option_bind].
  rewrite (js_walk_after fuel h hs after d2 Hh Hhs (H2 fuel ltac:(lia))).
  done.
Qed.

(** ** Where the expansion stops *)

Lemma expansion_midnight fuel hs ls c x r :
  while fuel (λ x, isOffDay hs ls (addDays x c)) (λ x, addDays x c) (normalize x)
    = Some r →
  startOfDay r = r.
Proof.
  intros H.
  apply (while_inv _ _ (λ y, startOfDay y = y)) in H as [H _]; [done| |].
  - unfold normalize. apply startOfDay_idem.
  - intros y Hy _. by rewrite startOfDay_addDays, Hy.
Qed.

Lemma extendToFullVacation_midnight fuel lds hs anchor s e :
  extendToFullVacation fuel lds hs anchor = Some (s, e) →
  startOfDay s = s ∧ startOfDay e = e.
Proof.
  unfold extendToFullVacation. intros H.
  destruct (while fuel _ _ (normalize (foldl (λ a b, if a <? b then a else b) anchor lds)))
    as [s'|] eqn:Hs; simpl in H; [|done].
  destruct (while fuel _ _ (normalize (foldl (λ a b, if b <? a then a else b) anchor lds)))
    as [e'|] eqn:He; simpl in H; [|done].
  simplify_eq. split; by eapply expansion_midnight.
Qed.

(** The span ends within two days of the dates it was built from. *)
Lemma extendToFullVacation_near fuel lds hs anchor s e lo hi :
  extendToFullVacation fuel lds hs anchor = Some (s, e) →
  (∀ x, x ∈ anchor :: lds ++ hs → lo <= dayNumber x <= hi) →
  startOfDay s = s ∧ startOfDay e = e ∧ lo - 2 <= dayNumber s ∧ dayNumber e <= hi + 2.
Proof.
  intros H Hb.
  pose proof (extendToFullVacation_spec _ _ _ _ _ _ H) as (Ha & _ & _ & _).
  pose proof (Hb anchor ltac:(by left)) as Hanchor.
  assert (Hm0 : lo <= dayNumber (foldl (λ a b, if a <? b then a else b) anchor lds)).
  { pose proof (fold_earliest_in anchor lds) as Hin.
    apply Hb. apply elem_of_cons in Hin as [->|Hin]; [by left|].
    right. apply elem_of_app. by left. }
  assert (HM0 : dayNumber (foldl (λ a b, if b <? a then a else b) anchor lds) <= hi).
  { pose proof (fold_latest_in anchor lds) as Hin.
    apply Hb. apply elem_of_cons in Hin as [->|Hin]; [by left|].
    right. apply elem_of_app. by left. }
  assert (Hoff : ∀ t, (t + 4) mod 7 ≠ 0 → (t + 4) mod 7 ≠ 6 →
                 t < lo ∨ hi < t →
                 isOffDay hs (list_to_set (map format_ymd lds)) (day t) = false).
  { intros t H0 H6 Ht. apply isOffDay_false; rewrite dayNumber_day; try done.
    intros x Hx. specialize (Hb x ltac:(by right; rewrite elem_of_app in *; tauto)).
    lia. }
  destruct (extendToFullVacation_midnight _ _ _ _ _ _ H) as [Hs He].
  split; [done|]. split; [done|]. split.
  - destruct (Z.le_gt_cases (lo - 2) (dayNumber s)) as [|Hlt]; [done|exfalso].
    destruct (weekday_above (dayNumber s)) as (t & Ht & H0 & H6).
    destruct (extendToFullVacation_filled _ _ _ _ _ _ (day t) H) as [Hin|Hon].
    + rewrite dayNumber_day. lia.
    + rewrite dayNumber_day in Hin. lia.
    + rewrite Hoff in Hon; [done|done|done|lia].
  - destruct (Z.le_gt_cases (dayNumber e) (hi + 2)) as [|Hlt]; [done|exfalso].
    destruct (weekday_below (dayNumber e)) as (t & Ht & H0 & H6).
    destruct (extendToFullVacation_filled _ _ _ _ _ _ (day t) H) as [Hin|Hon].
    + rewrite dayNumber_day. lia.
    + rewrite dayNumber_day in Hin. lia.
    + rewrite Hoff in Hon; [done|done|done|lia].
Qed.

Lemma in_range_days d :
  in_range d → - 100000000 + 14 <= dayNumber d <= 100000000 - 14.
Proof.
  unfold in_range, dayNumber, maxTime, msPerDay. intros [H1 H2]. split.
  - apply Z.div_le_lower_bound; lia.
  - apply Z.div_le_upper_bound; lia.
Qed.

(** In range, the days that the expansion loops test are dates that the
    engine holds. *)
Lemma extendToFullVacation_held fuel lds hs anchor s e :
  extendToFullVacation fuel lds hs anchor = Some (s, e) →
  Forall in_range (anchor :: lds ++ hs) →
  held (addDays s (-1)) ∧ held (addDays e 1).
Proof.
  intros H Hr.
  destruct (extendToFullVacation_near fuel lds hs anchor s e
              (- 100000000 + 14) (100000000 - 14) H) as (Hs & He & Hlo & Hhi).
  { intros x Hx. apply in_range_days. by eapply Forall_forall in Hr. }
  pose proof (extendToFullVacation_spec _ _ _ _ _ _ H) as (Ha & _ & _ & _).
  pose proof (in_range_days anchor ltac:(by eapply Forall_forall in Hr; [|by left])).
  rewrite <- Hs, <- He. rewrite !startOfDay_day.
  unfold held, addDays, maxTime, msPerDay. lia.
Qed.

(** In the engine a date below the range is an Invalid Date, and an Invalid
    Date is a working day for ever: the walk that reaches one goes on. *)
Lemma js_invalid_working hs : Js.isWorkingDay None hs = true.
Proof.
  assert (H : Js.isHoliday None hs = false).
  { unfold Js.isHoliday. induction hs as [|h hs' IH]; [done|].
    cbn [existsb]. rewrite IH. unfold Js.isSameDay. cbn.
    by destruct (Js.startOfDay h). }
  unfold Js.isWorkingDay. by rewrite H.
Qed.

Lemma js_walk_invalid fuel (push : list Js.Date → Js.Date → list Js.Date)
    (c : Z) hs (acc : list Js.Date) :
  while fuel (λ '(acc, d), Js.isWorkingDay d hs)
    (λ '(acc, d), (push acc d, Js.addDays d c)) (acc, (None : Js.Date)) = None.
Proof.
  revert acc. induction fuel as [|fuel IH]; intros acc; [done|].
  cbn [while]. rewrite js_invalid_working. apply IH.
Qed.

(** C6 fails at the first date of the range, 100 000 000 days before the
    epoch, a Tuesday: the day before it is an Invalid Date, and the backward
    walk of [findOpportunitiesAroundHoliday], which [optimizeLeaves] runs on
    that date for the list that holds it alone, never ends. *)
Lemma optimizeLeaves_total_counterexample :
  Js.normalize (Some (- maxTime)) = Some (- maxTime) ∧
  Js.isWeekend (Some (- maxTime)) = false ∧
  ∀ fuel, Js.walks fuel (Some (- maxTime)) [Some (- maxTime)] = None.
Proof.
  split; [vm_compute; reflexivity|]. split; [vm_compute; reflexivity|].
  intros fuel. unfold Js.walks.
  replace (Js.isWeekend (Some (- maxTime))) with false by (vm_compute; reflexivity).
  replace (Js.addDays (Some (- maxTime)) (-1)) with (@None Z) by (vm_compute; reflexivity).
  by rewrite (js_walk_invalid fuel (λ acc d, Js.normalize d :: acc)).
Qed.

(** Going back from the day before [h], the walk stops within the week. *)
Lemma walk_before_stops h hs :
  ∃ N before d,
    returns (λ fuel, while fuel (λ '(before, d), isWorkingDay d hs)
      (λ '(before, d), (normalize d :: before, addDays d (-1)))
      ([], addDays h (-1))) N (before, d) ∧
    isWorkingDay d hs = false ∧ dayNumber h - 7 <= dayNumber d < dayNumber h.
Proof.
  destruct (walk_before_returns (addDays h (-1)) hs) as (N & [before d] & Hr).
  exists N, before, d. split; [done|].
  destruct (walk_before_days _ _ _ _ _ (Hr N (le_n N))) as (Hel & Hd & Hw).
  split; [done|].
  pose proof (getDay_range (addDays h (-1))) as Hg.
  pose proof (sunday_before (addDays h (-1))) as Hsun.
  set (g := getDay (addDays h (-1))) in *.
  enough (Z.of_nat (length before) <= g) by lia.
  destruct (Z.le_gt_cases (Z.of_nat (length before)) g) as [|Hgt]; [done|exfalso].
  assert (Hj : (Z.to_nat (Z.of_nat (length before) - 1 - g) < length before)%nat) by lia.
  destruct (lookup_lt_is_Some_2 _ _ Hj) as [x Hx].
  destruct (Hel _ _ Hx) as (_ & Hwk & Hdx).
  unfold isWorkingDay in Hwk. apply andb_true_iff in Hwk as [Hwk _].
  apply negb_true_iff in Hwk.
  rewrite (isWeekend_day x (addDays (addDays h (-1)) (- g))) in Hwk; [congruence|].
  rewrite Hdx, !dayNumber_addDays. lia.
Qed.

(** Going on from the day after [h], the walk stops within the week. *)
Lemma walk_after_stops h hs :
  ∃ N after d,
    returns (λ fuel, while fuel (λ '(after, d), isWorkingDay d hs)
      (λ '(after, d), (after ++ [normalize d], addDays d 1))
      ([], addDays h 1)) N (after, d) ∧
    isWorkingDay d hs = false ∧ dayNumber h < dayNumber d <= dayNumber h + 7.
Proof.
  destruct (walk_after_returns (addDays h 1) hs) as (N & [after d] & Hr).
  exists N, after, d. split; [done|].
  destruct (walk_after_days _ _ _ _ _ (Hr N (le_n N))) as (Hel & Hd & Hw).
  split; [done|].
  pose proof (getDay_range (addDays h 1)) as Hg.
  pose proof (saturday_after (addDays h 1)) as Hsat.
  set (g := getDay (addDays h 1)) in *.
  enough (Z.of_nat (length after) <= 6 - g) by lia.
  destruct (Z.le_gt_cases (Z.of_nat (length after)) (6 - g)) as [|Hgt]; [done|exfalso].
  assert (Hj : (Z.to_nat (6 - g) < length after)%nat) by lia.
  destruct (lookup_lt_is_Some_2 _ _ Hj) as [x Hx].
  destruct (Hel _ _ Hx) as (_ & Hwk & Hdx).
  unfold isWorkingDay in Hwk. apply andb_true_iff in Hwk as [Hwk _].
  apply negb_true_iff in Hwk.
  rewrite (isWeekend_day x (addDays (addDays h 1) (6 - g))) in Hwk; [congruence|].
  rewrite Hdx, !dayNumber_addDays. lia.
Qed.

(** C6 (amended). For dates that are two weeks or more inside the range of
    [Date], every budget and both flags, [optimizeLeaves] returns a result
    from some amount of fuel on, and so does
    [findOpportunitiesAroundHoliday].  Its two walks stop within a week of
    the holiday, at a day that is not a working day, and they return in the
    arithmetic of the engine as well, with dates that it holds.  The two
    expansion loops of [extendToFullVacation] stop at days that are no
    off-days and that the engine holds. *)
Theorem optimizeLeaves_total hs n s p h lds anchor :
  Forall in_range (h :: anchor :: lds ++ hs) →
  (∃ N r, returns (λ fuel, optimizeLeaves fuel hs n s p) N r) ∧
  (∃ N os, returns (λ fuel, findOpportunitiesAroundHoliday fuel h hs) N os) ∧
  (∃ N before d,
     returns (λ fuel, while fuel (λ '(before, d), isWorkingDay d hs)
       (λ '(before, d), (normalize d :: before, addDays d (-1)))
       ([], addDays h (-1))) N (before, d) ∧
     isWorkingDay d hs = false ∧ dayNumber h - 7 <= dayNumber d < dayNumber h) ∧
  (∃ N after d,
     returns (λ fuel, while fuel (λ '(after, d), isWorkingDay d hs)
       (λ '(after, d), (after ++ [normalize d], addDays d 1))
       ([], addDays h 1)) N (after, d) ∧
     isWorkingDay d hs = false ∧ dayNumber h < dayNumber d <= dayNumber h + 7) ∧
  (∃ N before after,
     returns (λ fuel, Js.walks fuel (Some h) (map Some hs)) N
       (map Some before, map Some after)) ∧
  (∃ N start end_,
     returns (λ fuel, extendToFullVacation fuel lds hs anchor) N (start, end_) ∧
     isOffDay hs (list_to_set (map format_ymd lds)) (addDays start (-1)) = false ∧
     isOffDay hs (list_to_set (map format_ymd lds)) (addDays end_ 1) = false ∧
     held (addDays start (-1)) ∧ held (addDays end_ 1)).
Proof.
  intros Hr. pose proof Hr as Hr'.
  apply Forall_cons in Hr' as [Hh Hrest].
  pose proof Hrest as Hrest'. apply Forall_cons in Hrest' as [_ Hl].
  apply Forall_app in Hl as [_ Hhs].
  split; [|split; [|split; [|split; [|split]]]].
  - destruct (mapM_returns
      (λ fuel h, findOpportunitiesAroundHoliday fuel h (normalizedHolidays hs))
      (normalizedHolidays hs)) as (N & found & Hm).
    { intros h'. apply findOpportunitiesAroundHoliday_returns. }
    destruct ((length hs =? 0)%nat || (n <=? 0)) eqn:Hg.
    + exists 0%nat, (emptyResult n). intros fuel _.
      rewrite optimizeLeaves_unfold. by rewrite Hg.
    + eexists N, _. intros fuel Hf.
      rewrite optimizeLeaves_unfold, Hg. unfold candidates.
      rewrite (Hm fuel Hf). done.
  - apply findOpportunitiesAroundHoliday_returns.
  - apply walk_before_stops.
  - apply walk_after_stops.
  - by apply js_walks_return.
  - destruct (extendToFullVacation_returns lds hs anchor) as (N & [start end_] & H).
    exists N, start, end_. split; [done|].
    destruct (extendToFullVacation_spec _ _ _ _ _ _ (H N (le_n N))) as (_ & _ & H1 & H2).
    destruct (extendToFullVacation_held _ _ _ _ _ _ (H N (le_n N)) Hrest) as [H3 H4].
    done.
Qed.

Lemma optimizeLeaves_total_witness :
  Forall in_range (day 20454 :: day 20454 :: [day 20455] ++ holidays2026) ∧
  ∃ N r, returns (λ fuel, optimizeLeaves fuel holidays2026 8 false true) N r.
Proof.
  assert (H : Forall in_range (day 20454 :: day 20454 :: [day 20455] ++ holidays2026)).
  { repeat constructor; vm_compute; discriminate. }
  split; [exact H|].
  exact (proj1 (optimizeLeaves_total holidays2026 8 false true
                  (day 20454) [day 20455] (day 20454) H)).
Defined.

(** ** Duplicate holidays *)

(** C2. Duplicate holidays never change the output: the result for a list
    of holidays is the result for that list with its duplicate calendar days
    removed. *)
Theorem duplicate_holidays fuel hs n s p :
  optimizeLeaves fuel hs n s p = optimizeLeaves fuel (dedupDays hs) n s p.
Proof.
  rewrite !optimizeLeaves_unfold.
  assert (Hlen : (length (dedupDays hs) =? 0)%nat = (length hs =? 0)%nat)
    by (by destruct hs).
  rewrite Hlen. destruct (_ || _); [done|].
  pose proof (candidates_dedupDays fuel hs p) as Hc.
  destruct (candidates fuel hs p) as [cands|] eqn:E1;
    destruct (candidates fuel (dedupDays hs) p) as [cands'|] eqn:E2;
    simpl; try done.
  do 2 f_equal.
  rewrite <- (select_firsts n cands) by (intros o; by eapply candidates_nonempty).
  rewrite <- (select_firsts n cands') by (intros o; by eapply candidates_nonempty).
  by rewrite Hc.
Qed.

(** * More of the optimizer *)

(** ** The shape of a candidate *)

Lemma length_slice_last {A} (n : nat) (l : list A) :
  length (slice_last n l) = Nat.min n (length l).
Proof. unfold slice_last. rewrite length_drop. lia. Qed.

Lemma length_slice_first {A} (n : nat) (l : list A) :
  length (slice_first n l) = Nat.min n (length l).
Proof. unfold slice_first. by rewrite length_take. Qed.

Lemma block_before h before :
  (∀ (j : nat) x, before !! j = Some x →
     startOfDay x = x ∧
     dayNumber x = dayNumber h - Z.of_nat (length before) + Z.of_nat j) →
  block h (length (slice_last 3 before)) 0 (slice_last 3 before).
Proof.
  intros Hel. pose proof (length_slice_last 3 before) as Hlen.
  split; [lia|]. split; [lia|]. split; [lia|].
  intros j x Hj. pose proof (lookup_lt_Some _ _ _ Hj) as Hlt.
  unfold slice_last in Hj. rewrite lookup_drop in Hj.
  destruct (Hel _ _ Hj) as [Hn Hd]. split; [done|].
  destruct (Nat.ltb_spec j (length (slice_last 3 before))); lia.
Qed.

Lemma block_after h after :
  (∀ (j : nat) x, after !! j = Some x →
     startOfDay x = x ∧ dayNumber x = dayNumber h + 1 + Z.of_nat j) →
  block h 0 (length (slice_first 3 after)) (slice_first 3 after).
Proof.
  intros Hel. pose proof (length_slice_first 3 after) as Hlen.
  split; [lia|]. split; [lia|]. split; [lia|].
  intros j x Hj. unfold slice_first in Hj.
  apply lookup_take_Some in Hj as [Hj _].
  destruct (Hel _ _ Hj) as [Hn Hd]. split; [done|].
  simpl. rewrite Nat.sub_0_r. done.
Qed.

Lemma block_app h kb ka b a :
  block h kb 0 b → block h 0 ka a → block h kb ka (b ++ a).
Proof.
  intros (Hkb & _ & Hlb & Hb) (_ & Hka & Hla & Ha).
  split; [done|]. split; [done|]. split; [rewrite length_app; lia|].
  intros j x Hj. apply lookup_app_Some in Hj as [Hj|[Hge Hj]].
  - pose proof (lookup_lt_Some _ _ _ Hj) as Hlt.
    destruct (Hb _ _ Hj) as [Hn Hd]. split; [done|].
    rewrite Hd. destruct (Nat.ltb_spec j kb); [|lia].
    destruct (Nat.ltb_spec j kb); [done | lia].
  - destruct (Ha _ _ Hj) as [Hn Hd]. split; [done|].
    rewrite Hd. simpl. rewrite Nat.sub_0_r.
    destruct (Nat.ltb_spec j kb); [lia|]. by replace kb with (length b) by lia.
Qed.

Lemma block_days h kb ka lds x :
  block h kb ka lds → x ∈ lds →
  startOfDay x = x ∧
  dayNumber h - Z.of_nat kb <= dayNumber x <= dayNumber h + Z.of_nat ka ∧
  dayNumber x ≠ dayNumber h.
Proof.
  intros (Hkb & Hka & Hlen & Hel) [j Hj]%list_elem_of_lookup.
  pose proof (lookup_lt_Some _ _ _ Hj) as Hlt.
  destruct (Hel _ _ Hj) as [Hn Hd]. split; [done|].
  destruct (Nat.ltb_spec j kb); lia.
Qed.


Lemma block_NoDup h kb ka lds :
  block h kb ka lds → NoDup (map dayNumber lds).
Proof.
  intros (Hkb & Hka & Hlen & Hel). apply NoDup_alt.
  intros i j n Hi Hj. rewrite lookup_map in Hi, Hj.
  destruct (lds !! i) as [x|] eqn:Ex; [|done].
  destruct (lds !! j) as [y|] eqn:Ey; [|done].
  simpl in Hi, Hj. simplify_eq.
  pose proof (lookup_lt_Some _ _ _ Ex). pose proof (lookup_lt_Some _ _ _ Ey).
  destruct (Hel _ _ Ex) as [_ Hx]. destruct (Hel _ _ Ey) as [_ Hy].
  destruct (Nat.ltb_spec i kb); destruct (Nat.ltb_spec j kb); lia.
Qed.

Lemma block_length h kb ka lds : block h kb ka lds → (length lds ≤ 6)%nat.
Proof. intros (Hkb & Hka & Hlen & _). lia. Qed.

(** What [findOpportunitiesAroundHoliday] does around a holiday that is not on
    a weekend: two walks and three calls of [buildOpportunity]. *)
Lemma findOpportunitiesAroundHoliday_steps fuel h hs os :
  findOpportunitiesAroundHoliday fuel h hs = Some os →
  isWeekend h = false →
  ∃ before d1 after d2 bo ao co,
    while fuel (λ '(before, d), isWorkingDay d hs)
      (λ '(before, d), (normalize d :: before, addDays d (-1)))
      ([], addDays h (-1)) = Some (before, d1) ∧
    while fuel (λ '(after, d), isWorkingDay d hs)
      (λ '(after, d), (after ++ [normalize d], addDays d 1))
      ([], addDays h 1) = Some (after, d2) ∧
    buildOpportunity fuel (slice_last 3 before) hs h = Some bo ∧
    buildOpportunity fuel (slice_first 3 after) hs h = Some ao ∧
    buildOpportunity fuel (slice_last 3 before ++ slice_first 3 after) hs h = Some co ∧
    os = push_opt (push_opt (push_opt [] bo) ao) co.
Proof.
  unfold findOpportunitiesAroundHoliday. intros H Hw. rewrite Hw in H.
  destruct (while fuel _ _ ([], addDays h (-1))) as [[before d1]|] eqn:Hb;
    simpl in H; [|done].
  destruct (while fuel _ _ ([], addDays h 1)) as [[after d2]|] eqn:Ha;
    simpl in H; [|done].
  destruct (buildOpportunity fuel (slice_last 3 before) hs h) as [bo|] eqn:Hbo;
    simpl in H; [|done].
  destruct (buildOpportunity fuel (slice_first 3 after) hs h) as [ao|] eqn:Hao;
    simpl in H; [|done].
  destruct (buildOpportunity fuel (slice_last 3 before ++ slice_first 3 after) hs h)
    as [co|] eqn:Hco; simpl in H; [|done].
  simplify_eq. by exists before, d1, after, d2, bo, ao, co.
Qed.

Lemma findOpportunitiesAroundHoliday_block fuel h hs os o :
  findOpportunitiesAroundHoliday fuel h hs = Some os →
  o ∈ os →
  isWeekend h = false ∧ ∃ kb ka, block h kb ka (opp_leaveDates o).
Proof.
  intros H Ho. destruct (isWeekend h) eqn:Hw.
  { unfold findOpportunitiesAroundHoliday in H. rewrite Hw in H.
    simplify_eq. inversion Ho. }
  split; [done|].
  destruct (findOpportunitiesAroundHoliday_steps _ _ _ _ H Hw)
    as (before & d1 & after & d2 & bo & ao & co & Hb & Ha & Hbo & Hao & Hco & ->).
  apply walk_before_days in Hb as (Hb & _ & _).
  apply walk_after_days in Ha as (Ha & _ & _).
  assert (Bb : block h (length (slice_last 3 before)) 0 (slice_last 3 before)).
  { apply block_before. intros j x Hj. destruct (Hb j x Hj) as (?&?&?). done. }
  assert (Ba : block h 0 (length (slice_first 3 after)) (slice_first 3 after)).
  { apply block_after. intros j x Hj. destruct (Ha j x Hj) as (?&?&?). done. }
  rewrite !elem_of_push_opt in Ho.
  destruct Ho as [[[Ho| ->]| ->]| ->]; [inversion Ho|..].
  - apply buildOpportunity_wf in Hbo as [-> _]. eauto.
  - apply buildOpportunity_wf in Hao as [-> _]. eauto.
  - apply buildOpportunity_wf in Hco as [-> _].
    eexists _, _. by apply block_app.
Qed.

(** ** The span is filled *)

Lemma buildOpportunity_inv fuel lds hs anchor o :
  buildOpportunity fuel lds hs anchor = Some (Some o) →
  opp_leaveDates o = lds ∧
  lds ≠ [] ∧
  exceedsMaxConsecutiveLeaves lds hs 3 = false ∧
  hasHolidayAnchor lds hs = true ∧
  extendToFullVacation fuel lds hs anchor = Some (opp_startDate o, opp_endDate o).
Proof.
  unfold buildOpportunity. intros H.
  destruct (_ || _ || _) eqn:Hchk; [done|].
  apply orb_false_iff in Hchk as [Hchk Hanchor].
  apply orb_false_iff in Hchk as [Hlen Hex].
  apply negb_false_iff in Hanchor.
  destruct (extendToFullVacation fuel lds hs anchor) as [[s e]|] eqn:Hext;
    simpl in H; [|done].
  destruct (getDateRange fuel s e) as [r|] eqn:Hr; simpl in H; [|done].
  simplify_eq. simpl. repeat split; try done.
  intros ->. done.
Qed.

Lemma findOpportunitiesAroundHoliday_built fuel h hs os o :
  findOpportunitiesAroundHoliday fuel h hs = Some os →
  o ∈ os →
  buildOpportunity fuel (opp_leaveDates o) hs h = Some (Some o).
Proof.
  intros H Ho. destruct (isWeekend h) eqn:Hw.
  { unfold findOpportunitiesAroundHoliday in H. rewrite Hw in H.
    simplify_eq. inversion Ho. }
  destruct (findOpportunitiesAroundHoliday_steps _ _ _ _ H Hw)
    as (before & d1 & after & d2 & bo & ao & co & Hb & Ha & Hbo & Hao & Hco & ->).
  rewrite !elem_of_push_opt in Ho.
  destruct Ho as [[[Ho| ->]| ->]| ->]; [inversion Ho|..].
  - pose proof Hbo as Hbo'. apply buildOpportunity_wf in Hbo' as [-> _]. done.
  - pose proof Hao as Hao'. apply buildOpportunity_wf in Hao' as [-> _]. done.
  - pose proof Hco as Hco'. apply buildOpportunity_wf in Hco' as [-> _]. done.
Qed.

Lemma candidates_origin fuel hs p cands o :
  candidates fuel hs p = Some cands →
  o ∈ cands →
  ∃ h os, h ∈ normalizedHolidays hs ∧
    findOpportunitiesAroundHoliday fuel h (normalizedHolidays hs) = Some os ∧
    o ∈ os.
Proof.
  unfold candidates. intros H Ho.
  destruct (mapM _ _) as [found|] eqn:Hm; simpl in H; [|done].
  simplify_eq.
  apply elem_of_js_sort, elem_of_concat in Ho as (os & Ho & Hos).
  apply mapM_Some_1 in Hm.
  apply list_elem_of_lookup in Hos as [i Hi].
  destruct (Forall2_lookup_r _ _ _ _ _ Hm Hi) as (h & Hh & Hf).
  exists h, os. split; [by eapply list_elem_of_lookup_2 | done].
Qed.


(** A recommendation, the candidate it comes from and the holiday around
    which the candidate was found. *)
Lemma recommendation_origin fuel hs n s p r rec :
  optimizeLeaves fuel hs n s p = Some r →
  rec ∈ recommendations r →
  ∃ o h os, rec = toRecommendation o ∧
    h ∈ normalizedHolidays hs ∧
    findOpportunitiesAroundHoliday fuel h (normalizedHolidays hs) = Some os ∧
    o ∈ os.
Proof.
  intros H Hrec.
  apply optimizeLeaves_cases in H as [->|(cands & st & Hc & Hinv & ->)].
  { inversion Hrec. }
  simpl in Hrec. apply elem_of_map in Hrec as (o & -> & Ho).
  apply (inv_from _ _ Hinv) in Ho.
  destruct (candidates_origin _ _ _ _ _ Hc Ho) as (h & os & Hh & Hf & Hos).
  by exists o, h, os.
Qed.




(** ** More on the greedy scan *)

(** The scan only adds to [selected], in the order of the candidates. *)
Lemma select_all_sublist n (l : list Opportunity) st :
  ∃ l', selected (foldl (select_step n) st l) = selected st ++ l' ∧ l' `sublist_of` l.
Proof.
  revert st. induction l as [|x l IH]; intros st; simpl.
  - exists []. by rewrite app_nil_r.
  - destruct (IH (select_step n st x)) as (l' & E & Hsub). rewrite E.
    unfold select_step. destruct (_ || _); simpl.
    + exists l'. split; [done | by apply sublist_cons].
    + exists (x :: l'). rewrite <- app_assoc. split; [done | by apply sublist_skip].
Qed.

Lemma select_all_bounds n (l : list Opportunity) st :
  0 <= usedLeaves st <= n →
  0 <= usedLeaves (foldl (select_step n) st l) <= n.
Proof.
  intros H0. apply (foldl_invariant (λ st, 0 <= usedLeaves st <= n)); [done|].
  intros st' x Hst _. unfold select_step.
  destruct (_ || _) eqn:E; [done|]. simpl.
  apply orb_false_iff in E as [_ E]. apply Z.ltb_ge in E. lia.
Qed.

(** At the end of the scan every candidate is one that the test passes
    over. *)
Lemma select_all_rejected n (l : list Opportunity) st c :
  (∀ o, o ∈ l → opp_leaveDates o ≠ []) →
  c ∈ l →
  rejected n (foldl (select_step n) st l) c = true.
Proof.
  revert st. induction l as [|x l IH]; intros st Hne Hc; [inversion Hc|].
  simpl. apply elem_of_cons in Hc as [->|Hc].
  - assert (Hx : rejected n (select_step n st x) x = true).
    { apply rejected_after, Hne. by left. }
    revert Hx. generalize (select_step n st x). clear.
    induction l as [|y l IH]; intros st Hx; [done|].
    simpl. apply IH. by apply rejected_mono.
  - apply IH; [|done]. intros o Ho. apply Hne. by right.
Qed.

Lemma rejected_spec n cands st c :
  selection_inv cands st →
  rejected n st c = true →
  (∃ o, o ∈ selected st ∧ ∃ k, k ∈ keys_of o ∧ k ∈ keys_of c) ∨
  n - usedLeaves st < Z.of_nat (length (opp_leaveDates c)).
Proof.
  intros Hinv [H|H]%orb_true_iff.
  - left. apply existsb_elem_of in H as (k & Hk & Hu).
    apply bool_decide_eq_true in Hu.
    apply (inv_used _ _ Hinv) in Hu as (o & Ho & Hko). eauto.
  - right. apply Z.ltb_lt in H. unfold keys_of in H.
    rewrite length_map in H. lia.
Qed.

(** X2. A budget that is not negative is never overdrawn: the leaves that
    remain are between 0 and the budget. *)
Theorem budget_not_overdrawn fuel hs n s p r :
  optimizeLeaves fuel hs n s p = Some r →
  0 <= n →
  0 <= leavesRemaining r <= n.
Proof.
  intros H Hn. rewrite optimizeLeaves_unfold in H.
  destruct (_ || _); [simplify_eq; simpl; lia|].
  destruct (candidates fuel hs p) as [cands|]; simpl in H; [|done].
  simplify_eq. simpl.
  pose proof (select_all_bounds n cands
    {| used := ∅; selected := []; usedLeaves := 0 |}) as Hb.
  simpl in Hb. lia.
Qed.

Lemma budget_not_overdrawn_witness :
  0 <= leavesRemaining run_2026 <= 8.
Proof.
  apply (budget_not_overdrawn 20 holidays2026 8 false true run_2026).
  - vm_compute; reflexivity.
  - lia.
Defined.

(** X3. For holidays from the year 1 on, where the keys of different days
    differ, the result is saturated: every candidate has a leave day in
    common with a recommendation, or needs more leaves than remain. *)
Theorem selection_saturated fuel hs n s p r cands c :
  Forall common_era hs →
  optimizeLeaves fuel hs n s p = Some r →
  candidates fuel hs p = Some cands →
  0 < n → hs ≠ [] →
  c ∈ cands →
  (∃ rec d1 d2, rec ∈ recommendations r ∧ d1 ∈ leaveDates rec ∧
     d2 ∈ opp_leaveDates c ∧ format_ymd d1 = format_ymd d2) ∨
  leavesRemaining r < Z.of_nat (length (opp_leaveDates c)).
Proof.
  intros _ H Hc Hn Hhs Hin. rewrite optimizeLeaves_unfold, Hc in H.
  destruct (Z.leb_spec n 0); [lia|].
  destruct hs as [|h0 hs]; [done|]. simpl in H. simplify_eq.
  set (st := foldl (select_step n) {| used := ∅; selected := []; usedLeaves := 0 |} cands).
  pose proof (select_all_inv cands n) as Hinv. fold st in Hinv.
  assert (Hrej : rejected n st c = true).
  { apply select_all_rejected; [|done].
    intros o Ho. by eapply candidates_nonempty. }
  destruct (rejected_spec _ _ _ _ Hinv Hrej) as [(o & Ho & k & Hk1 & Hk2)|Hlt].
  - left. apply elem_of_map in Hk1 as (d1 & -> & Hd1).
    apply elem_of_map in Hk2 as (d2 & E & Hd2).
    exists (toRecommendation o), d1, d2. simpl.
    split; [apply elem_of_map; eauto | done].
  - right. simpl. done.
Qed.

Lemma selection_saturated_witness :
  (∃ rec d1 d2, rec ∈ recommendations run_2026 ∧ d1 ∈ leaveDates rec ∧
     d2 ∈ opp_leaveDates bridge_2026 ∧ format_ymd d1 = format_ymd d2) ∨
  leavesRemaining run_2026 < Z.of_nat (length (opp_leaveDates bridge_2026)).
Proof.
  apply (selection_saturated 20 holidays2026 8 false true run_2026 cands_2026 bridge_2026).
  - repeat constructor; vm_compute; discriminate.
  - vm_compute; reflexivity.
  - vm_compute; reflexivity.
  - lia.
  - discriminate.
  - apply (bool_decide_unpack _). vm_compute. reflexivity.
Defined.

(** ** Inside a recommendation *)

Lemma recommendation_block fuel hs n s p r rec :
  optimizeLeaves fuel hs n s p = Some r →
  rec ∈ recommendations r →
  ∃ o h kb ka, rec = toRecommendation o ∧
    h ∈ normalizedHolidays hs ∧ isWeekend h = false ∧
    block h kb ka (opp_leaveDates o) ∧
    dayNumber (opp_startDate o) <= dayNumber h <= dayNumber (opp_endDate o) ∧
    opp_wf (normalizedHolidays hs) o.
Proof.
  intros H Hrec.
  destruct (recommendation_origin _ _ _ _ _ _ _ H Hrec) as (o & h & os & -> & Hh & Hf & Ho).
  destruct (findOpportunitiesAroundHoliday_block _ _ _ _ _ Hf Ho) as [Hw (kb & ka & Hb)].
  pose proof (findOpportunitiesAroundHoliday_built _ _ _ _ _ Hf Ho) as Hbuilt.
  pose proof Hbuilt as Hwf. apply buildOpportunity_wf in Hwf as [_ Hwf].
  apply buildOpportunity_inv in Hbuilt as (_ & _ & _ & _ & Hext).
  apply extendToFullVacation_spec in Hext as (Hanchor & _).
  by exists o, h, kb, ka.
Qed.

Lemma NoDup_bounded_length (l : list Z) a b :
  NoDup l → (∀ x, x ∈ l → a <= x <= b) → Z.of_nat (length l) <= Z.max 0 (b - a + 1).
Proof.
  intros Hnd Hl.
  assert (Hsub : l ⊆+ seqZ a (b - a + 1)).
  { apply NoDup_submseteq; [done|]. intros x Hx. apply elem_of_seqZ.
    specialize (Hl x Hx). lia. }
  apply submseteq_length in Hsub. rewrite length_seqZ in Hsub. lia.
Qed.

(** X4. Leave dates of a recommendation: between 1 and 6 of them, as many
    as [leavesUsed] says, at midnight and on pairwise different days. *)
Theorem leave_dates_distinct fuel hs n s p r rec :
  optimizeLeaves fuel hs n s p = Some r →
  rec ∈ recommendations r →
  leavesUsed rec = Z.of_nat (length (leaveDates rec)) ∧
  1 <= leavesUsed rec <= 6 ∧
  NoDup (map format_ymd (leaveDates rec)) ∧
  ∀ d, d ∈ leaveDates rec → startOfDay d = d.
Proof.
  intros H Hrec.
  destruct (recommendation_block _ _ _ _ _ _ _ H Hrec)
    as (o & h & kb & ka & -> & _ & _ & Hb & _ & Hwf).
  simpl. split; [done|].
  pose proof (block_length _ _ _ _ Hb). pose proof (wf_nonempty _ _ Hwf) as Hne.
  split; [destruct (opp_leaveDates o); [done | simpl in *; lia]|].
  split; [by eapply block_NoDup|].
  intros d Hd. by destruct (block_days _ _ _ _ _ Hb Hd).
Qed.

Lemma leave_dates_distinct_witness :
  4 = Z.of_nat (length [day 20451; day 20452; day 20453; day 20455]) ∧
  1 <= 4 <= 6 ∧
  NoDup (map format_ymd [day 20451; day 20452; day 20453; day 20455]) ∧
  ∀ d, d ∈ [day 20451; day 20452; day 20453; day 20455] → startOfDay d = d.
Proof.
  apply (leave_dates_distinct 20 holidays2026 8 false true run_2026
    {| leaveDates := [day 20451; day 20452; day 20453; day 20455];
       startDate := day 20449; endDate := day 20457;
       totalDays := 9; leavesUsed := 4;
       description := "Take 4 leave day(s) to get 9 continuous days off" |}).
  - vm_compute; reflexivity.
  - vm_compute. apply list_elem_of_here.
Defined.

(** X5. Every recommendation is built around a holiday of the input that is
    not on a weekend: the holiday lies in the span, every leave date is at
    most 3 days away from it and none is on it, so that the span has at
    least one day more than the leaves it costs. *)
Theorem recommendation_anchor fuel hs n s p r rec :
  optimizeLeaves fuel hs n s p = Some r →
  rec ∈ recommendations r →
  (∃ h, h ∈ hs ∧ isWeekend h = false ∧
     dayNumber (startDate rec) <= dayNumber h <= dayNumber (endDate rec) ∧
     ∀ d, d ∈ leaveDates rec → 1 <= Z.abs (dayNumber d - dayNumber h) <= 3) ∧
  leavesUsed rec < totalDays rec.
Proof.
  intros H Hrec.
  destruct (recommendation_block _ _ _ _ _ _ _ H Hrec)
    as (o & h & kb & ka & -> & Hh & Hw & Hb & Hin & Hwf).
  simpl. split.
  - apply elem_of_normalizedHolidays in Hh as (h0 & -> & Hh0).
    rewrite dayNumber_startOfDay in Hin.
    exists h0. split; [done|].
    split; [by rewrite <- (isWeekend_day (startOfDay h0) h0 (dayNumber_startOfDay h0))|].
    split; [done|]. intros d Hd.
    destruct (block_days _ _ _ _ _ Hb Hd) as (_ & Hr & Hne).
    destruct Hb as (Hkb & Hka & _). rewrite dayNumber_startOfDay in Hr, Hne. lia.
  - rewrite (wf_total _ _ Hwf).
    pose proof (NoDup_bounded_length
      (dayNumber h :: map dayNumber (opp_leaveDates o))
      (dayNumber (opp_startDate o)) (dayNumber (opp_endDate o))) as Hlen.
    simpl in Hlen. rewrite length_map in Hlen.
    enough (Z.of_nat (Datatypes.S (length (opp_leaveDates o)))
            <= Z.max 0 (dayNumber (opp_endDate o) - dayNumber (opp_startDate o) + 1))
      by lia.
    apply Hlen.
    + apply NoDup_cons. split; [|by eapply block_NoDup].
      intros (d & E & Hd)%elem_of_map.
      destruct (block_days _ _ _ _ _ Hb Hd) as (_ & _ & Hne). congruence.
    + intros x [->|(d & -> & Hd)%elem_of_map]%elem_of_cons; [done|].
      by apply (wf_span _ _ Hwf).
Qed.

Lemma recommendation_anchor_witness :
  (∃ h, h ∈ holidays2026 ∧ isWeekend h = false ∧
     dayNumber (day 20449) <= dayNumber h <= dayNumber (day 20457) ∧
     ∀ d, d ∈ [day 20451; day 20452; day 20453; day 20455] →
       1 <= Z.abs (dayNumber d - dayNumber h) <= 3) ∧
  4 < 9.
Proof.
  apply (recommendation_anchor 20 holidays2026 8 false true run_2026
    {| leaveDates := [day 20451; day 20452; day 20453; day 20455];
       startDate := day 20449; endDate := day 20457;
       totalDays := 9; leavesUsed := 4;
       description := "Take 4 leave day(s) to get 9 continuous days off" |}).
  - vm_compute; reflexivity.
  - vm_compute. apply list_elem_of_here.
Defined.

(** ** The totals of a result *)

Lemma NoDup_concat_disjoint {A} (ls : list (list A)) :
  (∀ l, l ∈ ls → NoDup l) →
  (∀ (i j : nat) a b, ls !! i = Some a → ls !! j = Some b → i ≠ j →
     ∀ k, k ∈ a → k ∈ b → False) →
  NoDup (concat ls).
Proof.
  induction ls as [|l ls IH]; intros Hnd Hdis; simpl; [constructor|].
  apply NoDup_app. split; [apply Hnd; by left|]. split.
  - intros x Hx (l' & Hx' & [j Hj]%list_elem_of_lookup)%elem_of_concat.
    by apply (Hdis 0%nat (Datatypes.S j) l l' eq_refl Hj ltac:(lia) x).
  - apply IH.
    + intros l' Hl'. apply Hnd. by right.
    + intros i j a b Hi Hj Hij.
      apply (Hdis (Datatypes.S i) (Datatypes.S j) a b Hi Hj). lia.
Qed.

Lemma candidates_block fuel hs p cands o :
  candidates fuel hs p = Some cands →
  o ∈ cands →
  ∃ h kb ka, block h kb ka (opp_leaveDates o).
Proof.
  intros Hc Ho.
  destruct (candidates_origin _ _ _ _ _ Hc Ho) as (h & os & _ & Hf & Hos).
  destruct (findOpportunitiesAroundHoliday_block _ _ _ _ _ Hf Hos) as [_ (kb & ka & Hb)].
  eauto.
Qed.

(** X6. For a budget of at most [2 ^ 53], where the code's subtraction is
    exact: [optimizedLeaves] lists the leave dates of the recommendations in
    their order, no calendar day twice, and together with the leaves that
    remain they make up the budget. *)
Theorem optimized_leaves_distinct fuel hs n s p r :
  n <= 2 ^ 53 →
  optimizeLeaves_double fuel hs n s p = Some r →
  optimizedLeaves r = concat (map leaveDates (recommendations r)) ∧
  NoDup (map format_ymd (optimizedLeaves r)) ∧
  Z.of_nat (length (optimizedLeaves r)) + leavesRemaining r = n.
Proof.
  intros Hn H. rewrite (optimizeLeaves_double_exact _ _ _ _ _ Hn) in H.
  apply optimizeLeaves_cases in H as [->|(cands & st & Hc & Hinv & ->)].
  { simpl. split; [done|]. split; [constructor | lia]. }
  simpl. split; [by rewrite map_map|]. split.
  - rewrite concat_map, map_map. apply NoDup_concat_disjoint.
    + intros l (o & -> & Ho)%elem_of_map.
      apply (inv_from _ _ Hinv) in Ho.
      destruct (candidates_block _ _ _ _ _ Hc Ho) as (h & kb & ka & Hb).
      by eapply block_NoDup.
    + intros i j a b Hi Hj Hij k Ha Hb.
      rewrite lookup_map in Hi, Hj.
      destruct (selected st !! i) as [oa|] eqn:Ea; [|done].
      destruct (selected st !! j) as [ob|] eqn:Eb; [|done].
      simpl in Hi, Hj. simplify_eq.
      by apply (inv_disjoint _ _ Hinv i j oa ob Ea Eb Hij k).
  - rewrite (inv_budget _ _ Hinv).
    enough (Z.of_nat (length (concat (map opp_leaveDates (selected st)))) =
            sum_list (map (λ o, Z.of_nat (length (opp_leaveDates o))) (selected st)))
      by lia.
    induction (selected st) as [|o l IH]; simpl; [done|].
    rewrite length_app, <- IH. lia.
Qed.

Lemma optimized_leaves_distinct_witness :
  optimizedLeaves run_2026 = concat (map leaveDates (recommendations run_2026)) ∧
  NoDup (map format_ymd (optimizedLeaves run_2026)) ∧
  Z.of_nat (length (optimizedLeaves run_2026)) + leavesRemaining run_2026 = 8.
Proof.
  apply (optimized_leaves_distinct 20 holidays2026 8 false true run_2026).
  - vm_compute; discriminate.
  - vm_compute; reflexivity.
Defined.

Lemma foldl_max_ge (l : list Z) a :
  a <= foldl Z.max a l ∧ ∀ x, x ∈ l → x <= foldl Z.max a l.
Proof.
  revert a. induction l as [|y l IH]; intros a; simpl.
  - split; [lia | intros x Hx; inversion Hx].
  - destruct (IH (Z.max a y)) as [H1 H2]. split; [lia|].
    intros x [->|Hx]%elem_of_cons; [lia | by apply H2].
Qed.

Lemma foldl_max_in (l : list Z) a :
  foldl Z.max a l = a ∨ foldl Z.max a l ∈ l.
Proof.
  revert a. induction l as [|y l IH]; intros a; simpl; [by left|].
  destruct (IH (Z.max a y)) as [E|Hin].
  - rewrite E. destruct (Z.max_spec a y) as [[_ ->]|[_ ->]]; [right; by left | by left].
  - right. by right.
Qed.

(** X7. [longestBreak] is the largest [totalDays] of the recommendations,
    0 when there is none, and [totalVacations] is their number. *)
Theorem longest_break_is_max fuel hs n s p r :
  optimizeLeaves fuel hs n s p = Some r →
  totalVacations r = Z.of_nat (length (recommendations r)) ∧
  (∀ rec, rec ∈ recommendations r → totalDays rec <= longestBreak r) ∧
  (recommendations r = [] ∧ longestBreak r = 0 ∨
   ∃ rec, rec ∈ recommendations r ∧ totalDays rec = longestBreak r).
Proof.
  intros H.
  pose proof (λ rec Hrec, recommendation_block _ _ _ _ _ _ rec H Hrec) as Hpos.
  apply optimizeLeaves_cases in H as [->|(cands & st & Hc & Hinv & ->)].
  { simpl. split; [done|]. split; [intros rec Hrec; inversion Hrec | by left]. }
  simpl in *. split; [done|].
  destruct (foldl_max_ge (map totalDays (map toRecommendation (selected st))) 0)
    as [H0 Hge].
  split.
  - intros rec Hrec. apply Hge, elem_of_map. eauto.
  - destruct (selected st) as [|o l] eqn:E; [by left | right].
    destruct (foldl_max_in (map totalDays (map toRecommendation (o :: l))) 0)
      as [E0|(rec & -> & Hrec)%elem_of_map]; [|eauto].
    exfalso.
    destruct (Hpos (toRecommendation o) ltac:(by left))
      as (o' & h & kb & ka & Eo & _ & _ & _ & Hin & Hwf).
    assert (Ht : totalDays (toRecommendation o) <= 0).
    { rewrite <- E0. apply Hge. simpl. by left. }
    rewrite Eo in Ht. simpl in Ht. rewrite (wf_total _ _ Hwf) in Ht. lia.
Qed.

Lemma longest_break_is_max_witness :
  totalVacations run_2026 = Z.of_nat (length (recommendations run_2026)) ∧
  (∀ rec, rec ∈ recommendations run_2026 → totalDays rec <= longestBreak run_2026) ∧
  (recommendations run_2026 = [] ∧ longestBreak run_2026 = 0 ∨
   ∃ rec, rec ∈ recommendations run_2026 ∧ totalDays rec = longestBreak run_2026).
Proof.
  apply (longest_break_is_max 20 holidays2026 8 false true run_2026).
  vm_compute; reflexivity.
Defined.

(** ** The order of the recommendations *)

Lemma StronglySorted_sublist {A} (R : relation A) (l k : list A) :
  l `sublist_of` k → StronglySorted R k → StronglySorted R l.
Proof.
  induction 1 as [|x l k Hsub IH|x l k Hsub IH]; intros Hk; [done|..].
  - apply StronglySorted_cons in Hk as [Hx Hk].
    apply StronglySorted_cons. split; [|by apply IH].
    apply Forall_forall. intros y Hy. rewrite Forall_forall in Hx.
    apply Hx. by eapply elem_of_sublist.
  - apply StronglySorted_cons in Hk as [_ Hk]. by apply IH.
Qed.

Lemma StronglySorted_lookup_lt {A} (R : relation A) (l : list A) (i j : nat) a b :
  StronglySorted R l → l !! i = Some a → l !! j = Some b → (i < j)%nat → R a b.
Proof.
  intros Hl. revert i j. induction Hl as [|x l Hl IH Hx]; intros i j Hi Hj Hij.
  { inversion Hi. }
  destruct j as [|j]; [lia|]. simpl in Hj. destruct i as [|i]; simpl in Hi.
  - simplify_eq. rewrite Forall_forall in Hx. apply Hx.
    by eapply list_elem_of_lookup_2.
  - apply (IH i j); [done | done | lia].
Qed.

Lemma candidates_sorted fuel hs p cands :
  candidates fuel hs p = Some cands →
  StronglySorted (stays_before (by_objective p)) cands.
Proof.
  unfold candidates. intros H.
  destruct (mapM _ _) as [found|]; simpl in H; [|done]. simplify_eq.
  apply js_sort_sorted.
  - apply by_objective_trans.
  - apply by_objective_total.
Qed.

Lemma objective_le_toRecommendation (cands : list Opportunity) p a b :
  (∀ o, o ∈ cands → ∃ hs, opp_wf hs o) → a ∈ cands → b ∈ cands →
  stays_before (by_objective p) a b →
  objective_le p (toRecommendation b) (toRecommendation a).
Proof.
  intros Hwf Ha Hb H. apply by_objective_before in H.
  unfold objective_le. destruct p; simpl; [done|].
  destruct (Hwf a Ha) as [hs1 Hwa]. destruct (Hwf b Hb) as [hs2 Hwb].
  by rewrite <- (wf_efficiency _ _ Hwa), <- (wf_efficiency _ _ Hwb).
Qed.

Lemma candidates_wf fuel hs p cands o :
  candidates fuel hs p = Some cands → o ∈ cands → ∃ hs', opp_wf hs' o.
Proof.
  intros Hc Ho. destruct (candidates_spec _ _ _ _ Hc o Ho) as (h & _ & Hwf & _).
  eauto.
Qed.

Lemma optimizeLeaves_scan fuel hs n s p r :
  optimizeLeaves fuel hs n s p = Some r →
  r = emptyResult n ∨
  ∃ cands,
    candidates fuel hs p = Some cands ∧
    r = result_of n
          (foldl (select_step n) {| used := ∅; selected := []; usedLeaves := 0 |} cands).
Proof.
  rewrite optimizeLeaves_unfold. intros H.
  destruct (_ || _); [left; congruence|].
  destruct (candidates fuel hs p) as [cands|] eqn:Hc; [|done].
  injection H as <-. right. by exists cands.
Qed.

(** X8. The recommendations come in the order of the objective: a later one
    never has more [totalDays] (with [preferLonger]), or a better quotient of
    [totalDays] and [leavesUsed] (without), than an earlier one. *)
Theorem recommendations_in_priority_order fuel hs n s p r (i j : nat) a b :
  optimizeLeaves fuel hs n s p = Some r →
  recommendations r !! i = Some a →
  recommendations r !! j = Some b →
  (i < j)%nat →
  objective_le p b a.
Proof.
  intros H Hi Hj Hij.
  apply optimizeLeaves_scan in H as [->|(cands & Hc & ->)].
  { inversion Hi. }
  simpl in Hi, Hj. rewrite lookup_map in Hi, Hj.
  destruct (select_all_sublist n cands {| used := ∅; selected := []; usedLeaves := 0 |})
    as (l' & E & Hsub).
  simpl in E. rewrite E in Hi, Hj.
  destruct (l' !! i) as [oa|] eqn:Ea; [|done].
  destruct (l' !! j) as [ob|] eqn:Eb; [|done].
  simpl in Hi, Hj. simplify_eq.
  apply (objective_le_toRecommendation cands).
  - intros o Ho. by eapply candidates_wf.
  - eapply elem_of_sublist; [|exact Hsub]. by eapply list_elem_of_lookup_2.
  - eapply elem_of_sublist; [|exact Hsub]. by eapply list_elem_of_lookup_2.
  - eapply StronglySorted_lookup_lt; [|exact Ea|exact Eb|exact Hij].
    eapply StronglySorted_sublist; [exact Hsub|]. by eapply candidates_sorted.
Qed.

Lemma recommendations_in_priority_order_witness :
  objective_le true republic_2026 newyear_2026.
Proof.
  apply (recommendations_in_priority_order 20 holidays2026 8 false true run_2026 0 1).
  - vm_compute; reflexivity.
  - reflexivity.
  - reflexivity.
  - lia.
Defined.

(** X9. With a budget of 6 leaves or more the best candidate is always
    taken: the first recommendation is at least as good, by the objective,
    as every candidate; there is no recommendation only when there is no
    candidate. *)
Theorem best_candidate_first fuel hs n s p r cands :
  optimizeLeaves fuel hs n s p = Some r →
  candidates fuel hs p = Some cands →
  6 <= n →
  match recommendations r with
  | [] => cands = []
  | rec :: _ =>
      ∀ c, c ∈ cands →
        if p then opp_totalDays c <= totalDays rec
        else (opp_efficiency c
              <= inject_Z (totalDays rec) / inject_Z (leavesUsed rec))%Q
  end.
Proof.
  intros H Hc Hn.
  pose proof (candidates_sorted _ _ _ _ Hc) as Hsorted.
  rewrite optimizeLeaves_unfold, Hc in H.
  destruct ((length hs =? 0)%nat || (n <=? 0)) eqn:Hg.
  - simplify_eq. simpl.
    apply orb_true_iff in Hg as [Hg|Hg]; [|apply Z.leb_le in Hg; lia].
    destruct hs; [|done]. unfold candidates in Hc. simpl in Hc. by simplify_eq.
  - simpl in H. simplify_eq. simpl.
    destruct cands as [|c0 rest]; [done|]. simpl.
    assert (Hlen : (length (opp_leaveDates c0) ≤ 6)%nat).
    { destruct (candidates_block _ _ _ _ c0 Hc ltac:(by left)) as (h & kb & ka & Hb).
      by eapply block_length. }
    assert (Hstep : select_step n {| used := ∅; selected := []; usedLeaves := 0 |} c0 =
      {| used := foldl (λ u k, {[k]} ∪ u) ∅ (map format_ymd (opp_leaveDates c0));
         selected := [c0];
         usedLeaves := 0 + Z.of_nat (length (map format_ymd (opp_leaveDates c0))) |}).
    { unfold select_step. cbn [used usedLeaves selected].
      destruct (existsb _ _) eqn:Eu.
      { apply existsb_elem_of in Eu as (k & _ & Hk).
        apply bool_decide_eq_true in Hk. by apply not_elem_of_empty in Hk. }
      rewrite length_map.
      destruct (Z.ltb_spec n (0 + Z.of_nat (length (opp_leaveDates c0)))); [lia | done]. }
    rewrite Hstep.
    match goal with |- context [foldl (select_step n) ?st rest] =>
      destruct (select_all_sublist n rest st) as (l' & E & _) end.
    rewrite E. simpl.
    apply StronglySorted_cons in Hsorted as [Hall _].
    intros c [->|Hin]%elem_of_cons.
    + pose proof (by_objective_refl p c0) as Hr. apply by_objective_before in Hr.
      destruct (candidates_wf _ _ _ _ c0 Hc ltac:(by left)) as [hs' Hwf].
      destruct p; [done|]. by rewrite <- (wf_efficiency _ _ Hwf).
    + rewrite Forall_forall in Hall. specialize (Hall c Hin).
      apply by_objective_before in Hall.
      destruct (candidates_wf _ _ _ _ c0 Hc ltac:(by left)) as [hs' Hwf].
      destruct p; [done|]. by rewrite <- (wf_efficiency _ _ Hwf).
Qed.

Lemma best_candidate_first_witness :
  6 <= 8 ∧ ∀ c, c ∈ cands_2026 → opp_totalDays c <= totalDays newyear_2026.
Proof.
  split; [lia|].
  apply (best_candidate_first 20 holidays2026 8 false true run_2026 cands_2026).
  - vm_compute; reflexivity.
  - vm_compute; reflexivity.
  - lia.
Defined.

(** ** Only the days of the holidays matter *)

Lemma NoDup_firsts {A} `{EqDecision A} (l : list A) : NoDup (firsts l).
Proof.
  induction l as [|x l IH]; simpl; [constructor|].
  apply NoDup_cons. split; [|by apply NoDup_filter].
  intros [Hx _]%list_elem_of_filter. by apply Hx.
Qed.

Lemma firsts_normalizedHolidays_same_days hs hs' :
  same_days hs hs' →
  firsts (normalizedHolidays hs) = firsts (normalizedHolidays hs').
Proof.
  intros Hs.
  assert (Hanti : AntiSymm (=) (stays_before by_time)).
  { intros a b Hab%(proj1 (by_time_before _ _)) Hba%(proj1 (by_time_before _ _)). lia. }
  apply (StronglySorted_unique (stays_before by_time)).
  - apply firsts_sorted, js_sort_sorted; [apply by_time_trans | apply by_time_total].
  - apply firsts_sorted, js_sort_sorted; [apply by_time_trans | apply by_time_total].
  - apply NoDup_Permutation; [apply NoDup_firsts | apply NoDup_firsts |].
    intros x. rewrite !elem_of_firsts, !elem_of_normalizedHolidays.
    split; intros (h0 & -> & Hh0).
    + destruct (proj1 (Hs (dayNumber h0))) as (h1 & Hh1 & E); [eauto|].
      exists h1. split; [|done]. by apply startOfDay_inj.
    + destruct (proj2 (Hs (dayNumber h0))) as (h1 & Hh1 & E); [eauto|].
      exists h1. split; [|done]. by apply startOfDay_inj.
Qed.

Lemma same_days_nil hs hs' :
  same_days hs hs' → (length hs =? 0)%nat = (length hs' =? 0)%nat.
Proof.
  intros Hs. destruct hs as [|h hs], hs' as [|h' hs']; try done; exfalso.
  - destruct (proj2 (Hs (dayNumber h'))) as (x & Hx & _); [exists h'; split; [by left | done]|].
    inversion Hx.
  - destruct (proj1 (Hs (dayNumber h))) as (x & Hx & _); [exists h; split; [by left | done]|].
    inversion Hx.
Qed.

Lemma optimizeLeaves_same_days fuel hs hs' n s p :
  same_days hs hs' →
  optimizeLeaves fuel hs n s p = optimizeLeaves fuel hs' n s p.
Proof.
  intros Hs.
  rewrite !optimizeLeaves_unfold, (same_days_nil _ _ Hs).
  destruct (_ || _); [done|].
  pose proof (candidates_dedupDays fuel hs p) as H1.
  pose proof (candidates_dedupDays fuel hs' p) as H2.
  assert (E : candidates fuel (dedupDays hs) p = candidates fuel (dedupDays hs') p).
  { unfold candidates.
    by rewrite !normalizedHolidays_dedupDays, (firsts_normalizedHolidays_same_days _ _ Hs). }
  rewrite E in H1.
  destruct (candidates fuel hs p) as [c1|] eqn:E1;
    destruct (candidates fuel hs' p) as [c2|] eqn:E2;
    destruct (candidates fuel (dedupDays hs') p) as [c3|] eqn:E3;
    simpl; try done.
  do 2 f_equal.
  rewrite <- (select_firsts n c1) by (intros o; by eapply candidates_nonempty).
  rewrite <- (select_firsts n c2) by (intros o; by eapply candidates_nonempty).
  by rewrite H1, H2.
Qed.

(** X10. The result only depends on the calendar days of the holidays: their
    order in the list, their time of day and their repetitions do not
    matter. *)
Theorem holiday_days_only fuel hs hs' n s p :
  same_days hs hs' →
  optimizeLeaves fuel hs n s p = optimizeLeaves fuel hs' n s p.
Proof. apply optimizeLeaves_same_days. Qed.

Lemma holiday_days_only_witness :
  optimizeLeaves 20 holidays2026 8 false true =
  optimizeLeaves 20 [day 20479 + 1; day 20454] 8 false true.
Proof.
  apply (holiday_days_only 20 holidays2026 [day 20479 + 1; day 20454] 8 false true).
  intros k. split; intros (h & Hh & E).
  - apply elem_of_cons in Hh as [->|Hh]; [exists (day 20454); split; [by right; left|done]|].
    apply elem_of_cons in Hh as [->|Hh]; [exists (day 20479 + 1); split; [by left|done]|].
    apply elem_of_cons in Hh as [->|Hh]; [exists (day 20454); split; [by right; left|done]|].
    inversion Hh.
  - apply elem_of_cons in Hh as [->|Hh]; [exists (day 20479); split; [by right; left|done]|].
    apply elem_of_cons in Hh as [->|Hh]; [exists (day 20454); split; [by right; right; left|done]|].
    inversion Hh.
Defined.

(** ** The cap rule *)

Lemma exceeds_loop_spec max hs rest prev s :
  StronglySorted (λ x y, dayNumber x < dayNumber y) (prev :: rest) →
  Forall (λ x, startOfDay x = x) (prev :: rest) →
  1 <= s <= max →
  exceeds_loop max hs prev rest s = true ↔
  ∃ a e, (a = dayNumber prev ∨ on_day rest a) ∧
    working_run hs rest a e ∧
    max < e - a + (if decide (a = dayNumber prev) then s else 1).
Proof.
  revert prev s. induction rest as [|cur rest IH]; intros prev s Hsort Hnorm Hs.
  { simpl. split; [done|]. intros (a & e & Ha & Hrun & Hlt).
    destruct Ha as [->|(x & Hx & _)]; [|inversion Hx].
    rewrite decide_True in Hlt by done.
    destruct (Hrun (dayNumber prev + 1)) as [(x & Hx & _) _]; [lia|]. inversion Hx. }
  apply StronglySorted_cons in Hsort as [Hprev Hsort].
  apply Forall_cons in Hnorm as [Hnp Hnorm].
  pose proof Hsort as Hsort'. apply StronglySorted_cons in Hsort' as [Hcur _].
  pose proof Hnorm as Hnorm'. apply Forall_cons in Hnorm' as [Hnc _].
  rewrite Forall_forall in Hprev, Hcur.
  assert (Hpc : dayNumber prev < dayNumber cur) by (apply Hprev; by left).
  assert (Hwc : isWorkingDay (day (dayNumber cur)) hs = isWorkingDay cur hs).
  { apply isWorkingDay_day, dayNumber_day. }
  assert (Hrest : ∀ t, on_day (cur :: rest) t ↔ t = dayNumber cur ∨ on_day rest t).
  { intros t. unfold on_day. split.
    - intros (x & [->|Hx]%elem_of_cons & E); [by left | right; eauto].
    - intros [->|(x & Hx & E)]; [exists cur; split; [by left | done]|].
      exists x. split; [by right | done]. }
  assert (Hgt : ∀ t, on_day rest t → dayNumber cur < t).
  { intros t (x & Hx & <-). by apply Hcur. }
  simpl. rewrite (differenceInDays_midnight cur prev Hnc Hnp).
  destruct ((dayNumber cur - dayNumber prev =? 1) && isWorkingDay cur hs) eqn:Hcond.
  - apply andb_true_iff in Hcond as [Hd Hw]. apply Z.eqb_eq in Hd.
    destruct (Z.ltb_spec max (s + 1)) as [Hmax|Hmax].
    + split; [intros _|done].
      exists (dayNumber prev), (dayNumber cur). split; [by left|]. split.
      * intros t Ht. assert (t = dayNumber cur) as -> by lia.
        split; [apply Hrest; by left | by rewrite Hwc].
      * rewrite decide_True by done. lia.
    + rewrite (IH cur (s + 1) Hsort Hnorm ltac:(lia)). split.
      * intros (a & e & Ha & Hrun & Hlt).
        destruct (decide (a = dayNumber cur)) as [->|Hne].
        -- exists (dayNumber prev), e. split; [by left|]. split.
           ++ intros t Ht. destruct (Z.eq_dec t (dayNumber cur)) as [->|Hn].
              ** split; [apply Hrest; by left | by rewrite Hwc].
              ** destruct (Hrun t ltac:(lia)) as [Hon Hwk].
                 split; [apply Hrest; by right | done].
           ++ rewrite decide_True by done. lia.
        -- destruct Ha as [->|Ha]; [done|].
           exists a, e. split; [right; apply Hrest; by right|]. split.
           ++ intros t Ht. destruct (Hrun t Ht) as [Hon Hwk].
              split; [apply Hrest; by right | done].
           ++ pose proof (Hgt a Ha). rewrite decide_False by lia. done.
      * intros (a & e & Ha & Hrun & Hlt).
        destruct (decide (a = dayNumber prev)) as [->|Hne].
        -- exists (dayNumber cur), e. split; [by left|]. split.
           ++ intros t Ht. destruct (Hrun t ltac:(lia)) as [Hon Hwk].
              apply Hrest in Hon as [->|Hon]; [lia | done].
           ++ rewrite decide_True by done. lia.
        -- destruct Ha as [->|Ha]; [done|].
           apply Hrest in Ha.
           exists a, e. split; [destruct Ha; [by left | by right]|]. split.
           ++ intros t Ht. destruct (Hrun t Ht) as [Hon Hwk].
              split; [|done]. apply Hrest in Hon as [->|Hon]; [|done].
              destruct Ha as [->|Ha]; [lia | pose proof (Hgt a Ha); lia].
           ++ destruct (decide (a = dayNumber cur)); lia.
  - rewrite (IH cur 1 Hsort Hnorm ltac:(lia)). split.
    + intros (a & e & Ha & Hrun & Hlt).
      exists a, e. split; [right; apply Hrest; destruct Ha; [by left | by right]|]. split.
      * intros t Ht. destruct (Hrun t Ht) as [Hon Hwk].
        split; [apply Hrest; by right | done].
      * assert (dayNumber prev < a) by (destruct Ha as [->|Ha]; [done | pose proof (Hgt a Ha); lia]).
        rewrite decide_False by lia. destruct (decide (a = dayNumber cur)); lia.
    + intros (a & e & Ha & Hrun & Hlt).
      destruct (decide (a = dayNumber prev)) as [->|Hne].
      * exfalso.
        destruct (Hrun (dayNumber prev + 1) ltac:(lia)) as [Hon Hwk].
        apply Hrest in Hon.
        assert (E : dayNumber cur = dayNumber prev + 1).
        { destruct Hon as [Hon|Hon]; [done | pose proof (Hgt _ Hon); lia]. }
        rewrite <- E, Hwc in Hwk.
        rewrite Hwk, andb_true_r in Hcond. apply Z.eqb_neq in Hcond. lia.
      * destruct Ha as [->|Ha]; [done|]. apply Hrest in Ha.
        exists a, e. split; [destruct Ha; [by left | by right]|]. split.
        -- intros t Ht. destruct (Hrun t Ht) as [Hon Hwk].
           split; [|done]. apply Hrest in Hon as [->|Hon]; [|done].
           destruct Ha as [->|Ha]; [lia | pose proof (Hgt a Ha); lia].
        -- destruct (decide (a = dayNumber cur)); lia.
Qed.

Lemma insert_sorted_Permutation {A} (cmp : A → A → comparison) x (l : list A) :
  insert_sorted cmp x l ≡ₚ x :: l.
Proof.
  induction l as [|y l IH]; simpl; [done|].
  destruct (cmp x y); try done. rewrite IH. apply Permutation_swap.
Qed.

Lemma js_sort_Permutation {A} (cmp : A → A → comparison) (l : list A) :
  js_sort cmp l ≡ₚ l.
Proof.
  induction l as [|x l IH]; simpl; [done|].
  by rewrite insert_sorted_Permutation, IH.
Qed.

Lemma map_Permutation {A B} (f : A → B) (l k : list A) :
  l ≡ₚ k → map f l ≡ₚ map f k.
Proof. apply Permutation_map. Qed.

Lemma sorted_days_strict (l : list Date) :
  StronglySorted (stays_before by_time) l →
  NoDup (map dayNumber l) →
  StronglySorted (λ x y, dayNumber x < dayNumber y) l.
Proof.
  induction 1 as [|x l Hl IH Hx]; intros Hnd; [constructor|].
  simpl in Hnd. apply NoDup_cons in Hnd as [Hnx Hnd].
  apply StronglySorted_cons. split; [|by apply IH].
  rewrite Forall_forall in Hx. apply Forall_forall. intros y Hy.
  pose proof (proj1 (by_time_before _ _) (Hx y Hy)) as Hle.
  apply dayNumber_mono in Hle.
  destruct (Z.eq_dec (dayNumber x) (dayNumber y)) as [E|N]; [|lia].
  exfalso. apply Hnx. rewrite E. apply elem_of_map. eauto.
Qed.

Lemma exceedsMaxConsecutiveLeaves_run lds hs max :
  1 <= max →
  NoDup (map dayNumber lds) →
  exceedsMaxConsecutiveLeaves lds hs max = true ↔
  ∃ a, on_day lds a ∧ working_run hs lds a (a + max).
Proof.
  intros Hmax Hnd. unfold exceedsMaxConsecutiveLeaves.
  set (sorted := js_sort by_time (map normalize lds)).
  assert (Hperm : sorted ≡ₚ map normalize lds) by apply js_sort_Permutation.
  assert (Hdays : ∀ t, on_day sorted t ↔ on_day lds t).
  { intros t. unfold on_day. split.
    - intros (x & Hx & E). rewrite Hperm in Hx.
      apply elem_of_map in Hx as (y & -> & Hy). exists y.
      unfold normalize in E. by rewrite dayNumber_startOfDay in E.
    - intros (y & Hy & E). exists (normalize y). split.
      + rewrite Hperm. apply elem_of_map. eauto.
      + unfold normalize. by rewrite dayNumber_startOfDay. }
  assert (Hsorted : StronglySorted (λ x y, dayNumber x < dayNumber y) sorted).
  { apply sorted_days_strict.
    - apply js_sort_sorted; [apply by_time_trans | apply by_time_total].
    - rewrite (map_Permutation dayNumber _ _ Hperm), map_map.
      erewrite map_ext; [exact Hnd|]. intros x. simpl. unfold normalize.
      by rewrite dayNumber_startOfDay. }
  assert (Hnorm : Forall (λ x, startOfDay x = x) sorted).
  { apply Forall_forall. intros x Hx. rewrite Hperm in Hx.
    apply elem_of_map in Hx as (y & -> & _). apply startOfDay_idem. }
  clearbody sorted. destruct sorted as [|first rest].
  { split; [done|]. intros (a & Ha & _). apply Hdays in Ha as (x & Hx & _). inversion Hx. }
  rewrite (exceeds_loop_spec max hs rest first 1 Hsorted Hnorm ltac:(lia)).
  apply StronglySorted_cons in Hsorted as [Hfirst _]. rewrite Forall_forall in Hfirst.
  assert (Hcons : ∀ t, on_day (first :: rest) t ↔ t = dayNumber first ∨ on_day rest t).
  { intros t. unfold on_day. split.
    - intros (x & [->|Hx]%elem_of_cons & E); [by left | right; eauto].
    - intros [->|(x & Hx & E)]; [exists first; split; [by left | done]|].
      exists x. split; [by right | done]. }
  assert (Hgt : ∀ t, on_day rest t → dayNumber first < t).
  { intros t (x & Hx & <-). by apply Hfirst. }
  split.
  - intros (a & e & Ha & Hrun & Hlt).
    assert (He : a + max <= e) by (destruct (decide (a = dayNumber first)); lia).
    exists a. split; [apply Hdays, Hcons; destruct Ha; [by left | by right]|].
    intros t Ht. destruct (Hrun t ltac:(lia)) as [Hon Hwk].
    split; [apply Hdays, Hcons; by right | done].
  - intros (a & Ha & Hrun). apply Hdays, Hcons in Ha.
    exists a, (a + max). split; [done|]. split.
    + intros t Ht. destruct (Hrun t Ht) as [Hon Hwk]. split; [|done].
      apply Hdays, Hcons in Hon as [->|Hon]; [|done].
      destruct Ha as [->|Ha]; [lia | pose proof (Hgt a Ha); lia].
    + destruct (decide (a = dayNumber first)); lia.
Qed.

(** X11. The cap rule, for dates on pairwise different days: it finds a
    violation exactly when the dates hold [max + 1] calendar days in a row of
    which all but the first are working days. *)
Theorem exceedsMaxConsecutiveLeaves_iff lds hs max :
  1 <= max →
  NoDup (map dayNumber lds) →
  exceedsMaxConsecutiveLeaves lds hs max = true ↔
  ∃ a, on_day lds a ∧ working_run hs lds a (a + max).
Proof. apply exceedsMaxConsecutiveLeaves_run. Qed.

(** A week of working days: Monday 1970-01-05 to Friday 1970-01-09. *)
Lemma exceedsMaxConsecutiveLeaves_iff_witness :
  exceedsMaxConsecutiveLeaves [day 7; day 4; day 6; day 5] [] 3 = true ↔
  ∃ a, on_day [day 7; day 4; day 6; day 5] a ∧
    working_run [] [day 7; day 4; day 6; day 5] a (a + 3).
Proof.
  apply (exceedsMaxConsecutiveLeaves_iff [day 7; day 4; day 6; day 5] [] 3).
  - lia.
  - vm_compute. repeat constructor; intros H; repeat apply elem_of_cons in H as [H|H];
      try discriminate; inversion H.
Defined.

(** X12. Fewer than [max + 1] dates never break the cap. *)
Theorem exceedsMaxConsecutiveLeaves_short lds hs max :
  Z.of_nat (length lds) <= max →
  exceedsMaxConsecutiveLeaves lds hs max = false.
Proof.
  intros Hlen. unfold exceedsMaxConsecutiveLeaves.
  pose proof (length_js_sort by_time (map normalize lds)) as Hl.
  rewrite length_map in Hl.
  destruct (js_sort by_time (map normalize lds)) as [|first rest]; [done|].
  simpl in Hl.
  assert (Hgen : ∀ rest prev s, 1 <= s → s + Z.of_nat (length rest) <= max →
    exceeds_loop max hs prev rest s = false).
  { clear. induction rest as [|cur rest IH]; intros prev s Hs Hb; simpl; [done|].
    simpl in Hb. destruct (_ && _).
    - destruct (Z.ltb_spec max (s + 1)); [lia|]. apply IH; lia.
    - apply IH; lia. }
  apply Hgen; lia.
Qed.

Lemma exceedsMaxConsecutiveLeaves_short_witness :
  exceedsMaxConsecutiveLeaves [day 4; day 5; day 6] [] 3 = false.
Proof.
  apply (exceedsMaxConsecutiveLeaves_short [day 4; day 5; day 6] [] 3).
  simpl. lia.
Defined.

(** ** The anchor rule *)

Lemma abs_quot_le a m k :
  0 < m → 0 <= k → Z.abs (a ÷ m) <= k ↔ Z.abs a < (k + 1) * m.
Proof.
  intros Hm Hk.
  rewrite <- (Z.quot_abs a m) by lia.
  rewrite (Z.abs_eq m) by lia.
  rewrite Z.quot_div_nonneg by lia.
  pose proof (Z.div_mod (Z.abs a) m ltac:(lia)) as E.
  pose proof (Z.mod_pos_bound (Z.abs a) m Hm) as Hb.
  split; intros H; nia.
Qed.

Lemma hasHolidayAnchor_time lds hs :
  hasHolidayAnchor lds hs = true ↔
  ∃ ld h, ld ∈ lds ∧ h ∈ hs ∧ isWeekend h = false ∧ Z.abs (ld - h) < 4 * msPerDay.
Proof.
  unfold hasHolidayAnchor. rewrite existsb_elem_of. split.
  - intros (ld & Hld & (h & Hh & Hd)%existsb_elem_of).
    apply list_elem_of_In, filter_In in Hh as [Hh Hw].
    apply list_elem_of_In in Hh. apply negb_true_iff in Hw.
    apply Z.leb_le in Hd. unfold differenceInDays in Hd.
    apply abs_quot_le in Hd; [|apply msPerDay_pos|lia].
    exists ld, h. repeat split; try done.
  - intros (ld & h & Hld & Hh & Hw & Hd).
    exists ld. split; [done|]. apply existsb_elem_of. exists h. split.
    + apply list_elem_of_In, filter_In. split; [by apply list_elem_of_In|].
      by apply negb_true_iff.
    + apply Z.leb_le. unfold differenceInDays.
      apply abs_quot_le; [apply msPerDay_pos | lia | done].
Qed.

(** X13. The anchor rule holds exactly when a leave date is less than four
    times 24 hours away from a holiday that is not on a weekend; for dates at
    midnight, when it is at most 3 calendar days away. *)
Theorem hasHolidayAnchor_iff lds hs :
  (hasHolidayAnchor lds hs = true ↔
   ∃ ld h, ld ∈ lds ∧ h ∈ hs ∧ isWeekend h = false ∧ Z.abs (ld - h) < 4 * msPerDay) ∧
  (Forall (λ d, startOfDay d = d) (lds ++ hs) →
   hasHolidayAnchor lds hs = true ↔
   ∃ ld h, ld ∈ lds ∧ h ∈ hs ∧ isWeekend h = false ∧
     Z.abs (dayNumber ld - dayNumber h) <= 3).
Proof.
  split; [apply hasHolidayAnchor_time|].
  intros Hn. rewrite hasHolidayAnchor_time. rewrite Forall_forall in Hn.
  pose proof msPerDay_pos.
  split; intros (ld & h & Hld & Hh & Hw & Hd); exists ld, h; repeat split; try done.
  - rewrite <- (Hn ld), <- (Hn h), !startOfDay_day in Hd
      by (apply elem_of_app; (by left) || (by right)).
    nia.
  - rewrite <- (Hn ld), <- (Hn h), !startOfDay_day
      by (apply elem_of_app; (by left) || (by right)).
    nia.
Qed.

Lemma hasHolidayAnchor_iff_witness :
  hasHolidayAnchor [day 20451] [day 20454] = true ↔
  ∃ ld h, ld ∈ [day 20451] ∧ h ∈ [day 20454] ∧ isWeekend h = false ∧
    Z.abs (dayNumber ld - dayNumber h) <= 3.
Proof.
  apply (proj2 (hasHolidayAnchor_iff [day 20451] [day 20454])).
  repeat constructor.
Defined.

(** Within 3 calendar days of a weekday holiday, whatever the time of day. *)
Lemma hasHolidayAnchor_near lds hs ld h :
  ld ∈ lds → h ∈ hs → isWeekend h = false →
  Z.abs (dayNumber ld - dayNumber h) <= 3 →
  startOfDay ld = ld →
  hasHolidayAnchor lds hs = true.
Proof.
  intros Hld Hh Hw Hd Hn.
  apply hasHolidayAnchor_time. exists ld, h. repeat split; try done.
  pose proof msPerDay_pos as Hm.
  pose proof (startOfDay_le h) as Hle.
  pose proof (Z.mod_pos_bound h msPerDay Hm) as Hmod.
  pose proof (Z.div_mod h msPerDay ltac:(lia)) as E.
  rewrite <- Hn, startOfDay_day. unfold dayNumber in *. nia.
Qed.

(** ** Date ranges, in full *)

Lemma getDateRange_days_spec fuel s e r :
  getDateRange fuel s e = Some r →
  r = map day (seqZ (dayNumber s) (dayNumber e - dayNumber s + 1)).
Proof.
  unfold getDateRange. intros H.
  destruct (while fuel _ _ _) as [[res cur]|] eqn:Hw; simpl in H; [|done].
  simplify_eq.
  apply (while_inv _ _
    (λ st, ∃ k : nat,
       st.1 = map day (seqZ (dayNumber s) (Z.of_nat k)) ∧
       st.2 = day (dayNumber s + Z.of_nat k) ∧
       (k = 0%nat ∨ dayNumber s + Z.of_nat k <= dayNumber e + 1))) in Hw.
  - destruct Hw as [(k & Hres & Hcur & Hk) Hex]. simpl in *. subst.
    unfold isBefore, addDays, normalize, day in Hex. rewrite startOfDay_day in Hex.
    apply Z.ltb_ge in Hex. pose proof msPerDay_pos.
    destruct Hk as [->|Hk].
    + rewrite (seqZ_nil _ (dayNumber e - dayNumber s + 1)) by nia. done.
    + do 2 f_equal. nia.
  - exists 0%nat. simpl. split; [done|]. split; [|by left].
    unfold normalize, day. rewrite startOfDay_day. lia.
  - intros [res' cur'] (k & Hres & Hcur & Hk) Hb. simpl in *. subst.
    unfold isBefore, addDays, normalize, day in Hb. rewrite startOfDay_day in Hb.
    apply Z.ltb_lt in Hb. pose proof msPerDay_pos.
    exists (Datatypes.S k). split; [|split].
    + rewrite seqZ_S, map_app. done.
    + unfold addDays, day. lia.
    + right. nia.
Qed.

(** The loop of [getDateRange] has stopped after one step for each day. *)
Lemma getDateRange_steps fuel s e :
  (Z.to_nat (dayNumber e - dayNumber s + 1) < fuel)%nat →
  ∃ r, getDateRange fuel s e = Some r.
Proof.
  intros Hf. set (k := Z.to_nat (dayNumber e - dayNumber s + 1)) in *.
  destruct (while_returns
    (λ '(res, cur), isBefore cur (addDays (normalize e) 1))
    (λ '(res, cur), (res ++ [cur], addDays cur 1)) k ([], normalize s))
    as [[res cur] Hr].
  - pose proof (iter_snd (λ (res : list Date) cur, res ++ [cur]) (λ d, addDays d 1)
                  k [] (normalize s)) as E.
    destruct (Nat.iter _ _ _) as [b d']. simpl in E. subst d'.
    rewrite iter_addDays. unfold isBefore, addDays, normalize.
    rewrite !startOfDay_day. apply Z.ltb_ge.
    pose proof msPerDay_pos. subst k. nia.
  - exists res. unfold getDateRange. by rewrite (Hr fuel ltac:(lia)).
Qed.

(** X14. For dates two weeks or more inside the range of [Date],
    [getDateRange] returns, once the fuel exceeds the number of days, the
    midnights of all the calendar days from [start] to [end], in order; none
    when [end] is on an earlier day than [start]. *)
Theorem getDateRange_days fuel s e :
  in_range s → in_range e →
  (Z.to_nat (dayNumber e - dayNumber s + 1) < fuel)%nat →
  getDateRange fuel s e =
    Some (map day (seqZ (dayNumber s) (dayNumber e - dayNumber s + 1))).
Proof.
  intros _ _ Hf. destruct (getDateRange_steps fuel s e Hf) as [r Hr].
  rewrite Hr. f_equal. by eapply getDateRange_days_spec.
Qed.

Lemma getDateRange_days_witness :
  getDateRange 4 (day 4 + 7) (day 6 + 9) = Some [day 4; day 5; day 6] ∧
  getDateRange 4 (day 4 + 7) (day 6 + 9) =
    Some (map day (seqZ (dayNumber (day 4 + 7))
                        (dayNumber (day 6 + 9) - dayNumber (day 4 + 7) + 1))).
Proof.
  split; [vm_compute; reflexivity|].
  apply (getDateRange_days 4 (day 4 + 7) (day 6 + 9)).
  - vm_compute. split; discriminate.
  - vm_compute. split; discriminate.
  - vm_compute. lia.
Defined.

(** ** The rules never reject what the generator builds *)

Lemma block_no_run h kb ka lds hs :
  block h kb ka lds → exceedsMaxConsecutiveLeaves lds hs 3 = false.
Proof.
  intros Hb. apply not_true_iff_false. intros He.
  apply exceedsMaxConsecutiveLeaves_run in He; [|lia|by eapply block_NoDup].
  destruct He as (a & (x0 & Hx0 & E0) & Hrun).
  destruct (Hrun (a + 1) ltac:(lia)) as [(x1 & Hx1 & E1) _].
  destruct (Hrun (a + 2) ltac:(lia)) as [(x2 & Hx2 & E2) _].
  destruct (Hrun (a + 3) ltac:(lia)) as [(x3 & Hx3 & E3) _].
  destruct (block_days _ _ _ _ _ Hb Hx0) as (_ & ? & ?).
  destruct (block_days _ _ _ _ _ Hb Hx1) as (_ & ? & ?).
  destruct (block_days _ _ _ _ _ Hb Hx2) as (_ & ? & ?).
  destruct (block_days _ _ _ _ _ Hb Hx3) as (_ & ? & ?).
  destruct Hb as (? & ? & _). lia.
Qed.

Lemma buildOpportunity_accepts fuel lds hs h kb ka bo :
  buildOpportunity fuel lds hs h = Some bo →
  block h kb ka lds → h ∈ hs → isWeekend h = false →
  (bo = None ↔ lds = []).
Proof.
  unfold buildOpportunity. intros H Hb Hh Hw.
  destruct (decide (lds = [])) as [->|Hne].
  { simpl in H. by simplify_eq. }
  assert (∃ ld, ld ∈ lds) as [ld Hld].
  { destruct lds as [|ld ?]; [done|]. exists ld. by left. }
  rewrite (block_no_run _ _ _ _ hs Hb) in H.
  destruct (block_days _ _ _ _ _ Hb Hld) as (Hn & Hr & _).
  rewrite (hasHolidayAnchor_near lds hs ld h Hld Hh Hw) in H;
    [|destruct Hb as (?&?&_); lia|done].
  assert ((length lds =? 0)%nat = false) as Hl by (by destruct lds).
  rewrite Hl in H. simpl in H.
  destruct (extendToFullVacation fuel lds hs h) as [[s e]|]; simpl in H; [|done].
  destruct (getDateRange fuel s e) as [r|]; simpl in H; [|done].
  simplify_eq. done.
Qed.

Lemma length_push_opt {A} (l : list A) (o : option A) :
  length (push_opt l o) = (length l + match o with Some _ => 1 | None => 0 end)%nat.
Proof. destruct o; simpl; [rewrite length_app; simpl; lia | lia]. Qed.

Lemma findOpportunitiesAroundHoliday_count fuel h hs os :
  findOpportunitiesAroundHoliday fuel h hs = Some os →
  h ∈ hs → isWeekend h = false →
  length os =
    ((if isWorkingDay (addDays h (-1)) hs then 1 else 0) +
     (if isWorkingDay (addDays h 1) hs then 1 else 0) +
     (if isWorkingDay (addDays h (-1)) hs || isWorkingDay (addDays h 1) hs
      then 1 else 0))%nat.
Proof.
  intros H Hh Hw.
  destruct (findOpportunitiesAroundHoliday_steps _ _ _ _ H Hw)
    as (before & d1 & after & d2 & bo & ao & co & Hb & Ha & Hbo & Hao & Hco & ->).
  apply walk_before_days in Hb as (Hb & Hd1 & Hx1).
  apply walk_after_days in Ha as (Ha & Hd2 & Hx2).
  assert (Bb : block h (length (slice_last 3 before)) 0 (slice_last 3 before)).
  { apply block_before. intros j x Hj. destruct (Hb j x Hj) as (?&?&?). done. }
  assert (Ba : block h 0 (length (slice_first 3 after)) (slice_first 3 after)).
  { apply block_after. intros j x Hj. destruct (Ha j x Hj) as (?&?&?). done. }
  pose proof (block_app _ _ _ _ _ Bb Ba) as Bc.
  pose proof (buildOpportunity_accepts _ _ _ _ _ _ _ Hbo Bb Hh Hw) as Eb.
  pose proof (buildOpportunity_accepts _ _ _ _ _ _ _ Hao Ba Hh Hw) as Ea.
  pose proof (buildOpportunity_accepts _ _ _ _ _ _ _ Hco Bc Hh Hw) as Ec.
  assert (Wb : isWorkingDay (addDays h (-1)) hs = true ↔ slice_last 3 before ≠ []).
  { destruct (decide (before = [])) as [->|Hne].
    - cbn [length] in Hd1. split; [|done]. intros Hwk.
      assert (Ed : dayNumber (addDays h (-1)) = dayNumber d1)
        by (rewrite dayNumber_addDays; lia).
      rewrite (isWorkingDay_day _ _ hs Ed) in Hwk. congruence.
    - assert (Hpos : (0 < length before)%nat) by (destruct before; [done | simpl; lia]).
      split; [|intros _].
      + intros _ Hnil. apply (f_equal length) in Hnil.
        rewrite length_slice_last in Hnil. cbn [length] in Hnil. lia.
      + assert (Hlt : (length before - 1 < length before)%nat) by lia.
        destruct (lookup_lt_is_Some_2 _ _ Hlt) as [x Hx].
        destruct (Hb _ _ Hx) as (_ & Hwk & Hdx).
        rewrite <- Hwk. apply isWorkingDay_day. rewrite dayNumber_addDays. lia. }
  assert (Wa : isWorkingDay (addDays h 1) hs = true ↔ slice_first 3 after ≠ []).
  { destruct after as [|a0 after'] eqn:E.
    - cbn [length] in Hd2. split; [|done]. intros Hwk.
      assert (Ed : dayNumber (addDays h 1) = dayNumber d2)
        by (rewrite dayNumber_addDays; lia).
      rewrite (isWorkingDay_day _ _ hs Ed) in Hwk. congruence.
    - split; [done | intros _].
      destruct (Ha 0%nat a0 eq_refl) as (_ & Hwk & Hdx).
      rewrite <- Hwk. apply isWorkingDay_day. rewrite dayNumber_addDays. lia. }
  rewrite !length_push_opt. simpl.
  assert (Hcn : slice_last 3 before ++ slice_first 3 after = [] ↔
                slice_last 3 before = [] ∧ slice_first 3 after = []).
  { split; [by apply app_eq_nil | by intros [-> ->]]. }
  rewrite Hcn in Ec.
  destruct (decide (slice_last 3 before = [])) as [Hb0|Hb0];
    destruct (decide (slice_first 3 after = [])) as [Ha0|Ha0];
    destruct (isWorkingDay (addDays h (-1)) hs) eqn:E1;
    destruct (isWorkingDay (addDays h 1) hs) eqn:E2;
    destruct bo, ao, co; simpl; try reflexivity; exfalso;
    intuition congruence.
Qed.

(** X15. Around a holiday of the list that is not on a weekend the two
    rules reject nothing: there is a candidate for the days before whenever
    the day before is a working day, one for the days after whenever the day
    after is, and the combined one whenever either is. *)
Theorem generator_builds_all fuel h hs os :
  findOpportunitiesAroundHoliday fuel h hs = Some os →
  h ∈ hs → isWeekend h = false →
  length os =
    ((if isWorkingDay (addDays h (-1)) hs then 1 else 0) +
     (if isWorkingDay (addDays h 1) hs then 1 else 0) +
     (if isWorkingDay (addDays h (-1)) hs || isWorkingDay (addDays h 1) hs
      then 1 else 0))%nat.
Proof. apply findOpportunitiesAroundHoliday_count. Qed.

Lemma generator_builds_all_witness :
  length (default [] (findOpportunitiesAroundHoliday 20 (day 20454) [day 20454; day 20479])) =
    ((if isWorkingDay (addDays (day 20454) (-1)) [day 20454; day 20479] then 1 else 0) +
     (if isWorkingDay (addDays (day 20454) 1) [day 20454; day 20479] then 1 else 0) +
     (if isWorkingDay (addDays (day 20454) (-1)) [day 20454; day 20479]
         || isWorkingDay (addDays (day 20454) 1) [day 20454; day 20479]
      then 1 else 0))%nat.
Proof.
  apply (generator_builds_all 20 (day 20454) [day 20454; day 20479]).
  - vm_compute; reflexivity.
  - by left.
  - vm_compute; reflexivity.
Defined.

(** ** There is something to recommend *)

Lemma scan_takes_first n c0 rest :
  Z.of_nat (length (opp_leaveDates c0)) <= n →
  ∃ l', selected (foldl (select_step n) {| used := ∅; selected := []; usedLeaves := 0 |}
                    (c0 :: rest)) = c0 :: l'.
Proof.
  intros Hlen. simpl.
  assert (Hstep : selected (select_step n {| used := ∅; selected := []; usedLeaves := 0 |} c0)
                  = [c0]).
  { unfold select_step. cbn [used usedLeaves selected].
    destruct (existsb _ _) eqn:Eu.
    { apply existsb_elem_of in Eu as (k & _ & Hk).
      apply bool_decide_eq_true in Hk. by apply not_elem_of_empty in Hk. }
    rewrite length_map.
    destruct (Z.ltb_spec n (0 + Z.of_nat (length (opp_leaveDates c0)))); [lia | done]. }
  destruct (select_all_sublist n rest
    (select_step n {| used := ∅; selected := []; usedLeaves := 0 |} c0)) as (l' & E & _).
  exists l'. by rewrite E, Hstep.
Qed.

Lemma candidates_found fuel hs p cands h os o :
  candidates fuel hs p = Some cands →
  h ∈ normalizedHolidays hs →
  findOpportunitiesAroundHoliday fuel h (normalizedHolidays hs) = Some os →
  o ∈ os → o ∈ cands.
Proof.
  unfold candidates. intros H Hh Hf Ho.
  destruct (mapM _ _) as [found|] eqn:Hm; simpl in H; [|done].
  simplify_eq. apply elem_of_js_sort, elem_of_concat. exists os. split; [done|].
  apply mapM_Some_1 in Hm. apply list_elem_of_lookup in Hh as [i Hi].
  destruct (Forall2_lookup_l _ _ _ _ _ Hm Hi) as (os' & Hos' & Hf').
  rewrite Hf in Hf'. simplify_eq. by eapply list_elem_of_lookup_2.
Qed.

(** X16. Whenever a holiday on a weekday has a working day next to it, a
    budget of 6 leaves or more yields at least one recommendation. *)
Theorem some_recommendation fuel hs n s p r h :
  optimizeLeaves fuel hs n s p = Some r →
  6 <= n →
  h ∈ hs → isWeekend h = false →
  isWorkingDay (addDays h (-1)) hs || isWorkingDay (addDays h 1) hs = true →
  recommendations r ≠ [].
Proof.
  intros H Hn Hh Hw Hwork.
  rewrite optimizeLeaves_unfold in H.
  assert (Hg : (length hs =? 0)%nat || (n <=? 0) = false).
  { destruct hs; [inversion Hh|]. simpl. apply Z.leb_gt. lia. }
  rewrite Hg in H.
  destruct (candidates fuel hs p) as [cands|] eqn:Hc; simpl in H; [|done].
  injection H as <-.
  - simpl. set (nhs := normalizedHolidays hs) in *.
    assert (Hh' : startOfDay h ∈ nhs).
    { apply elem_of_normalizedHolidays. eauto. }
    pose proof Hc as Hm. unfold candidates in Hm. fold nhs in Hm.
    destruct (mapM _ nhs) as [found|] eqn:Em; simpl in Hm; [|done].
    apply mapM_Some_1 in Em. pose proof Hh' as [i Hi]%list_elem_of_lookup.
    destruct (Forall2_lookup_l _ _ _ _ _ Em Hi) as (os & Hos & Hf).
    assert (Hlen : (0 < length os)%nat).
    { rewrite (findOpportunitiesAroundHoliday_count _ _ _ _ Hf Hh').
      2:{ by rewrite (isWeekend_day _ h (dayNumber_startOfDay h)). }
      assert (E1 : isWorkingDay (addDays (startOfDay h) (-1)) nhs
                   = isWorkingDay (addDays h (-1)) hs).
      { rewrite (isWorkingDay_same_days _ _ _ (normalizedHolidays_same_days hs)).
        apply isWorkingDay_day. by rewrite !dayNumber_addDays, dayNumber_startOfDay. }
      assert (E2 : isWorkingDay (addDays (startOfDay h) 1) nhs
                   = isWorkingDay (addDays h 1) hs).
      { rewrite (isWorkingDay_same_days _ _ _ (normalizedHolidays_same_days hs)).
        apply isWorkingDay_day. by rewrite !dayNumber_addDays, dayNumber_startOfDay. }
      rewrite E1, E2, Hwork. lia. }
    destruct os as [|o os']; [simpl in Hlen; lia|].
    assert (Ho : o ∈ cands).
    { eapply candidates_found; [exact Hc | exact Hh' | exact Hf | by left]. }
    destruct cands as [|c0 rest]; [inversion Ho|].
    destruct (scan_takes_first n c0 rest) as [l' E].
    { destruct (candidates_block _ _ _ _ c0 Hc ltac:(by left)) as (h' & kb & ka & Hb).
      pose proof (block_length _ _ _ _ Hb). lia. }
    rewrite E. done.
Qed.

Lemma some_recommendation_witness :
  isWeekend (day 20479) = false ∧ recommendations run_2026 ≠ [].
Proof.
  split; [vm_compute; reflexivity|].
  apply (some_recommendation 20 holidays2026 8 false true run_2026 (day 20479)).
  - vm_compute; reflexivity.
  - lia.
  - vm_compute. apply list_elem_of_further, list_elem_of_here.
  - vm_compute; reflexivity.
  - vm_compute; reflexivity.
Defined.

(** * Properties of the components *)

(** ** Toggling a holiday *)

Lemma isSameDay_sym a b : isSameDay a b = isSameDay b a.
Proof. unfold isSameDay. apply Z.eqb_sym. Qed.

Lemma elem_of_List_filter {A} (f : A → bool) (l : list A) x :
  x ∈ List.filter f l ↔ x ∈ l ∧ f x = true.
Proof. by rewrite !list_elem_of_In, filter_In. Qed.

Lemma isHoliday_app d l k : isHoliday d (l ++ k) = isHoliday d l || isHoliday d k.
Proof. unfold isHoliday. apply existsb_app. Qed.

(** X17. Toggling a date flips whether its day is a holiday and changes no
    other day. *)
Theorem toggleHoliday_flips selectedHolidays date d :
  isHoliday d (toggleHoliday selectedHolidays date) =
    if isSameDay d date then negb (isHoliday date selectedHolidays)
    else isHoliday d selectedHolidays.
Proof.
  unfold toggleHoliday. fold (isHoliday date selectedHolidays).
  destruct (isHoliday date selectedHolidays) eqn:Hin.
  - destruct (isSameDay d date) eqn:Hd; simpl.
    + apply not_true_iff_false. intros (h & Hh & E)%isHoliday_spec.
      apply elem_of_List_filter in Hh as [_ Hh]. apply negb_true_iff in Hh.
      apply isSameDay_spec in Hd. apply not_true_iff_false in Hh.
      apply Hh, isSameDay_spec. congruence.
    + apply eq_true_iff_eq. rewrite !isHoliday_spec.
      split; intros (h & Hh & E); exists h; (split; [|done]).
      * by apply elem_of_List_filter in Hh as [Hh _].
      * apply elem_of_List_filter. split; [done|]. apply negb_true_iff.
        apply not_true_iff_false. intros E'%isSameDay_spec.
        apply not_true_iff_false in Hd. apply Hd, isSameDay_spec. congruence.
  - rewrite isHoliday_app. unfold isHoliday at 2. simpl.
    rewrite orb_false_r, (isSameDay_sym date d).
    destruct (isSameDay d date) eqn:Hd; simpl; [|by rewrite orb_false_r].
    rewrite orb_true_r. done.
Qed.

(** X18. Toggling twice a date whose day is not a holiday gives the list
    back. *)
Theorem toggleHoliday_twice selectedHolidays date :
  isHoliday date selectedHolidays = false →
  toggleHoliday (toggleHoliday selectedHolidays date) date = selectedHolidays.
Proof.
  intros Hin. unfold toggleHoliday at 2. fold (isHoliday date selectedHolidays).
  rewrite Hin. unfold toggleHoliday. fold (isHoliday date (selectedHolidays ++ [date])).
  rewrite isHoliday_app.
  assert (isHoliday date [date] = true) as ->.
  { apply isHoliday_spec. exists date. split; [by left | done]. }
  rewrite orb_true_r. rewrite List.filter_app. simpl.
  assert (isSameDay date date = true) as -> by (by apply isSameDay_spec).
  simpl. rewrite app_nil_r.
  induction selectedHolidays as [|h l IH]; simpl; [done|].
  unfold isHoliday in Hin. simpl in Hin. apply orb_false_iff in Hin as [Hh Hl].
  rewrite Hh. simpl. f_equal. by apply IH.
Qed.

Lemma toggleHoliday_twice_witness :
  toggleHoliday (toggleHoliday holidays2026 (day 20480)) (day 20480) = holidays2026.
Proof.
  apply (toggleHoliday_twice holidays2026 (day 20480)).
  vm_compute. reflexivity.
Defined.

Lemma NoDup_map_List_filter {A B} (g : A → B) (f : A → bool) (l : list A) :
  NoDup (map g l) → NoDup (map g (List.filter f l)).
Proof.
  induction l as [|x l IH]; simpl; [done|].
  intros [Hx Hl]%NoDup_cons. destruct (f x); simpl; [|by apply IH].
  apply NoDup_cons. split; [|by apply IH].
  intros (y & E & [Hy _]%elem_of_List_filter)%elem_of_map.
  apply Hx, elem_of_map. eauto.
Qed.

(** X19. Toggling keeps a list free of two dates on one day. *)
Theorem toggleHoliday_no_duplicates selectedHolidays date :
  NoDup (map dayNumber selectedHolidays) →
  NoDup (map dayNumber (toggleHoliday selectedHolidays date)).
Proof.
  intros Hnd. unfold toggleHoliday. fold (isHoliday date selectedHolidays).
  destruct (isHoliday date selectedHolidays) eqn:Hin.
  - by apply NoDup_map_List_filter.
  - rewrite map_app. simpl. apply NoDup_app. split; [done|]. split.
    + intros n (h & -> & Hh)%elem_of_map [E|Hn]%elem_of_cons; [|inversion Hn].
      apply not_true_iff_false in Hin. apply Hin, isHoliday_spec. eauto.
    + apply NoDup_singleton.
Qed.

Lemma toggleHoliday_no_duplicates_witness :
  NoDup (map dayNumber (toggleHoliday [day 20454; day 20479] (day 20454 + 5))).
Proof.
  apply (toggleHoliday_no_duplicates [day 20454; day 20479] (day 20454 + 5)).
  vm_compute. apply NoDup_cons. split; [|apply NoDup_singleton].
  intros [E|H]%elem_of_cons; [discriminate | inversion H].
Defined.

(** ** Merging the dates of a file *)

Lemma elem_of_newDates sel parsed d :
  d ∈ newDates sel parsed ↔
  (∃ ph, ph ∈ parsed ∧ d = date ph) ∧ isHoliday d sel = false.
Proof.
  unfold newDates. rewrite elem_of_List_filter, elem_of_map, negb_true_iff.
  rewrite bool_decide_eq_false, elem_of_list_to_set, elem_of_map.
  rewrite <- not_true_iff_false, isHoliday_spec. unfold format_ymd.
  split; intros [(ph & H1 & H2) Hn]; (split; [exists ph; by split|]).
  - intros (h & Hh & E). apply Hn. eauto.
  - intros (h & E & Hh). apply Hn. eauto.
Qed.

Lemma handleFileSelect_cases sel parsed :
  (newDates sel parsed = [] ∧ holidaysChange (handleFileSelect sel parsed) = None ∧
   parseSuccess (handleFileSelect sel parsed) = None ∧
   is_Some (parseError (handleFileSelect sel parsed))) ∨
  (newDates sel parsed ≠ [] ∧
   handleFileSelect sel parsed =
     {| holidaysChange := Some (sel ++ newDates sel parsed);
        parseError := None;
        parseSuccess := Some (Z.of_nat (length (newDates sel parsed))) |}).
Proof.
  unfold handleFileSelect. fold (newDates sel parsed).
  destruct parsed as [|ph parsed'].
  { left. simpl. repeat split; eauto. }
  cbn [length Nat.eqb].
  destruct (newDates sel (ph :: parsed')) as [|d l] eqn:E.
  - left. simpl. repeat split; eauto.
  - right. simpl. split; done.
Qed.


(** X21. Selecting the same file again adds nothing: after a merge the
    second run leaves the holidays alone and says that all dates are
    selected. *)
Theorem handleFileSelect_again sel parsed merged :
  holidaysChange (handleFileSelect sel parsed) = Some merged →
  handleFileSelect merged parsed =
    {| holidaysChange := None;
       parseError := Some "All dates from PDF are already selected";
       parseSuccess := None |}.
Proof.
  intros H.
  destruct (handleFileSelect_cases sel parsed) as [(_ & Hc & _)|[Hne E]];
    [congruence|].
  rewrite E in H. simpl in H. simplify_eq.
  assert (Hnil : newDates (sel ++ newDates sel parsed) parsed = []).
  { destruct (newDates (sel ++ newDates sel parsed) parsed) as [|d l] eqn:En; [done|].
    assert (Hd : d ∈ newDates (sel ++ newDates sel parsed) parsed) by (rewrite En; by left).
    apply elem_of_newDates in Hd as [(ph & Hph & ->) Hf].
    rewrite isHoliday_app in Hf. apply orb_false_iff in Hf as [Hf1 Hf2].
    apply not_true_iff_false in Hf2. exfalso. apply Hf2, isHoliday_spec.
    exists (date ph). split; [|done]. apply elem_of_newDates. eauto. }
  unfold handleFileSelect. fold (newDates (sel ++ newDates sel parsed) parsed).
  rewrite Hnil. destruct parsed as [|ph parsed']; [|done].
  exfalso. apply Hne. done.
Qed.

Lemma handleFileSelect_again_witness :
  handleFileSelect [day 20454; day 20479 + 5; day 20520 + 3600000] file_2026 =
    {| holidaysChange := None;
       parseError := Some "All dates from PDF are already selected";
       parseSuccess := None |}.
Proof.
  apply (handleFileSelect_again [day 20454; day 20479 + 5] file_2026).
  vm_compute. reflexivity.
Defined.





(** ** The calendar of the results *)

Lemma selectedRecommendation_elem r id rec :
  selectedRecommendation r id = Some rec → rec ∈ recommendations r.
Proof.
  unfold selectedRecommendation. destruct id as [i|]; [|done].
  destruct (0 <=? i); [|done]. apply list_elem_of_lookup_2.
Qed.

Lemma in_span_spec (day start end_ : Date) :
  (isSameDay (startOfDay day) (startOfDay start)
     || isAfter (startOfDay day) (startOfDay start)) &&
  (isSameDay (startOfDay day) (startOfDay end_)
     || isBefore (startOfDay day) (startOfDay end_)) = true ↔
  dayNumber start <= dayNumber day <= dayNumber end_.
Proof.
  rewrite andb_true_iff, !orb_true_iff, !isSameDay_spec, !dayNumber_startOfDay.
  unfold isAfter, isBefore. rewrite !Z.ltb_lt, !startOfDay_day.
  pose proof msPerDay_pos. split; intros [H1 H2]; split; nia.
Qed.

Lemma isDayInSelectedRecommendation_spec r id day :
  isDayInSelectedRecommendation r id day = true ↔
  ∃ i rec, id = Some i ∧ 0 <= i ∧
    recommendations r !! Z.to_nat i = Some rec ∧
    dayNumber (startDate rec) <= dayNumber day <= dayNumber (endDate rec).
Proof.
  unfold isDayInSelectedRecommendation, selectedRecommendation.
  destruct id as [i|].
  - destruct (Z.leb_spec 0 i).
    + destruct (recommendations r !! Z.to_nat i) as [rec|] eqn:E.
      * rewrite in_span_spec. split; [intros; by exists i, rec|].
        intros (i' & rec' & [= <-] & _ & Hl & Hd). by simplify_eq.
      * split; [done|]. intros (i' & rec' & [= <-] & _ & Hl & _). congruence.
    + split; [done|]. intros (i' & rec' & [= <-] & Hi & _). lia.
  - split; [done|]. by intros (i' & rec' & ? & _).
Qed.

(** X23. A day belongs to the selected recommendation exactly when a
    recommendation is selected, the id being one of the list, and the day is
    one of the calendar days from its [startDate] to its [endDate]. *)
Theorem isDayInSelectedRecommendation_iff r id day :
  isDayInSelectedRecommendation r id day = true ↔
  ∃ i rec, id = Some i ∧ 0 <= i ∧
    recommendations r !! Z.to_nat i = Some rec ∧
    dayNumber (startDate rec) <= dayNumber day <= dayNumber (endDate rec).
Proof. apply isDayInSelectedRecommendation_spec. Qed.

Lemma leave_in_optimizedLeaves fuel hs n s p r rec d :
  optimizeLeaves fuel hs n s p = Some r →
  rec ∈ recommendations r → d ∈ leaveDates rec → d ∈ optimizedLeaves r.
Proof.
  intros H Hrec Hd.
  apply optimizeLeaves_cases in H as [->|(cands & st & _ & _ & ->)].
  { inversion Hrec. }
  simpl in *. apply elem_of_map in Hrec as (o & -> & Ho). simpl in Hd.
  apply elem_of_concat. exists (opp_leaveDates o). split; [done|].
  apply elem_of_map. eauto.
Qed.

Lemma optimizedLeaves_origin fuel hs n s p r d :
  optimizeLeaves fuel hs n s p = Some r →
  d ∈ optimizedLeaves r → ∃ rec, rec ∈ recommendations r ∧ d ∈ leaveDates rec.
Proof.
  intros H Hd.
  apply optimizeLeaves_cases in H as [->|(cands & st & _ & _ & ->)].
  { inversion Hd. }
  simpl in *. apply elem_of_concat in Hd as (l & Hd & (o & -> & Ho)%elem_of_map).
  exists (toRecommendation o). split; [apply elem_of_map; eauto | done].
Qed.

Lemma getDayType_leave r hs day :
  getDayType r hs day = "leave"%string ↔ isHoliday day (optimizedLeaves r) = true.
Proof.
  unfold getDayType. fold (isHoliday day (optimizedLeaves r)). fold (isHoliday day hs).
  destruct (isHoliday day (optimizedLeaves r)); [done|].
  destruct (isHoliday day hs); [done|]. by destruct (isWeekend day).
Qed.

(** A leave date of a result is a working day of the holidays that the
    result was computed from. *)
Lemma leave_is_working fuel hs n s p r day :
  optimizeLeaves fuel hs n s p = Some r →
  isHoliday day (optimizedLeaves r) = true →
  isWorkingDay day hs = true.
Proof.
  intros H (d & Hd & E)%isHoliday_spec.
  destruct (optimizedLeaves_origin _ _ _ _ _ _ _ H Hd) as (rec & Hrec & Hdr).
  destruct (recommendation_opportunity _ _ _ _ _ _ _ H Hrec)
    as (o & h & -> & _ & _ & Hl).
  destruct (Hl d Hdr) as (_ & Hwk & _).
  rewrite <- (isWorkingDay_same_days day _ _ (normalizedHolidays_same_days hs)).
  by rewrite <- (isWorkingDay_day d day _ E).
Qed.



(** X25. The leave dates of the selected recommendation are marked as
    active, and as leave. *)
Theorem selected_leave_is_active fuel hs n s p r id rec d :
  optimizeLeaves fuel hs n s p = Some r →
  selectedRecommendation r id = Some rec →
  d ∈ leaveDates rec →
  getDayHighlightState r hs id d = Some "active"%string ∧
  getDayType r hs d = "leave"%string.
Proof.
  intros H Hsel Hd.
  pose proof (selectedRecommendation_elem _ _ _ Hsel) as Hrec.
  split.
  - unfold getDayHighlightState. rewrite Hsel.
    assert (isDayInSelectedRecommendation r id d = true) as ->; [|done].
    apply isDayInSelectedRecommendation_spec.
    unfold selectedRecommendation in Hsel. destruct id as [i|]; [|done].
    destruct (Z.leb_spec 0 i); [|done].
    exists i, rec. repeat split; try done.
    + destruct (recommendation_opportunity _ _ _ _ _ _ _ H Hrec)
        as (o & h & -> & _ & Hwf & _).
      apply (wf_span _ _ Hwf). done.
    + destruct (recommendation_opportunity _ _ _ _ _ _ _ H Hrec)
        as (o & h & -> & _ & Hwf & _).
      apply (wf_span _ _ Hwf). done.
  - apply getDayType_leave, isHoliday_spec. exists d.
    split; [by eapply leave_in_optimizedLeaves | done].
Qed.

Lemma selected_leave_is_active_witness :
  getDayHighlightState run_2026 holidays2026 (Some 1) (day 20480) = Some "active"%string ∧
  getDayType run_2026 holidays2026 (day 20480) = "leave"%string.
Proof.
  apply (selected_leave_is_active 20 holidays2026 8 false true run_2026 (Some 1)
           republic_2026).
  - vm_compute; reflexivity.
  - vm_compute; reflexivity.
  - vm_compute. apply list_elem_of_here.
Defined.

(** X26. The types of the days on a result of the optimizer, for the
    displayed list of holidays ([shown]), which may be another than the one
    the result was computed from ([hs]).  Leave comes first: a day is typed
    leave exactly when it is a leave date of a recommendation, holiday when
    it is a displayed holiday and no leave date, weekend exactly when it is a
    weekend day and no displayed holiday, workday when it is a working day
    of the displayed list and no leave date.  When the displayed holidays
    are on the days of [hs], no leave date is a holiday, and the days typed
    holiday are exactly the displayed holidays. *)
Theorem getDayType_on_result fuel hs n s p r shown day :
  optimizeLeaves fuel hs n s p = Some r →
  (getDayType r shown day = "leave"%string ↔
   ∃ rec d, rec ∈ recommendations r ∧ d ∈ leaveDates rec ∧ dayNumber d = dayNumber day) ∧
  (getDayType r shown day = "holiday"%string ↔
   isHoliday day shown = true ∧ isHoliday day (optimizedLeaves r) = false) ∧
  (getDayType r shown day = "weekend"%string ↔
   isWeekend day = true ∧ isHoliday day shown = false) ∧
  (getDayType r shown day = "workday"%string ↔
   isWorkingDay day shown = true ∧ isHoliday day (optimizedLeaves r) = false) ∧
  (same_days hs shown →
   (getDayType r shown day = "holiday"%string ↔ isHoliday day shown = true)).
Proof.
  intros H.
  pose proof (leave_is_working _ _ _ _ _ _ day H) as Hleave.
  split; [|split; [|split; [|split]]].
  - rewrite getDayType_leave, isHoliday_spec. split.
    + intros (d & Hd & E).
      destruct (optimizedLeaves_origin _ _ _ _ _ _ _ H Hd) as (rec & Hrec & Hdr).
      by exists rec, d.
    + intros (rec & d & Hrec & Hd & E). exists d.
      split; [by eapply leave_in_optimizedLeaves | done].
  - unfold getDayType.
    fold (isHoliday day (optimizedLeaves r)). fold (isHoliday day shown).
    destruct (isHoliday day (optimizedLeaves r)); [split; [done | by intros [_ ?]]|].
    destruct (isHoliday day shown); [done|].
    destruct (isWeekend day); split; try done; by intros [? _].
  - unfold getDayType.
    fold (isHoliday day (optimizedLeaves r)). fold (isHoliday day shown).
    destruct (isHoliday day (optimizedLeaves r)) eqn:E1.
    + specialize (Hleave eq_refl). unfold isWorkingDay in Hleave.
      apply andb_true_iff in Hleave as [Hw _]. apply negb_true_iff in Hw.
      rewrite Hw. split; [done | by intros [? _]].
    + destruct (isHoliday day shown); [split; [done | by intros [_ ?]]|].
      destruct (isWeekend day); [done | split; [done | by intros [? _]]].
  - unfold getDayType, isWorkingDay.
    fold (isHoliday day (optimizedLeaves r)). fold (isHoliday day shown).
    destruct (isHoliday day (optimizedLeaves r)), (isHoliday day shown), (isWeekend day);
      simpl; split; try done; by intros [? ?].
  - intros Hsame. unfold getDayType.
    fold (isHoliday day (optimizedLeaves r)). fold (isHoliday day shown).
    destruct (isHoliday day (optimizedLeaves r)) eqn:E1.
    + specialize (Hleave eq_refl). unfold isWorkingDay in Hleave.
      apply andb_true_iff in Hleave as [_ Hh]. apply negb_true_iff in Hh.
      rewrite (isHoliday_same_days day hs shown Hsame) in Hh. rewrite Hh. done.
    + destruct (isHoliday day shown); [done|]. by destruct (isWeekend day).
Qed.

Lemma getDayType_on_result_witness :
  (getDayType run_2026 [day 20455] (day 20455) = "leave"%string ↔
   ∃ rec d, rec ∈ recommendations run_2026 ∧ d ∈ leaveDates rec ∧
            dayNumber d = dayNumber (day 20455)) ∧
  (getDayType run_2026 [day 20455] (day 20455) = "holiday"%string ↔
   isHoliday (day 20455) [day 20455] = true ∧
   isHoliday (day 20455) (optimizedLeaves run_2026) = false) ∧
  (getDayType run_2026 [day 20455] (day 20455) = "weekend"%string ↔
   isWeekend (day 20455) = true ∧ isHoliday (day 20455) [day 20455] = false) ∧
  (getDayType run_2026 [day 20455] (day 20455) = "workday"%string ↔
   isWorkingDay (day 20455) [day 20455] = true ∧
   isHoliday (day 20455) (optimizedLeaves run_2026) = false) ∧
  (same_days holidays2026 [day 20455] →
   (getDayType run_2026 [day 20455] (day 20455) = "holiday"%string ↔
    isHoliday (day 20455) [day 20455] = true)).
Proof.
  apply (getDayType_on_result 20 holidays2026 8 false true run_2026 [day 20455]
           (day 20455)).
  vm_compute; reflexivity.
Defined.

(** ** Dates read from a file *)

Lemma parseDateString_unfold mt i :
  parseDateString mt i = components mt i ≫= validated.
Proof. reflexivity. Qed.

Lemma forallb_seqZ (f : Z → bool) lo len x :
  forallb f (seqZ lo len) = true → lo <= x < lo + len → f x = true.
Proof.
  intros H Hx. rewrite forallb_forall in H. apply H.
  apply list_elem_of_In, elem_of_seqZ. lia.
Qed.

Lemma calendar_checked :
  forallb (λ y,
    forallb (λ m,
      forallb (λ d, calendar_ok y m d (makeDay y m d) (civil (makeDay y m d)))
        (seqZ 1 31))
      (seqZ 0 12))
    (seqZ 2000 101) = true.
Proof. vm_compute. reflexivity. Qed.

Lemma calendar_ok_range y m d :
  2000 <= y <= 2100 → 0 <= m <= 11 → 1 <= d <= 31 →
  calendar_ok y m d (makeDay y m d) (civil (makeDay y m d)) = true.
Proof.
  intros Hy Hm Hd.
  pose proof calendar_checked as H.
  apply (forallb_seqZ _ 2000 101 y) in H; [|lia].
  apply (forallb_seqZ _ 0 12 m) in H; [|lia].
  apply (forallb_seqZ _ 1 31 d) in H; [|lia].
  exact H.
Qed.

Lemma calendar_ok_elim y m d n c :
  calendar_ok y m d n c = true →
  (c = (y, m, d) ↔ d <= daysInMonth y m) ∧ 0 <= n <= 50000.
Proof.
  destruct c as [[y' m'] d']. unfold calendar_ok. cbn [fst snd]. intros H.
  apply andb_true_iff in H as [H Hhi]. apply andb_true_iff in H as [H Hlo].
  apply eqb_prop in H. split; [|lia].
  split.
  - intros E. injection E as -> -> ->. rewrite !Z.eqb_refl in H.
    cbn [andb] in H. symmetry in H. by apply Z.leb_le.
  - intros Hle%Z.leb_le. rewrite Hle in H.
    apply andb_true_iff in H as [[H1 H2]%andb_true_iff H3].
    apply Z.eqb_eq in H1, H2, H3. congruence.
Qed.

Lemma civil_makeDay y m d :
  2000 <= y <= 2100 → 0 <= m <= 11 → 1 <= d <= 31 →
  (civil (makeDay y m d) = (y, m, d) ↔ d <= daysInMonth y m) ∧
  0 <= makeDay y m d <= 50000.
Proof.
  intros Hy Hm Hd. pose proof (calendar_ok_range y m d Hy Hm Hd) as H.
  pose proof (calendar_ok_elim _ _ _ _ _ H) as H'. exact H'.
Qed.

Lemma newDate_range y m d :
  2000 <= y <= 2100 → 0 <= m <= 11 → 1 <= d <= 31 →
  newDate (Some y) (Some m) (Some d) = Some (day (makeDay y m d)).
Proof.
  intros Hy Hm Hd. destruct (civil_makeDay y m d Hy Hm Hd) as [_ Hb].
  unfold newDate. cbn [mbind option_bind].
  destruct (Z.leb_spec 0 y); [|lia]. destruct (Z.leb_spec y 99); [lia|].
  cbn [andb]. fold (day (makeDay y m d)).
  destruct (Z.leb_spec (Z.abs (day (makeDay y m d))) 8640000000000000) as [|Hlt];
    [done|].
  unfold day, msPerDay in Hlt. lia.
Qed.

Lemma getters_day n :
  getFullYear (day n) = (civil n).1.1 ∧
  getMonth (day n) = (civil n).1.2 ∧
  getDate (day n) = (civil n).2.
Proof. unfold getFullYear, getMonth, getDate. by rewrite dayNumber_day. Qed.

Lemma daysInMonth_le y m : 28 <= daysInMonth y m <= 31.
Proof.
  unfold daysInMonth. destruct (m =? 1); [destruct (isLeapYear y); lia|].
  destruct (_ || _); lia.
Qed.

Lemma validated_range y m d :
  2000 <= y <= 2100 → 0 <= m <= 11 → 1 <= d <= 31 →
  validated (Some y, Some m, Some d) =
  if d <=? daysInMonth y m then Some (day (makeDay y m d)) else None.
Proof.
  intros Hy Hm Hd. unfold validated, num_gt, num_lt.
  destruct (Z.ltb_spec y 2000); [lia|]. destruct (Z.ltb_spec 2100 y); [lia|].
  destruct (Z.ltb_spec m 0); [lia|]. destruct (Z.ltb_spec 11 m); [lia|].
  destruct (Z.ltb_spec d 1); [lia|]. destruct (Z.ltb_spec 31 d); [lia|].
  cbn [orb]. cbv zeta.
  rewrite (newDate_range y m d Hy Hm Hd).
  destruct (civil_makeDay y m d Hy Hm Hd) as [Hc _].
  destruct (getters_day (makeDay y m d)) as (E1 & E2 & E3).
  change (getFullYear <$> Some (day (makeDay y m d)))
    with (Some (getFullYear (day (makeDay y m d)))).
  change (getMonth <$> Some (day (makeDay y m d)))
    with (Some (getMonth (day (makeDay y m d)))).
  change (getDate <$> Some (day (makeDay y m d)))
    with (Some (getDate (day (makeDay y m d)))).
  rewrite E1, E2, E3. unfold num_eq.
  destruct (Z.leb_spec d (daysInMonth y m)) as [Hle|Hgt].
  - rewrite (proj2 Hc Hle). cbn [fst snd]. by rewrite !Z.eqb_refl.
  - destruct (civil (makeDay y m d)) as [[y' m'] d']. cbn [fst snd].
    destruct ((y' =? y) && (m' =? m) && (d' =? d)) eqn:E; [|done].
    apply andb_true_iff in E as [[E1' E2']%andb_true_iff E3'].
    apply Z.eqb_eq in E1', E2', E3'. subst.
    pose proof (proj1 Hc eq_refl). lia.
Qed.

Lemma validated_spec yr mo dy dt :
  validated (yr, mo, dy) = Some dt ↔
  ∃ y m d, yr = Some y ∧ mo = Some m ∧ dy = Some d ∧
           calendar_date y m d ∧ dt = day (makeDay y m d).
Proof.
  split.
  - intros H.
    assert (∃ y m d, yr = Some y ∧ mo = Some m ∧ dy = Some d ∧
                     2000 <= y <= 2100 ∧ 0 <= m <= 11 ∧ 1 <= d <= 31)
      as (y & m & d & -> & -> & -> & Hy & Hm & Hd).
    { unfold validated in H.
      destruct (num_lt yr (Some 2000) || num_gt yr (Some 2100)) eqn:G1; [done|].
      destruct (num_lt mo (Some 0) || num_gt mo (Some 11)) eqn:G2; [done|].
      destruct (num_lt dy (Some 1) || num_gt dy (Some 31)) eqn:G3; [done|].
      cbv zeta in H.
      destruct (newDate yr mo dy) as [t|] eqn:Et; [|by destruct (_ && _)].
      destruct yr as [y|]; [|done]. destruct mo as [m|]; [|done].
      destruct dy as [d|]; [|done].
      apply orb_false_iff in G1 as [G1 G1'], G2 as [G2 G2'], G3 as [G3 G3'].
      unfold num_gt, num_lt in *.
      apply Z.ltb_ge in G1, G1', G2, G2', G3, G3'.
      exists y, m, d. repeat split; try done; lia. }
    rewrite (validated_range y m d Hy Hm Hd) in H.
    destruct (Z.leb_spec d (daysInMonth y m)); [|done]. injection H as <-.
    exists y, m, d. repeat split; try done; lia.
  - intros (y & m & d & -> & -> & -> & (Hy & Hm & Hd) & ->).
    pose proof (daysInMonth_le y m) as Hle.
    rewrite (validated_range y m d Hy Hm ltac:(lia)).
    destruct (Z.leb_spec d (daysInMonth y m)); [done | lia].
Qed.

Lemma components_index mt i c : components mt i = Some c → 0 <= i <= 4.
Proof.
  unfold components. intros H.
  destruct (Z.eqb_spec i 0); [lia|]. destruct (Z.eqb_spec i 1); [lia|].
  destruct (Z.eqb_spec i 2); [lia|]. destruct (Z.eqb_spec i 3); [lia|].
  destruct (Z.eqb_spec i 4); [lia|]. done.
Qed.

Lemma calendar_date_getters y m d :
  calendar_date y m d →
  getFullYear (day (makeDay y m d)) = y ∧
  getMonth (day (makeDay y m d)) = m ∧
  getDate (day (makeDay y m d)) = d.
Proof.
  intros (Hy & Hm & Hd). pose proof (daysInMonth_le y m) as Hle.
  destruct (civil_makeDay y m d Hy Hm ltac:(lia)) as [Hc _].
  destruct (getters_day (makeDay y m d)) as (-> & -> & ->).
  by rewrite (proj2 Hc (proj2 Hd)).
Qed.

(** X27. A date that [parseDateString] returns is the local midnight of a
    day that exists in the calendar, of a year from 2000 to 2100, and its
    pattern index is one of the five of [DATE_PATTERNS]; a day such as the
    30th of February is never returned. *)
Theorem parseDateString_calendar_date mt i dt :
  parseDateString mt i = Some dt →
  0 <= i <= 4 ∧
  ∃ y m d, calendar_date y m d ∧ dt = day (makeDay y m d) ∧
           getFullYear dt = y ∧ getMonth dt = m ∧ getDate dt = d ∧
           startOfDay dt = dt.
Proof.
  rewrite parseDateString_unfold. intros H.
  destruct (components mt i) as [[[yr mo] dy]|] eqn:Ec; [|done].
  split; [by eapply components_index|].
  apply validated_spec in H as (y & m & d & -> & -> & -> & Hcal & ->).
  destruct (calendar_date_getters y m d Hcal) as (E1 & E2 & E3).
  exists y, m, d. repeat split; try done; try apply Hcal.
  unfold startOfDay. fold (dayNumber (day (makeDay y m d))).
  rewrite dayNumber_day. unfold day. lia.
Qed.

Lemma parseDateString_calendar_date_witness :
  0 <= 2 <= 4 ∧
  ∃ y m d, calendar_date y m d ∧ day 20479 = day (makeDay y m d) ∧
           getFullYear (day 20479) = y ∧ getMonth (day 20479) = m ∧
           getDate (day 20479) = d ∧
           startOfDay (day 20479) = day 20479.
Proof.
  apply (parseDateString_calendar_date ["2026-01-26"; "2026"; "01"; "26"]%string 2).
  vm_compute; reflexivity.
Defined.

(** X28. On a match of the pattern YYYY-MM-DD, [parseDateString] returns
    a date exactly when the three groups read as a year from 2000 to 2100, a
    month from 1 to 12 and a day that this month has in this year; the date
    is the local midnight of that day. *)
Theorem parseDateString_iso mt dt :
  parseDateString mt 2 = Some dt ↔
  ∃ y m d, parseInt (mt !! 1%nat) = Some y ∧ parseInt (mt !! 2%nat) = Some (m + 1) ∧
           parseInt (mt !! 3%nat) = Some d ∧
           calendar_date y m d ∧ dt = day (makeDay y m d).
Proof.
  rewrite parseDateString_unfold.
  change (components mt 2)
    with (Some (parseInt (mt !! 1%nat), num_sub (parseInt (mt !! 2%nat)) (Some 1),
                parseInt (mt !! 3%nat))).
  cbn [mbind option_bind]. rewrite validated_spec. split.
  - intros (y & m & d & Ey & Em & Ed & Hcal & ->). exists y, m, d.
    destruct (parseInt (mt !! 2%nat)) as [m1|]; [|done].
    cbn in Em. injection Em as <-.
    repeat split; try done; try apply Hcal. f_equal. lia.
  - intros (y & m & d & Ey & Em & Ed & Hcal & ->). exists y, m, d.
    rewrite Em. cbn. repeat split; try done; try apply Hcal. f_equal. lia.
Qed.

(** X29. On a match of the numeric patterns (indices 3 and 4, which are
    read alike) the first number is the day only when it is above 12, and
    the month otherwise: 13/02/2026 is the 13th of February, and 05/07/2026
    is the 7th of May, whatever the writer meant. *)
Theorem parseDateString_numeric mt i a b y dt :
  i = 3 ∨ i = 4 →
  parseInt (mt !! 1%nat) = Some a → parseInt (mt !! 2%nat) = Some b →
  parseInt (mt !! 3%nat) = Some y →
  parseDateString mt i = Some dt ↔
  (if 12 <? a
   then calendar_date y (b - 1) a ∧ dt = day (makeDay y (b - 1) a)
   else calendar_date y (a - 1) b ∧ dt = day (makeDay y (a - 1) b)).
Proof.
  intros Hi Ea Eb Ey. rewrite parseDateString_unfold.
  assert (Ec : components mt i =
               if 12 <? a then Some (Some y, Some (b - 1), Some a)
               else Some (Some y, Some (a - 1), Some b)).
  { unfold components. rewrite Ea, Eb, Ey.
    destruct Hi as [-> | ->]; cbn [Z.eqb Pos.eqb orb]; unfold num_gt, num_lt;
      by destruct (12 <? a). }
  rewrite Ec. destruct (12 <? a); cbn [mbind option_bind]; rewrite validated_spec.
  - split.
    + intros (y' & m' & d' & ? & ? & ? & Hcal & ->). by simplify_eq.
    + intros [Hcal ->]. by exists y, (b - 1), a.
  - split.
    + intros (y' & m' & d' & ? & ? & ? & Hcal & ->). by simplify_eq.
    + intros [Hcal ->]. by exists y, (a - 1), b.
Qed.

Lemma parseDateString_numeric_witness :
  parseDateString ["05/07/2026"; "05"; "07"; "2026"]%string 3
    = Some (day 20580) ↔
  (if 12 <? 5
   then calendar_date 2026 (7 - 1) 5 ∧
        day 20580 = day (makeDay 2026 (7 - 1) 5)
   else calendar_date 2026 (5 - 1) 7 ∧
        day 20580 = day (makeDay 2026 (5 - 1) 7)).
Proof.
  apply (parseDateString_numeric ["05/07/2026"; "05"; "07"; "2026"]%string 3 5 7 2026).
  - by left.
  - vm_compute; reflexivity.
  - vm_compute; reflexivity.
  - vm_compute; reflexivity.
Defined.

(** X30. The two patterns with a month name read the same date from the
    same three groups; they return a date exactly when the name, in lower
    case, is in [MONTH_NAMES] and the day exists in that month of the year. *)
Theorem parseDateString_month_name f f' ds name ys dt :
  parseDateString [f; ds; name; ys] 0 = parseDateString [f'; name; ds; ys] 1 ∧
  (parseDateString [f; ds; name; ys] 0 = Some dt ↔
   ∃ y m d, MONTH_NAMES !! toLowerCase name = Some m ∧
            parseInt (Some ds) = Some d ∧ parseInt (Some ys) = Some y ∧
            calendar_date y m d ∧ dt = day (makeDay y m d)).
Proof.
  split; [done|].
  rewrite parseDateString_unfold.
  change (components [f; ds; name; ys] 0)
    with (if MONTH_NAMES !! toLowerCase name is None then None
          else Some (parseInt (Some ys), MONTH_NAMES !! toLowerCase name,
                     parseInt (Some ds))).
  destruct (MONTH_NAMES !! toLowerCase name) as [m|]; cbn [mbind option_bind].
  - rewrite validated_spec. split.
    + intros (y' & m' & d' & ? & ? & ? & Hcal & ->). simplify_eq.
      by exists y', m', d'.
    + intros (y' & m' & d' & ? & ? & ? & Hcal & ->). simplify_eq.
      by exists y', m', d'.
  - split; [done|]. by intros (y' & m' & d' & ? & _).
Qed.
